(** * dnn: im2col / col2im, layers and the back-propagation engine

    A shallow embedding of the parts of the [dnn] / [dnnet] library that
    its specification talks about:

    - [src/dnn/utils/im2col.py]   (notebook export: [pad_img], [reshape_img],
      [get_remainders_of_filtering], [extend_img_for_filtering], the
      [im2col] with [force], and the later cell with [pad_image], a second
      [im2col] and [col2im]);
    - [src/dnn/layers/activation.py]   ([ActivationLayer], the activation
      classes and [ActivationFactory]);
    - [src/dnnet/layers/affine.py]   ([AffineLayer]);
    - [src/dnn/training/back_propagation.py]   ([BackPropagation]).

    numpy arrays are modelled as a shape together with the row-major list
    of the elements; Python exceptions as the left summand of a sum type.
    Floating point numbers are kept abstract: the element type and its
    operations are parameters. *)

From Stdlib Require Import String.
From Stdlib Require Import List ZArith Lia Bool Arith PeanoNat.
Import ListNotations.

Local Open Scope string_scope.
Local Open Scope list_scope.
Local Open Scope nat_scope.

(** ** Python exceptions and the result monad *)

Module Py.

Inductive exn : Type :=
| RuntimeError (msg : string)
| ValueError (msg : string)
| IndexError (msg : string)
| NameError (name : string)
| AttributeError (msg : string)
| KeyError (key : nat)
| ZeroDivisionError
| TypeError (msg : string)
| MemoryFault
| OutsideModel (what : string).

Definition result (T : Type) : Type := (exn + T)%type.

Definition ok {T} (x : T) : result T := inr x.
Definition raise {T} (e : exn) : result T := inl e.

Definition bind {T U} (c : result T) (k : T -> result U) : result U :=
  match c with
  | inl e => inl e
  | inr x => k x
  end.

(** Reading a module-level name: unbound names raise [NameError]. *)
Definition lookup {T} (name : string) (v : option T) : result T :=
  match v with
  | Some x => ok x
  | None => raise (NameError name)
  end.

End Py.

Import Py.

Declare Scope py_scope.
Delimit Scope py_scope with py.
Notation "x <- c ;; k" := (Py.bind c (fun x => k))
  (at level 61, c at next level, right associativity) : py_scope.
Notation "' p <- c ;; k" := (Py.bind c (fun x => match x with p => k end))
  (at level 61, p pattern, c at next level, right associativity) : py_scope.
Local Open Scope py_scope.

(** ** numpy arrays *)

Module Np.

(** [tabulate n f] is the list [f 0; f 1; ...; f (n-1)]. *)
Definition tabulate {T} (n : nat) (f : nat -> T) : list T :=
  map f (seq 0 n).

(** [np.prod] of a shape. *)
Definition size (s : list nat) : nat := fold_right Nat.mul 1 s.

(** Row-major flat offset of a multi-index, and its inverse. *)
Fixpoint ravel (s idx : list nat) : nat :=
  match s, idx with
  | _ :: s', i :: idx' => i * size s' + ravel s' idx'
  | _, _ => 0
  end.

Fixpoint unravel (s : list nat) (k : nat) : list nat :=
  match s with
  | [] => []
  | _ :: s' => (k / size s') :: unravel s' (k mod size s')
  end.

(** A multi-index lies inside a shape. *)
Fixpoint in_shape (s idx : list nat) : Prop :=
  match s, idx with
  | [], [] => True
  | d :: s', i :: idx' => i < d /\ in_shape s' idx'
  | _, _ => False
  end.

Record ndarray (T : Type) : Type := mk_ndarray {
  shape : list nat;
  data : list T
}.
Arguments mk_ndarray {T} shape data.
Arguments shape {T} _.
Arguments data {T} _.

Definition ndim {T} (a : ndarray T) : nat := length (shape a).

(** Well-formed arrays hold exactly [size shape] elements. *)
Definition wf {T} (a : ndarray T) : Prop := length (data a) = size (shape a).
Definition wfb {T} (a : ndarray T) : bool := length (data a) =? size (shape a).

(** C-contiguous strides of a shape, counted in elements. *)
Fixpoint c_strides (s : list nat) : list Z :=
  match s with
  | [] => []
  | _ :: s' => Z.of_nat (size s') :: c_strides s'
  end.

Definition strides {T} (a : ndarray T) : list Z := c_strides (shape a).

(** [a.reshape(s)] with every entry of [s] given. *)
Definition reshape {T} (a : ndarray T) (s : list nat) : result (ndarray T) :=
  if size s =? length (data a) then ok (mk_ndarray s (data a))
  else raise (ValueError "cannot reshape array").

(** [a.reshape(.., -1, ..)]: the entry at position [length pre] is inferred. *)
Definition reshape_infer {T} (a : ndarray T) (pre post : list nat)
  : result (ndarray T) :=
  let known := size pre * size post in
  if known =? 0 then raise (ValueError "cannot reshape array")
  else if length (data a) mod known =? 0
       then ok (mk_ndarray (pre ++ (length (data a) / known) :: post) (data a))
       else raise (ValueError "cannot reshape array").

(** [perm] is a permutation of [0 .. n-1]. *)
Definition is_perm (n : nat) (perm : list nat) : bool :=
  (length perm =? n) &&
  forallb (fun a => existsb (Nat.eqb a) perm) (seq 0 n).

(** Position of axis [a] in [perm]. *)
Fixpoint index_of (a : nat) (perm : list nat) : nat :=
  match perm with
  | [] => 0
  | p :: perm' => if p =? a then 0 else S (index_of a perm')
  end.

(** [a.transpose(perm)]: axis [j] of the result is axis [perm[j]] of [a]. *)
Definition transpose {T} (d : T) (a : ndarray T) (perm : list nat)
  : result (ndarray T) :=
  if is_perm (ndim a) perm then
    let s' := map (fun p => nth p (shape a) 0) perm in
    ok (mk_ndarray s'
          (tabulate (size s')
             (fun k =>
                let idx' := unravel s' k in
                let idx := map (fun ax => nth (index_of ax perm) idx' 0)
                               (seq 0 (ndim a)) in
                nth (ravel (shape a) idx) (data a) d)))
  else raise (ValueError "axes don't match array").

(** Offset (in elements) addressed by a multi-index under given strides. *)
Fixpoint offset (idx : list nat) (st : list Z) : Z :=
  match idx, st with
  | i :: idx', s :: st' => (Z.of_nat i * s + offset idx' st')%Z
  | _, _ => 0%Z
  end.

(** [numpy.lib.stride_tricks.as_strided(a, shape=s, strides=st)], with
    strides counted in elements.  numpy performs no bounds check and reads
    whatever memory the strides address; here a view that addresses an
    element outside the buffer is reported as [MemoryFault]. *)
Definition as_strided {T} (d : T) (a : ndarray T) (s : list nat) (st : list Z)
  : result (ndarray T) :=
  if negb (length s =? length st) then
    raise (ValueError "mismatch in length of strides and shape")
  else
    let n := Z.of_nat (length (data a)) in
    if forallb (fun k => let o := offset (unravel s k) st in
                         (0 <=? o)%Z && (o <? n)%Z)
               (seq 0 (size s))
    then ok (mk_ndarray s
               (tabulate (size s)
                  (fun k => nth (Z.to_nat (offset (unravel s k) st)) (data a) d)))
    else raise MemoryFault.

(** [np.pad(a, pad_width, mode='constant', constant_values=0)].  A single
    (before, after) pair is broadcast to every axis, as numpy does. *)
Definition pad_constant {T} (zero : T) (a : ndarray T) (pad_width : list (Z * Z))
  : result (ndarray T) :=
  let n := ndim a in
  pw <- (if length pad_width =? n then ok pad_width
         else match pad_width with
              | [p] => ok (repeat p n)
              | _ => raise (ValueError "unable to broadcast pad_width")
              end) ;;
  if forallb (fun p => (0 <=? fst p)%Z && (0 <=? snd p)%Z) pw then
    let before := map (fun p => Z.to_nat (fst p)) pw in
    let s' := map (fun dp => fst dp + Z.to_nat (fst (snd dp))
                             + Z.to_nat (snd (snd dp)))
                  (combine (shape a) pw) in
    ok (mk_ndarray s'
          (tabulate (size s')
             (fun k =>
                let idx' := unravel s' k in
                let inside :=
                  forallb (fun t => let '(i, (b, dm)) := t in
                                    (b <=? i) && (i <? b + dm))
                          (combine idx' (combine before (shape a))) in
                if inside
                then nth (ravel (shape a)
                            (map (fun ib => fst ib - snd ib)
                                 (combine idx' before)))
                         (data a) zero
                else zero)))
  else raise (ValueError "index can't contain negative values").

(** [np.arange(0, n)] *)
Definition arange (n : nat) : ndarray nat := mk_ndarray [n] (seq 0 n).

(** Number of indices [0, step, 2*step, ...] below [n]. *)
Definition step_count (n step : nat) : nat := (n + step - 1) / step.

(** [a[::sr, ::sc]]: every [sr]-th row and [sc]-th column. *)
Definition slice_step2 {T} (d : T) (a : ndarray T) (sr sc : nat)
  : result (ndarray T) :=
  match shape a with
  | r :: c :: rest =>
      if (sr =? 0) || (sc =? 0)
      then raise (ValueError "slice step cannot be zero")
      else
        let s' := step_count r sr :: step_count c sc :: rest in
        ok (mk_ndarray s'
              (tabulate (size s')
                 (fun k =>
                    match unravel s' k with
                    | i :: j :: idx =>
                        nth (ravel (shape a) (i * sr :: j * sc :: idx)) (data a) d
                    | _ => d
                    end)))
  | _ => raise (IndexError "too many indices for array")
  end.

(** [a[0, :]] *)
Definition row0 {T} (a : ndarray T) : result (ndarray T) :=
  match shape a with
  | r :: c :: rest =>
      if r =? 0 then raise (IndexError "index 0 is out of bounds")
      else ok (mk_ndarray (c :: rest) (firstn (size (c :: rest)) (data a)))
  | _ => raise (IndexError "too many indices for array")
  end.

(** [a[:, rows, :]] for a 1-d integer array [rows]. *)
Definition take_axis1 {T} (d : T) (a : ndarray T) (rows : list nat)
  : result (ndarray T) :=
  match shape a with
  | d0 :: d1 :: d2 :: rest =>
      if forallb (fun r => r <? d1) rows then
        let s' := d0 :: length rows :: d2 :: rest in
        ok (mk_ndarray s'
              (tabulate (size s')
                 (fun k =>
                    match unravel s' k with
                    | i :: j :: idx =>
                        nth (ravel (shape a) (i :: nth j rows 0 :: idx)) (data a) d
                    | _ => d
                    end)))
      else raise (IndexError "index is out of bounds for axis 1")
  | _ => raise (IndexError "too many indices for array")
  end.

(** A 0-d array, and elementwise maps. *)
Definition scalar {T} (x : T) : ndarray T := mk_ndarray [] [x].

Definition amap {T U} (f : T -> U) (a : ndarray T) : ndarray U :=
  mk_ndarray (shape a) (map f (data a)).

(** numpy broadcasting: shapes are aligned at their last axis; two extents
    are compatible when they are equal or one of them is 1. *)
Fixpoint broadcast_rev (r1 r2 : list nat) : option (list nat) :=
  match r1, r2 with
  | [], r => Some r
  | r, [] => Some r
  | d1 :: t1, d2 :: t2 =>
      match broadcast_rev t1 t2 with
      | None => None
      | Some t =>
          if d1 =? d2 then Some (d1 :: t)
          else if d1 =? 1 then Some (d2 :: t)
          else if d2 =? 1 then Some (d1 :: t)
          else None
      end
  end.

Definition broadcast_shapes (s1 s2 : list nat) : option (list nat) :=
  option_map (@rev nat) (broadcast_rev (rev s1) (rev s2)).

(** Index into an operand of shape [s] for the result index [idx]. *)
Definition broadcast_index (s idx : list nat) : list nat :=
  map (fun di => if fst di =? 1 then 0 else snd di)
      (combine s (skipn (length idx - length s) idx)).

(** A binary ufunc [a op b]. *)
Definition map2 {T U V} (dt : T) (du : U) (op : T -> U -> V)
    (a : ndarray T) (b : ndarray U) : result (ndarray V) :=
  match broadcast_shapes (shape a) (shape b) with
  | None => raise (ValueError "operands could not be broadcast together")
  | Some s =>
      ok (mk_ndarray s
            (tabulate (size s)
               (fun k =>
                  let idx := unravel s k in
                  op (nth (ravel (shape a) (broadcast_index (shape a) idx))
                          (data a) dt)
                     (nth (ravel (shape b) (broadcast_index (shape b) idx))
                          (data b) du))))
  end.

(** [a.shape[0]] *)
Definition shape0 {T} (a : ndarray T) : result nat :=
  match shape a with
  | d :: _ => ok d
  | [] => raise (IndexError "tuple index out of range")
  end.

(** [a[i:j]] along the first axis, for [0 <= i <= j]. *)
Definition slice_rows {T} (a : ndarray T) (i j : nat) : result (ndarray T) :=
  match shape a with
  | d :: rest =>
      let lo := Nat.min i d in
      let hi := Nat.max lo (Nat.min j d) in
      ok (mk_ndarray ((hi - lo) :: rest)
            (firstn ((hi - lo) * size rest) (skipn (lo * size rest) (data a))))
  | [] => raise (IndexError "too many indices for array")
  end.

(** [np.zeros(s)], [np.ones(s)] and [np.zeros_like(a)] for given 0 and 1. *)
Definition full {T} (s : list nat) (v : T) : ndarray T :=
  mk_ndarray s (repeat v (size s)).

Definition zeros_like {T} (zero : T) (a : ndarray T) : ndarray T :=
  mk_ndarray (shape a) (map (fun _ => zero) (data a)).

(** [np.r_[a, b]]: concatenation along the first axis. *)
Definition r_ {T} (a b : ndarray T) : result (ndarray T) :=
  match shape a, shape b with
  | da :: ta, db :: tb =>
      if list_eq_dec Nat.eq_dec ta tb
      then ok (mk_ndarray ((da + db) :: ta) (data a ++ data b))
      else raise (ValueError "all the input array dimensions must match")
  | _, _ => raise (ValueError "all the input arrays must have same number of dimensions")
  end.

(** [np.c_[a, b]] for a 2-d [a]: concatenation along the last axis; a 1-d
    [b] is taken as a column. *)
Definition c_ {T} (d : T) (a b : ndarray T) : result (ndarray T) :=
  match shape a with
  | [n; ma] =>
      mb <- match shape b with
            | [nb] => if nb =? n then ok 1
                      else raise (ValueError "all the input array dimensions must match")
            | [nb; mb] => if nb =? n then ok mb
                          else raise (ValueError "all the input array dimensions must match")
            | _ => raise (ValueError "all the input arrays must have same number of dimensions")
            end ;;
      ok (mk_ndarray [n; ma + mb]
            (tabulate (n * (ma + mb))
               (fun k =>
                  let i := k / (ma + mb) in
                  let j := k mod (ma + mb) in
                  if j <? ma then nth (i * ma + j) (data a) d
                  else nth (i * mb + (j - ma)) (data b) d)))
  | _ => raise (OutsideModel "np.c_ with a first operand that is not 2-d")
  end.

(** [np.dot(a, b)] for 2-d operands. *)
Definition dot {T} (zero : T) (add mul : T -> T -> T) (a b : ndarray T)
  : result (ndarray T) :=
  match shape a, shape b with
  | [n; k], [k'; m] =>
      if k =? k' then
        ok (mk_ndarray [n; m]
              (tabulate (n * m)
                 (fun p =>
                    let i := p / m in
                    let j := p mod m in
                    fold_left add
                      (map (fun l => mul (nth (i * k + l) (data a) zero)
                                         (nth (l * m + j) (data b) zero))
                           (seq 0 k))
                      zero)))
      else raise (ValueError "shapes not aligned")
  | _, _ => raise (OutsideModel "np.dot with operands that are not 2-d")
  end.

(** [a.T] *)
Definition T_ {T} (d : T) (a : ndarray T) : result (ndarray T) :=
  transpose d a (rev (seq 0 (ndim a))).

(** [a[1:, :]] *)
Definition drop_row0 {T} (a : ndarray T) : result (ndarray T) :=
  match shape a with
  | d0 :: _ :: _ => slice_rows a 1 d0
  | _ => raise (IndexError "too many indices for array")
  end.

End Np.

Import Np.

(** ** [src/dnn/utils/im2col.py]

    The file is a notebook export.  Several functions read names that are
    neither parameters nor locals ([pad] in [pad_img], [gap_r] and [gap_c]
    in [extend_img_for_filtering], [oh] and [ow] in [col2im], [batch_size]
    in the second [im2col]); Python resolves them in the module namespace
    when the function runs.  That namespace is the record [globals]: [None]
    is an unbound name. *)

Module Im2col.

(** A pad amount for one axis: an int, or a (before, after) tuple. *)
Inductive axis_pad : Type :=
| PadInt (n : Z)
| PadPair (before after : Z).

Definition pad_t : Type := (axis_pad * axis_pad)%type.

Record globals : Type := mk_globals {
  g_pad : option pad_t;
  g_gap_r : option Z;
  g_gap_c : option Z;
  g_oh : option nat;
  g_ow : option nat;
  g_batch_size : option nat
}.

(** The namespace after the top-level assignments of the file itself:
    [pad = (0, 0)] (cell In[146]) and [gap_r, gap_c = 0, 0] (the remainders
    of a 6x6 image, 3x3 filter and unit strides, cell In[112]); [oh], [ow]
    and [batch_size] are assigned only inside string literals. *)
Definition module_globals : globals :=
  mk_globals (Some (PadInt 0, PadInt 0)) (Some 0%Z) (Some 0%Z) None None None.

(** [np.prod(pad)] for a pad tuple; numpy refuses a ragged tuple. *)
Definition np_prod_pad (p : pad_t) : result Z :=
  match p with
  | (PadInt a, PadInt b) => ok (a * b)%Z
  | (PadPair a b, PadPair c d) => ok (a * b * c * d)%Z
  | _ => raise (ValueError "inhomogeneous shape")
  end.

Definition py_mod (a b : Z) : result Z :=
  if (b =? 0)%Z then raise ZeroDivisionError else ok (a mod b)%Z.

Definition py_floordiv (a b : Z) : result Z :=
  if (b =? 0)%Z then raise ZeroDivisionError else ok (a / b)%Z.

(** A shape entry computed as a Python int. *)
Definition dim_of_Z (z : Z) : result nat :=
  if (z <? 0)%Z then raise (ValueError "negative dimensions are not allowed")
  else ok (Z.to_nat z).

(** Number of window positions along an axis of extent [n], for a window
    of extent [f] moved by [s]: the spec's [(n - f)//s + 1]. *)
Definition window_count (n : nat) (f s : Z) : nat :=
  Z.to_nat ((Z.of_nat n - f) / s + 1).

(** [b, c, r, w = a.shape] *)
Definition unpack4 {T} (a : ndarray T) : result (nat * nat * nat * nat) :=
  match shape a with
  | [b; c; r; w] => ok (b, c, r, w)
  | _ => raise (ValueError "not enough values to unpack")
  end.

Section Image.

Context {T : Type} (zero : T).

(** lines 20-68 *)
Definition pad_img (G : globals) (img : ndarray T) (pad_rows pad_cols : axis_pad)
  : result (ndarray T) :=
  if ndim img <? 2 then raise (RuntimeError "1d array is not supported.")
  else
    pad <- lookup "pad" (g_pad G) ;;
    p <- np_prod_pad pad ;;
    if (p =? 0)%Z then ok img
    else
      let npad := repeat (0%Z, 0%Z) (ndim img - 2) in
      let npad := npad ++ match pad_rows with
                          | PadPair a b => [(a, b)]
                          | PadInt n => [(n, n)]
                          end in
      let npad := npad ++ match pad_cols with
                          | PadPair a b => [(a, b)]
                          | PadInt n => if (n =? 0)%Z then [] else [(n, n)]
                          end in
      pad_constant zero img npad.

(** lines 73-99 *)
Definition reshape_img (img : ndarray T) : result (ndarray T) :=
  match shape img with
  | [n] => reshape img [1; 1; 1; n]
  | [r; c] => reshape img [1; 1; r; c]
  | [ch; r; c] => reshape img [1; ch; r; c]
  | s => if 4 <? length s
         then raise (RuntimeError "len(img.shape) must be <= 4.")
         else ok img
  end.

(** lines 102-117 *)
Definition get_remainders_of_filtering
    (rows cols f_rows f_cols : Z) (strides : Z * Z) : result (Z * Z) :=
  rem_r <- py_mod (rows - f_rows) (fst strides) ;;
  rem_c <- py_mod (cols - f_cols) (snd strides) ;;
  ok (rem_r, rem_c).

(** lines 120-146: the body reads [gap_r] and [gap_c], not its parameters. *)
Definition extend_img_for_filtering
    (G : globals) (img : ndarray T) (rem_r rem_c : Z) : result (ndarray T) :=
  gap_r <- lookup "gap_r" (g_gap_r G) ;;
  let pad_r := PadPair (gap_r / 2) (gap_r - gap_r / 2) in
  gap_c <- lookup "gap_c" (g_gap_c G) ;;
  let pad_c := PadPair (gap_c / 2) (gap_c - gap_c / 2) in
  pad_img G img pad_r pad_c.

Definition shape_mismatch_msg : string :=
  "Filter cannot be applied to image with the strides.".

(** lines 149-217 *)
Definition im2col (G : globals) (img : ndarray T) (f_shape : Z * Z)
    (pad : pad_t) (strides : Z * Z) (force : bool) : result (ndarray T) :=
  r <- reshape_img img ;;
  pimg <- pad_img G r (fst pad) (snd pad) ;;
  '(batches, chs, rows, cols) <- unpack4 pimg ;;
  let '(f_rows, f_cols) := f_shape in
  '(gap_r, gap_c) <- get_remainders_of_filtering
                       (Z.of_nat rows) (Z.of_nat cols) f_rows f_cols strides ;;
  '(pimg, (batches, chs, rows, cols)) <-
     (if (gap_r >? 0)%Z || (gap_c >? 0)%Z then
        if force then
          pimg' <- extend_img_for_filtering G pimg gap_r gap_c ;;
          dims <- unpack4 pimg' ;;
          ok (pimg', dims)
        else raise (RuntimeError shape_mismatch_msg)
      else ok (pimg, (batches, chs, rows, cols))) ;;
  match Np.strides pimg with
  | [st_batch; st_ch; st_r; st_c] =>
      let f_st_r := (st_r * fst strides)%Z in
      let f_st_c := (st_c * snd strides)%Z in
      let dst_strides := [st_batch; st_ch; f_st_r; f_st_c; st_r; st_c] in
      q_r <- py_floordiv (Z.of_nat rows - f_rows) (fst strides) ;;
      let dst_rows := (q_r + 1)%Z in
      q_c <- py_floordiv (Z.of_nat cols - f_cols) (snd strides) ;;
      let dst_cols := (q_c + 1)%Z in
      n_rows <- dim_of_Z dst_rows ;;
      n_cols <- dim_of_Z dst_cols ;;
      n_frows <- dim_of_Z f_rows ;;
      n_fcols <- dim_of_Z f_cols ;;
      let dst_shape := [batches; chs; n_rows; n_cols; n_frows; n_fcols] in
      dst_img <- as_strided zero pimg dst_shape dst_strides ;;
      let dst_rows := (Z.of_nat batches * dst_rows * dst_cols)%Z in
      let dst_cols := (Z.of_nat chs * f_rows * f_cols)%Z in
      t <- transpose zero dst_img [0; 2; 3; 1; 4; 5] ;;
      out_rows <- dim_of_Z dst_rows ;;
      out_cols <- dim_of_Z dst_cols ;;
      reshape t [out_rows; out_cols]
  | _ => raise (ValueError "not enough values to unpack")
  end.

End Image.

(** Cell In[112] (lines 366-479) defines [im2col] a second time, with a
    [ch_axis] argument, and [col2im] and [flatten] next to it. *)
Module Cell112.

Section Image.

Context {T : Type} (zero : T).

(** [image.shape[i]] *)
Definition shape_at (image : ndarray T) (i : nat) : result Z :=
  match nth_error (shape image) i with
  | Some d => ok (Z.of_nat d)
  | None => raise (IndexError "tuple index out of range")
  end.

Definition assert_strides_msg : string :=
  "Improper combination of image size, window size and strides.".

(** lines 385-391: the inner function compares entries 0 and 1 of
    [image.shape] with the window. *)
Definition assert_strides (image : ndarray T) (win_shape pad strides : Z * Z)
  : result unit :=
  d0 <- shape_at image 0 ;;
  r0 <- py_mod (d0 - fst win_shape) (fst strides) ;;
  if (r0 >? 0)%Z then raise (RuntimeError assert_strides_msg)
  else
    d1 <- shape_at image 1 ;;
    r1 <- py_mod (d1 - snd win_shape) (snd strides) ;;
    if (r1 >? 0)%Z then raise (RuntimeError assert_strides_msg)
    else ok tt.

(** lines 384-461 *)
Definition im2col (G : globals) (image : ndarray T) (window_shape : Z * Z)
    (pad : Z * Z) (strides : Z * Z) (ch_axis : Z) : result (ndarray T) :=
  _ <- assert_strides image window_shape pad strides ;;
  '(batch_sizes, channels, img_rows, img_cols) <- unpack4 image ;;
  match Np.strides image with
  | [stride_per_batch; stride_per_channel; stride_per_row; stride_per_col] =>
      let '(win_rows, win_cols) := window_shape in
      q_r <- py_floordiv (Z.of_nat img_rows - win_rows) (fst strides) ;;
      let dst_rows := (q_r + 1)%Z in
      q_c <- py_floordiv (Z.of_nat img_cols - win_cols) (snd strides) ;;
      let dst_cols := (q_c + 1)%Z in
      let win_stride_per_row := (stride_per_row * fst strides)%Z in
      let win_stride_per_col := (stride_per_col * snd strides)%Z in
      n_rows <- dim_of_Z dst_rows ;;
      n_cols <- dim_of_Z dst_cols ;;
      n_wrows <- dim_of_Z win_rows ;;
      n_wcols <- dim_of_Z win_cols ;;
      let shape := [batch_sizes; channels; n_rows; n_cols; n_wrows; n_wcols] in
      let strides := [stride_per_batch; stride_per_channel;
                      win_stride_per_row; win_stride_per_col;
                      stride_per_row; stride_per_col] in
      dst <- as_strided zero image shape strides ;;
      if (ch_axis =? 0)%Z then
        let dst_col := n_wrows * n_wcols in
        batch_size <- lookup "batch_size" (g_batch_size G) ;;
        reshape_infer dst [batch_size; channels] [dst_col]
      else
        let dst_col := n_wrows * n_wcols * channels in
        t <- transpose zero dst [0; 2; 3; 1; 4; 5] ;;
        batch_size <- lookup "batch_size" (g_batch_size G) ;;
        reshape_infer t [batch_size] [dst_col]
  | _ => raise (ValueError "not enough values to unpack")
  end.

(** lines 368-381 *)
Definition pad_image (image : ndarray T) (pad : Z * Z) : result (ndarray T) :=
  let p0 := (fst pad, fst pad) in
  let p1 := (snd pad, snd pad) in
  match length (shape image) with
  | 2 => pad_constant zero image [p0; p1]
  | 3 => pad_constant zero image [(0, 0)%Z; p0; p1]
  | 4 => pad_constant zero image [(0, 0)%Z; (0, 0)%Z; p0; p1]
  | 5 => pad_constant zero image [(0, 0)%Z; (0, 0)%Z; (0, 0)%Z; p0; p1]
  | _ => raise (RuntimeError "len(image.shape) > 5 or < 2.")
  end.

(** [a // b] on sizes *)
Definition nat_floordiv (a b : nat) : result nat :=
  if b =? 0 then raise ZeroDivisionError else ok (a / b).

(** lines 464-474.  [oh] and [ow] are read from the module namespace; the
    [strides] and [ch_axis] arguments are not used. *)
Definition col2im (G : globals) (mat : ndarray T) (window_shape : nat * nat)
    (batch_size channels h w : nat) (strides : Z * Z) (ch_axis : Z)
  : result (ndarray T) :=
  let '(win_h, win_w) := window_shape in
  oh <- lookup "oh" (g_oh G) ;;
  ow <- lookup "ow" (g_ow G) ;;
  grid <- reshape_infer (arange (oh * ow)) [oh] [] ;;
  row_indices <- slice_step2 0 grid win_h win_w ;;
  flat <- reshape_infer row_indices [1] [] ;;
  row_indices <- row0 flat ;;
  picked <- take_axis1 zero mat (data row_indices) ;;
  image <- reshape picked [batch_size; 4; channels; win_h * win_w] ;;
  image <- transpose zero image [0; 2; 1; 3] ;;
  n_h <- nat_floordiv h win_h ;;
  n_w <- nat_floordiv w win_w ;;
  image <- reshape image [batch_size; channels; n_h; n_w; win_h; win_w] ;;
  image <- transpose zero image [0; 1; 2; 4; 3; 5] ;;
  reshape image [batch_size; channels; h; w].

(** The accumulation the specification asks of [col2im] ("every source
    pixel of the reconstructed buffer equals the sum of the contributions
    of all windows covering it"), for comparison with the code: pixel
    (r, c) of channel [ch] of image [n] receives, from every window (i, j)
    that covers it under the strides (sr, sc), the entry of [mat] that
    [im2col] filled from it: row [i * ow + j], column
    [ch * win_h * win_w + (r - i * sr) * win_w + (c - j * sc)]. *)
Definition window_sum (add : T -> T -> T) (mat : ndarray T)
    (win_h win_w oh ow sr sc : nat) (n ch r c : nat) : T :=
  fold_left add
    (flat_map
       (fun i =>
          flat_map
            (fun j =>
               if (i * sr <=? r) && (r <? i * sr + win_h)
                  && (j * sc <=? c) && (c <? j * sc + win_w)
               then [nth (ravel (shape mat)
                            [n; i * ow + j;
                             ch * (win_h * win_w)
                             + ((r - i * sr) * win_w + (c - j * sc))])
                         (data mat) zero]
               else [])
            (seq 0 ow))
       (seq 0 oh))
    zero.

(** lines 477-479 *)
Definition flatten (img : ndarray T) : result (ndarray T) :=
  '(batch_size, channels, rows, cols) <- unpack4 img ;;
  reshape img [batch_size; channels * rows * cols].

End Image.

End Cell112.

End Im2col.

(** ** Floating point numbers

    The element type of the arrays and its arithmetic stay abstract. *)

Record float_ops (A : Type) : Type := mk_float_ops {
  f_zero : A;
  f_one : A;
  f_half : A;
  f_add : A -> A -> A;
  f_sub : A -> A -> A;
  f_mul : A -> A -> A;
  f_div : A -> A -> A;
  f_neg : A -> A;
  f_exp : A -> A;
  f_tanh : A -> A;
  f_sqrt : A -> A;
  f_pow : A -> Z -> A;
  f_gt : A -> A -> bool;
  f_max : A -> A -> A;
  f_of_nat : nat -> A
}.
Arguments f_zero {A} _.
Arguments f_one {A} _.
Arguments f_half {A} _.
Arguments f_add {A} _ _ _.
Arguments f_sub {A} _ _ _.
Arguments f_mul {A} _ _ _.
Arguments f_div {A} _ _ _.
Arguments f_neg {A} _ _.
Arguments f_exp {A} _ _.
Arguments f_tanh {A} _ _.
Arguments f_sqrt {A} _ _.
Arguments f_pow {A} _ _ _.
Arguments f_gt {A} _ _ _.
Arguments f_max {A} _ _ _.
Arguments f_of_nat {A} _ _.

(** An instance over the integers, to run the model on concrete inputs.
    It has no fractions: 0.5 is 0, [exp] and [tanh] are the identity, and
    division and square root are the integer ones. *)
Definition Z_ops : float_ops Z :=
  mk_float_ops Z 0%Z 1%Z 0%Z Z.add Z.sub Z.mul Z.div Z.opp
    (fun v => v) (fun v => v) Z.sqrt Z.pow Z.gtb Z.max Z.of_nat.

(** ** Helpers of [dnn/utils/nn_utils.py] *)

Module NnUtils.

(** A layer shape: an int ([AffineLayer(output_shape=10)]) or a tuple. *)
Inductive py_shape : Type :=
| ShapeInt (n : nat)
| ShapeTuple (dims : list nat).

(** What [np.prod] returns: an integer, or a float.  numpy reduces an
    empty sequence as float64, so that [np.prod(())] is the float 1.0; the
    product of an int or of a non-empty tuple of ints is an integer. *)
Inductive np_scalar : Type :=
| NpInt (n : nat)
| NpFloatOne.

(** [np.prod(shape)] *)
Definition np_prod (s : py_shape) : np_scalar :=
  match s with
  | ShapeInt n => NpInt n
  | ShapeTuple [] => NpFloatOne
  | ShapeTuple dims => NpInt (size dims)
  end.

(** The number a scalar stands for. *)
Definition as_nat (v : np_scalar) : nat :=
  match v with
  | NpInt n => n
  | NpFloatOne => 1
  end.

(** Modelled from the spec: [is_multi_channels_image] is imported from
    [utils] by both layers; its source file is absent.  The spec's image
    form is (batch, channels, rows, cols), so an image-shaped layer shape is
    a (channels, rows, cols) tuple. *)
Definition is_multi_channels_image (s : py_shape) : bool :=
  match s with
  | ShapeTuple [_; _; _] => true
  | _ => false
  end.

(** Modelled from the spec: [flatten(x, shape)] of [utils], absent from the
    sources at hand, turns the image form (batch, channels, rows, cols) into
    the flat form (batch, features); the one-argument [flatten] of
    [im2col.py] does the same. *)
Definition flatten {T} (m : ndarray T) (im_shape : py_shape)
  : result (ndarray T) :=
  batches <- shape0 m ;;
  match im_shape with
  | ShapeTuple [chs; rows; cols] => reshape m [batches; chs * rows * cols]
  | _ => raise (TypeError "cannot unpack image shape")
  end.

(** Modelled from the spec: [unflatten(x, shape)] of [utils], absent from
    the sources at hand, turns the flat form back into the image form. *)
Definition unflatten {T} (m : ndarray T) (im_shape : py_shape)
  : result (ndarray T) :=
  batches <- shape0 m ;;
  match im_shape with
  | ShapeTuple [chs; rows; cols] => reshape m [batches; chs; rows; cols]
  | _ => raise (TypeError "cannot unpack image shape")
  end.

(** The form in which a batch of [n] items enters or leaves a layer of
    shape [s]: the image form (n, channels, rows, cols) when [s] is an
    image shape, the flat form (n, prod(s)) otherwise. *)
Definition batch_shape (s : py_shape) (n : nat) : list nat :=
  match s with
  | ShapeTuple [chs; rows; cols] => [n; chs; rows; cols]
  | _ => [n; as_nat (np_prod s)]
  end.

(** Reading an attribute that was never assigned, or any attribute of
    [None]. *)
Definition attr {T} (name : string) (v : option T) : result T :=
  match v with
  | Some x => ok x
  | None => raise (AttributeError name)
  end.

End NnUtils.

(** ** [src/dnn/layers/activation.py] *)

Module Activation.

(** [Activation.Type = Enum('Type', 'sigmoid, relu, elu, srrelu, tanh, softmax')] *)
Inductive Type_ : Type := sigmoid | relu | elu | srrelu | tanh | softmax.

(** An instance of one of the activation classes, with the mask that
    [ReLU], [ELU] and [SRReLU] store in [activate]. *)
Inductive instance (A : Type) : Type :=
| Sigmoid
| ReLU (mask : option (ndarray A))
| ELU (mask : option (ndarray bool))
| SRReLU (mask : option (ndarray bool))
| Tanh
| Softmax.
Arguments Sigmoid {A}.
Arguments ReLU {A} mask.
Arguments ELU {A} mask.
Arguments SRReLU {A} mask.
Arguments Tanh {A}.
Arguments Softmax {A}.

Section Functions.

Context {A : Type} (F : float_ops A).

(** [bool] operands are promoted to 1.0 and 0.0. *)
Definition of_bool (b : bool) : A := if b then (f_one F) else (f_zero F).

Definition get_type (a : instance A) : string :=
  match a with
  | Sigmoid => "sigmoid"
  | ReLU _ => "relu"
  | ELU _ => "elu"
  | SRReLU _ => "selu"
  | Tanh => "tanh"
  | Softmax => "softmax"
  end.

(** [x.max()] *)
Definition amax (x : ndarray A) : result A :=
  match data x with
  | [] => raise (ValueError "zero-size array to reduction operation maximum")
  | v :: l => ok (fold_left (f_max F) l v)
  end.

(** [x.sum(axis=1)] *)
Definition sum_axis1 (x : ndarray A) : result (ndarray A) :=
  match shape x with
  | d0 :: d1 :: rest =>
      let s' := d0 :: rest in
      ok (mk_ndarray s'
            (tabulate (size s')
               (fun k =>
                  match unravel s' k with
                  | i :: idx =>
                      fold_left (f_add F)
                        (map (fun j => nth (ravel (shape x) (i :: j :: idx))
                                           (data x) (f_zero F))
                             (seq 0 d1))
                        (f_zero F)
                  | [] => (f_zero F)
                  end)))
  | _ => raise (ValueError "axis 1 is out of bounds")
  end.

(** The [activate] methods; the instance is returned with its new mask. *)
Definition activate (a : instance A) (x : ndarray A)
  : result (instance A * ndarray A) :=
  match a with
  | Sigmoid =>
      (* 1. / (1. + np.exp(-x)) *)
      ok (Sigmoid,
          amap (f_div F (f_one F)) (amap (f_add F (f_one F)) (amap (f_exp F) (amap (f_neg F) x))))
  | ReLU _ =>
      (* self.__mask = (x > 0.).astype(x.dtype); return x * self.__mask *)
      let mask := amap (fun v => of_bool (f_gt F v (f_zero F))) x in
      y <- map2 (f_zero F) (f_zero F) (f_mul F) x mask ;;
      ok (ReLU (Some mask), y)
  | ELU _ =>
      (* self.__mask = (x > 0.)
         return self.__mask * x + ~(self.__mask) * (np.exp(x) - 1) *)
      let mask := amap (fun v => f_gt F v (f_zero F)) x in
      t1 <- map2 false (f_zero F) (fun b v => f_mul F (of_bool b) v) mask x ;;
      t2 <- map2 false (f_zero F) (fun b v => f_mul F (of_bool b) v)
                 (amap negb mask)
                 (amap (fun v => f_sub F v (f_one F)) (amap (f_exp F) x)) ;;
      y <- map2 (f_zero F) (f_zero F) (f_add F) t1 t2 ;;
      ok (ELU (Some mask), y)
  | SRReLU _ =>
      (* self.__mask = (x > 0.); return (np.sqrt(self.__mask * x + 1) - 1) *)
      let mask := amap (fun v => f_gt F v (f_zero F)) x in
      t <- map2 false (f_zero F) (fun b v => f_mul F (of_bool b) v) mask x ;;
      ok (SRReLU (Some mask),
          amap (fun v => f_sub F v (f_one F))
               (amap (f_sqrt F) (amap (fun v => f_add F v (f_one F)) t)))
  | Tanh => ok (Tanh, amap (f_tanh F) x)
  | Softmax =>
      (* var = np.exp(x - x.max())
         return var / var.sum(axis=1).reshape(var.shape[0], 1) *)
      m <- amax x ;;
      let var := amap (f_exp F) (amap (fun v => f_sub F v m) x) in
      s <- sum_axis1 var ;;
      n <- shape0 var ;;
      s <- reshape s [n; 1] ;;
      y <- map2 (f_zero F) (f_zero F) (f_div F) var s ;;
      ok (Softmax, y)
  end.

(** The [grad] methods.  The argument is the forward output. *)
Definition grad (a : instance A) (x : ndarray A) : result (ndarray A) :=
  match a with
  | Sigmoid =>
      (* (1. - x) * x *)
      map2 (f_zero F) (f_zero F) (f_mul F) (amap (f_sub F (f_one F)) x) x
  | ReLU mask => NnUtils.attr "_ReLU__mask" mask
  | ELU mask =>
      (* self.__mask + ~(self.__mask) * (x + 1) *)
      mask <- NnUtils.attr "_ELU__mask" mask ;;
      t <- map2 false (f_zero F) (fun b v => f_mul F (of_bool b) v)
                (amap negb mask) (amap (fun v => f_add F v (f_one F)) x) ;;
      map2 false (f_zero F) (fun b v => f_add F (of_bool b) v) mask t
  | SRReLU mask =>
      (* self.__mask * 0.5 / (x + 1) *)
      mask <- NnUtils.attr "_SRReLU__mask" mask ;;
      map2 (f_zero F) (f_zero F) (f_div F)
           (amap (fun b => f_mul F (of_bool b) (f_half F)) mask)
           (amap (fun v => f_add F v (f_one F)) x)
  | Tanh =>
      (* 1. - np.power(x, 2, dtype=x.dtype) *)
      ok (amap (f_sub F (f_one F)) (amap (fun v => f_pow F v 2) x))
  | Softmax => ok (scalar (f_one F))
  end.

End Functions.

End Activation.

(** [ActivationFactory.get(activation)].  Python passes any object; the
    chain of [is] tests recognises the six members of [Activation.Type],
    and a function body that ends without [return] yields [None]. *)
Module ActivationFactory.

Inductive py_object : Type :=
| Member (t : Activation.Type_)
| Other (repr : string).

Definition get {A} (activation : py_object) : option (Activation.instance A) :=
  match activation with
  | Member Activation.sigmoid => Some Activation.Sigmoid
  | Member Activation.relu => Some (Activation.ReLU None)
  | Member Activation.elu => Some (Activation.ELU None)
  | Member Activation.srrelu => Some (Activation.SRReLU None)
  | Member Activation.tanh => Some Activation.Tanh
  | Member Activation.softmax => Some Activation.Softmax
  | Other _ => None
  end.

End ActivationFactory.

Module ActivationLayer.

Import NnUtils.

Record t (A : Type) : Type := mk {
  activation : option (Activation.instance A);
  input_shape : option py_shape;
  output_shape : option py_shape;
  fire : option (ndarray A);
  backfire : option (ndarray A)
}.
Arguments mk {A}.
Arguments activation {A} _.
Arguments input_shape {A} _.
Arguments output_shape {A} _.
Arguments fire {A} _.
Arguments backfire {A} _.

Section Methods.

Context {A : Type} (F : float_ops A).

(** [__init__] *)
Definition init (activation : ActivationFactory.py_object) : t A :=
  mk (ActivationFactory.get activation) None None None None.

Definition get_type (self : t A) : string := "activation".

(** Modelled from the spec: [Layer.set_parent] of [layer.py], absent from
    the sources at hand, "infers input_shape from parent's output_shape";
    [ActivationLayer.set_parent] then copies it to [output_shape]. *)
Definition set_parent (self : t A) (parent_output_shape : py_shape) : t A :=
  mk (activation self) (Some parent_output_shape) (Some parent_output_shape)
     (fire self) (backfire self).

(** lines 56-63 *)
Definition __forward (self : t A) (x : ndarray A) : result (t A) :=
  ishape <- attr "input_shape" (input_shape self) ;;
  x <- (if is_multi_channels_image ishape then flatten x ishape else ok x) ;;
  act <- attr "activate" (activation self) ;;
  '(act, y) <- Activation.activate F act x ;;
  oshape <- attr "output_shape" (output_shape self) ;;
  y <- (if is_multi_channels_image oshape then unflatten y ishape else ok y) ;;
  ok (mk (Some act) (input_shape self) (output_shape self) (Some y)
         (backfire self)).

(** lines 65-72 *)
Definition __backward (self : t A) (dy : ndarray A) : result (t A) :=
  oshape <- attr "output_shape" (output_shape self) ;;
  ishape <- attr "input_shape" (input_shape self) ;;
  dy <- (if is_multi_channels_image oshape then flatten dy ishape else ok dy) ;;
  act <- attr "grad" (activation self) ;;
  y <- attr "fire" (fire self) ;;
  g <- Activation.grad F act y ;;
  b <- map2 (f_zero F) (f_zero F) (f_mul F) dy g ;;
  b <- (if is_multi_channels_image ishape then unflatten b ishape else ok b) ;;
  ok (mk (activation self) (input_shape self) (output_shape self) (fire self)
         (Some b)).

End Methods.

End ActivationLayer.

(** ** [src/dnnet/layers/affine.py] *)

Module AffineLayer.

Import NnUtils.

(** [weight_initialization] stands for the [get(w_rows, w_cols, layer)]
    method of the initialization object (an external collaborator), which
    receives the two products as [np.prod] returns them, and
    [dtype] for the numpy scalar type passed to [set_dtype], used as a cast. *)
Record t (A : Type) : Type := mk {
  output_shape : py_shape;
  weight_initialization : np_scalar -> np_scalar -> result (ndarray A);
  x : option (ndarray A);
  multi_channels_image : bool;
  dtype : option (A -> A);
  input_shape : option py_shape;
  w : option (ndarray A);
  dw : option (ndarray A);
  fire : option (ndarray A);
  backfire : option (ndarray A)
}.
Arguments mk {A}.
Arguments output_shape {A} _.
Arguments weight_initialization {A} _.
Arguments x {A} _.
Arguments multi_channels_image {A} _.
Arguments dtype {A} _.
Arguments input_shape {A} _.
Arguments w {A} _.
Arguments dw {A} _.
Arguments fire {A} _.
Arguments backfire {A} _.

Section Methods.

Context {A : Type} (F : float_ops A).

(** lines 27-31 *)
Definition init (output_shape : py_shape)
    (weight_initialization : np_scalar -> np_scalar -> result (ndarray A))
  : t A :=
  mk output_shape weight_initialization None false None None None None None None.

(** lines 33-34 *)
Definition set_dtype (self : t A) (dtype : A -> A) : t A :=
  mk (output_shape self) (weight_initialization self) (x self)
     (multi_channels_image self) (Some dtype) (input_shape self)
     (w self) (dw self) (fire self) (backfire self).

Definition get_type (self : t A) : string := "affine".

Definition has_weight (self : t A) : bool := true.

(** [np.zeros((1, cols))]: numpy takes an integer for an extent and
    refuses a float. *)
Definition zeros_row (cols : np_scalar) : result (ndarray A) :=
  match cols with
  | NpInt m => ok (full [1; m] (f_zero F))
  | NpFloatOne =>
      raise (TypeError
               "'numpy.float64' object cannot be interpreted as an integer")
  end.

(** lines 39-48.  Modelled from the spec: [Layer.set_parent] of [layer.py],
    absent from the sources at hand, "infers input_shape from parent's
    output_shape". *)
Definition set_parent (self : t A) (parent_output_shape : py_shape)
  : result (t A) :=
  let w_rows := np_prod parent_output_shape in
  let w_cols := np_prod (output_shape self) in
  w0 <- weight_initialization self w_rows w_cols ;;
  z <- zeros_row w_cols ;;
  w1 <- r_ z w0 ;;
  cast <- attr "dtype" (dtype self) ;;
  let w2 := amap cast w1 in
  let dw := zeros_like (f_zero F) w2 in
  ok (mk (output_shape self) (weight_initialization self) (x self)
         (multi_channels_image self) (dtype self) (Some parent_output_shape)
         (Some w2) (Some dw) (fire self) (backfire self)).

(** lines 65-74 *)
Definition __forward (self : t A) (x : ndarray A) : result (t A) :=
  ishape <- attr "input_shape" (input_shape self) ;;
  x <- (if is_multi_channels_image ishape then flatten x ishape else ok x) ;;
  n <- shape0 x ;;
  cast <- attr "dtype" (dtype self) ;;
  x1 <- c_ (f_zero F) (full [n; 1] (cast (f_one F))) x ;;
  w <- attr "w" (w self) ;;
  y <- dot (f_zero F) (f_add F) (f_mul F) x1 w ;;
  y <- (if is_multi_channels_image (output_shape self)
        then unflatten y (output_shape self) else ok y) ;;
  ok (mk (output_shape self) (weight_initialization self) (Some x1)
         (multi_channels_image self) (dtype self) (input_shape self)
         (Some w) (dw self) (Some y) (backfire self)).

(** lines 76-85 *)
Definition __backward (self : t A) (dy : ndarray A) : result (t A) :=
  dy <- (if is_multi_channels_image (output_shape self)
         then flatten dy (output_shape self) else ok dy) ;;
  x1 <- attr "shape" (x self) ;;
  batch_size <- shape0 x1 ;;
  cast <- attr "dtype" (dtype self) ;;
  let scale := f_div F (cast (f_one F)) (f_of_nat F batch_size) in
  xt <- T_ (f_zero F) x1 ;;
  g <- dot (f_zero F) (f_add F) (f_mul F) xt dy ;;
  let dw := amap (f_mul F scale) g in
  w <- attr "w" (w self) ;;
  w1 <- drop_row0 w ;;
  wt <- T_ (f_zero F) w1 ;;
  b <- dot (f_zero F) (f_add F) (f_mul F) dy wt ;;
  ishape <- attr "input_shape" (input_shape self) ;;
  b <- (if is_multi_channels_image ishape then unflatten b ishape else ok b) ;;
  ok (mk (output_shape self) (weight_initialization self) (x self)
         (multi_channels_image self) (dtype self) (input_shape self)
         (Some w) (Some dw) (fire self) (Some b)).

End Methods.

(** An initializer to run the layer on concrete inputs: a (rows, cols)
    matrix of ones; like numpy's array constructors it refuses a float
    extent. *)
Definition ones_initializer (rows cols : np_scalar) : result (ndarray Z) :=
  match rows, cols with
  | NpInt r, NpInt c => ok (mk_ndarray [r; c] (repeat 1%Z (r * c)))
  | _, _ =>
      raise (TypeError
               "'numpy.float64' object cannot be interpreted as an integer")
  end.

End AffineLayer.

(** ** [src/dnn/training/back_propagation.py]

    The engine drives objects it does not define: the layers of the chain,
    the optimizer, the loss function, the learning curve and
    [shuffle_data].  They are parameters of the model.  The layer objects
    share state (the chain is linked, and [forward] on the first layer
    writes [fire] of every layer), so the whole chain is one value [net];
    layer [i] of the Python list is addressed by its position. *)

Module BackPropagation.

(** The collaborators: [layers[i].forward(x)], [.backward(dy)],
    [.predict(x)], [.finalize_training(x)], [.fire], [.has_weight()], [.w]
    and [.dw] of the layers; [optimizer.optimize(w, dw)], which updates the
    array [w] in place (it yields the new optimizer state and the new
    contents of [w], which [layer_set_w] stores back into the layer);
    [loss_function.get(y=.., t=..)] and
    [isinstance(loss_function, SquaredError)]; and [shuffle_data]. *)
Record collaborators (A net optimizer : Type) : Type := mk_collaborators {
  layer_forward : nat -> ndarray A -> net -> result net;
  layer_backward : nat -> ndarray A -> net -> result net;
  layer_predict : nat -> ndarray A -> net -> result (ndarray A * net);
  layer_finalize_training : nat -> ndarray A -> net -> result net;
  layer_fire : nat -> net -> result (ndarray A);
  layer_has_weight : nat -> bool;
  layer_w : nat -> net -> result (ndarray A);
  layer_dw : nat -> net -> result (ndarray A);
  optimize : optimizer -> ndarray A -> ndarray A
             -> result (optimizer * ndarray A);
  layer_set_w : nat -> ndarray A -> net -> net;
  loss_get : ndarray A -> ndarray A -> result A;
  is_squared_error : bool;
  shuffle_data : ndarray A -> ndarray A -> result (ndarray A * ndarray A)
}.
Arguments layer_forward {A net optimizer} _.
Arguments layer_backward {A net optimizer} _.
Arguments layer_predict {A net optimizer} _.
Arguments layer_finalize_training {A net optimizer} _.
Arguments layer_fire {A net optimizer} _.
Arguments layer_has_weight {A net optimizer} _.
Arguments layer_w {A net optimizer} _.
Arguments layer_dw {A net optimizer} _.
Arguments optimize {A net optimizer} _.
Arguments layer_set_w {A net optimizer} _.
Arguments loss_get {A net optimizer} _.
Arguments is_squared_error {A net optimizer} _.
Arguments shuffle_data {A net optimizer} _.

Section Engine.

Context {A : Type} (F : float_ops A) {net optimizer : Type}.
Context (E : collaborators A net optimizer).

(** One row of the learning curve: [lc.add(loss_train, loss_test,
    acc_train, acc_test)]; [None] is Python's [None]. *)
Record lc_entry : Type := mk_lc_entry {
  loss_train : A;
  loss_test : option A;
  acc_train : option A;
  acc_test : option A
}.

(** What the engine asks of its collaborators, in order. *)
Inductive event : Type :=
| EForward (i : nat) (x : ndarray A)
| EBackward (i : nat) (dy : ndarray A)
| EPredict (i : nat) (x : ndarray A)
| EOptimize (key : nat) (w dw : ndarray A)
| ELoss (y t : ndarray A)
| EFinalize (i : nat) (x : ndarray A)
| EProgress (i data_num : nat)
| EProgressDone
| ELcStdout (epoch : nat).

(** The engine object ([self]), the chain, and the log of calls. *)
Record state : Type := mk_state {
  epochs : Z;
  batch_size : Z;
  optimizer_template : optimizer;
  optimizers : list (nat * optimizer);
  lc : option (list lc_entry);
  dtype : A -> A;
  chain : net;
  log : list event
}.

Definition M (X : Type) : Type := state -> result (X * state).

Definition ret {X} (x : X) : M X := fun s => ok (x, s).

Definition mbind {X Y} (c : M X) (k : X -> M Y) : M Y :=
  fun s => match c s with
           | inl e => inl e
           | inr (x, s') => k x s'
           end.

Definition lift {X} (r : result X) : M X :=
  fun s => match r with
           | inl e => inl e
           | inr x => ok (x, s)
           end.

Definition emit (e : event) : M unit :=
  fun s => ok (tt, mk_state (epochs s) (batch_size s) (optimizer_template s)
                     (optimizers s) (lc s) (dtype s) (chain s) (log s ++ [e])).

Definition get_chain : M net := fun s => ok (chain s, s).

Definition put_chain (n : net) : M unit :=
  fun s => ok (tt, mk_state (epochs s) (batch_size s) (optimizer_template s)
                     (optimizers s) (lc s) (dtype s) n (log s)).

Definition put_optimizers (o : list (nat * optimizer)) : M unit :=
  fun s => ok (tt, mk_state (epochs s) (batch_size s) (optimizer_template s)
                     o (lc s) (dtype s) (chain s) (log s)).

Definition put_lc (l : option (list lc_entry)) : M unit :=
  fun s => ok (tt, mk_state (epochs s) (batch_size s) (optimizer_template s)
                     (optimizers s) l (dtype s) (chain s) (log s)).

Definition gets {X} (f : state -> X) : M X := fun s => ok (f s, s).

(** A call that mutates the chain. *)
Definition call (f : net -> result net) : M unit :=
  mbind get_chain (fun n => mbind (lift (f n)) put_chain).

Fixpoint for_each {X} (l : list X) (body : X -> M unit) : M unit :=
  match l with
  | [] => ret tt
  | x :: l' => mbind (body x) (fun _ => for_each l' body)
  end.

(** [layers[0]] and [layers[-1]] for a list of [n] layers. *)
Definition first_layer (n : nat) : result nat :=
  if n =? 0 then raise (IndexError "list index out of range") else ok 0.

Definition last_layer (n : nat) : result nat :=
  if n =? 0 then raise (IndexError "list index out of range") else ok (n - 1).

(** [range(0, stop, step)] *)
Definition py_range (stop : nat) (step : Z) : result (list nat) :=
  if (step =? 0)%Z then raise (ValueError "range() arg 3 must not be zero")
  else if (step <? 0)%Z then ok []
  else ok (map (fun k => k * Z.to_nat step)
               (seq 0 (step_count stop (Z.to_nat step)))).

(** The ordered dictionary [self.optimizers]. *)
Fixpoint dict_get (d : list (nat * optimizer)) (key : nat) : result optimizer :=
  match d with
  | [] => raise (KeyError key)
  | (k, v) :: d' => if k =? key then ok v else dict_get d' key
  end.

Fixpoint dict_set (d : list (nat * optimizer)) (key : nat) (v : optimizer)
  : list (nat * optimizer) :=
  match d with
  | [] => [(key, v)]
  | (k, v') :: d' => if k =? key then (k, v) :: d'
                     else (k, v') :: dict_set d' key v
  end.

(** lines 188-205 *)
Definition __initialize_optimizers (n : nat) : M unit :=
  mbind (put_optimizers [])
    (fun _ =>
       for_each (seq 0 n)
         (fun i =>
            if layer_has_weight E i then
              mbind (gets optimizer_template) (fun o =>
              mbind (gets optimizers) (fun d =>
              put_optimizers (dict_set d (i + 1) o)))
            else ret tt)).

(** lines 207-217 *)
Definition __optimize_network (n : nat) : M unit :=
  for_each (seq 0 n)
    (fun i =>
       if layer_has_weight E i then
         mbind (gets optimizers) (fun d =>
         mbind (lift (dict_get d (i + 1))) (fun o =>
         mbind get_chain (fun c =>
         mbind (lift (layer_w E i c)) (fun w =>
         mbind (lift (layer_dw E i c)) (fun dw =>
         mbind (emit (EOptimize (i + 1) w dw)) (fun _ =>
         mbind (lift (optimize E o w dw)) (fun ow =>
         mbind (put_chain (layer_set_w E i (snd ow) c)) (fun _ =>
         mbind (gets optimizers) (fun d =>
         put_optimizers (dict_set d (i + 1) (fst ow)))))))))))
       else ret tt).

(** lines 165-186 *)
Definition __train_one_batch (n : nat) (x_train y_train : ndarray A) : M unit :=
  mbind (lift (first_layer n)) (fun i0 =>
  mbind (emit (EForward i0 x_train)) (fun _ =>
  mbind (call (layer_forward E i0 x_train)) (fun _ =>
  mbind (lift (last_layer n)) (fun il =>
  mbind get_chain (fun c =>
  mbind (lift (layer_fire E il c)) (fun y =>
  mbind (lift (map2 (f_zero F) (f_zero F) (f_sub F) y y_train)) (fun dy =>
  mbind (emit (EBackward il dy)) (fun _ =>
  mbind (call (layer_backward E il dy)) (fun _ =>
  __optimize_network n))))))))).

(** lines 136-163 *)
Definition __train_one_epoch (n : nat) (x_train y_train : ndarray A) : M unit :=
  mbind (lift (shape0 x_train)) (fun data_num =>
  mbind (gets batch_size) (fun bs =>
  mbind (lift (py_range data_num bs)) (fun r =>
  mbind (for_each r
           (fun i =>
              let e := i + Z.to_nat bs in
              let e := if data_num <? e then data_num else e in
              mbind (lift (slice_rows x_train i e)) (fun xb =>
              mbind (lift (slice_rows y_train i e)) (fun yb =>
              mbind (__train_one_batch n xb yb) (fun _ =>
              emit (EProgress i data_num))))))
        (fun _ => emit EProgressDone)))).

(** [np.argmax(a, axis=1)] for a 2-d array: per row, the first position of
    the largest entry. *)
Definition argmax_row (row : list A) : nat :=
  match row with
  | [] => 0
  | v :: l =>
      fst (fold_left
             (fun acc jv =>
                let '(best, bv) := acc in
                if f_gt F (snd jv) bv then (fst jv, snd jv) else (best, bv))
             (combine (seq 1 (length l)) l)
             (0, v))
  end.

Definition argmax_axis1 (a : ndarray A) : result (ndarray nat) :=
  match shape a with
  | [n; m] =>
      if m =? 0
      then raise (ValueError "attempt to get argmax of an empty sequence")
      else ok (mk_ndarray [n]
                 (tabulate n (fun i => argmax_row (firstn m (skipn (i * m) (data a))))))
  | [] | [_] => raise (ValueError "axis 1 is out of bounds")
  | _ => raise (OutsideModel "np.argmax(axis=1) of an array that is not 2-d")
  end.

(** lines 267-289 *)
Definition __get_accuracy (cast : A -> A) (y y_pred : ndarray A) : result A :=
  a <- argmax_axis1 y ;;
  b <- argmax_axis1 y_pred ;;
  consistency <- map2 0 0 Nat.eqb a b ;;
  let hits := length (filter (fun c => c) (data consistency)) in
  n <- shape0 consistency ;;
  ok (f_div F (cast (f_of_nat F hits)) (f_of_nat F n)).

(** lines 219-265 *)
Definition __evaluate (n : nat) (x_train y_train x_test y_test : ndarray A)
    (epoch : nat) : M unit :=
  mbind (lift (first_layer n)) (fun i0 =>
  mbind (emit (EPredict i0 x_train)) (fun _ =>
  mbind get_chain (fun c =>
  mbind (lift (layer_predict E i0 x_train c)) (fun pc =>
  let y_train_pred := fst pc in
  mbind (put_chain (snd pc)) (fun _ =>
  mbind (emit (ELoss y_train_pred y_train)) (fun _ =>
  mbind (lift (loss_get E y_train_pred y_train)) (fun loss_train =>
  mbind (if negb (size (shape x_test) =? 0) then
           mbind (lift (first_layer n)) (fun i0 =>
           mbind (emit (EPredict i0 x_test)) (fun _ =>
           mbind get_chain (fun c =>
           mbind (lift (layer_predict E i0 x_test c)) (fun pc =>
           mbind (put_chain (snd pc)) (fun _ =>
           mbind (emit (ELoss (fst pc) y_test)) (fun _ =>
           mbind (lift (loss_get E (fst pc) y_test)) (fun l =>
           ret (Some (fst pc), Some l))))))))
         else ret (None, None)) (fun test =>
  let y_test_pred := fst test in
  let loss_test := snd test in
  mbind (if negb (is_squared_error E) then
           mbind (gets dtype) (fun cast =>
           mbind (lift (__get_accuracy cast y_train y_train_pred)) (fun acc_train =>
           mbind (lift (NnUtils.attr "size" y_test_pred)) (fun ytp =>
           if negb (size (shape ytp) =? 0) then
             mbind (lift (__get_accuracy cast y_test ytp)) (fun acc_test =>
             ret (Some acc_train, Some acc_test))
           else ret (Some acc_train, None))))
         else ret (None, None)) (fun acc =>
  mbind (gets lc) (fun l =>
  match l with
  | Some rows =>
      mbind (put_lc (Some (rows ++ [mk_lc_entry loss_train loss_test
                                      (fst acc) (snd acc)])))
            (fun _ => emit (ELcStdout epoch))
  | None => ret tt
  end)))))))))).

(** lines 121-134 *)
Definition __finalize_training (n : nat) (x : ndarray A) : M unit :=
  mbind (lift (first_layer n)) (fun i0 =>
  mbind (emit (EFinalize i0 x)) (fun _ =>
  call (layer_finalize_training E i0 x))).

(** The epoch loop of [fit]; [shuffle_data] rebinds the training data. *)
Fixpoint epoch_loop (n : nat) (es : list nat)
    (x_train y_train x_test y_test : ndarray A) (shuffle_per_epoch : bool)
  : M (ndarray A * ndarray A) :=
  match es with
  | [] => ret (x_train, y_train)
  | epoch :: es' =>
      mbind (if shuffle_per_epoch then lift (shuffle_data E x_train y_train)
             else ret (x_train, y_train)) (fun xy =>
      mbind (__train_one_epoch n (fst xy) (snd xy)) (fun _ =>
      mbind (__evaluate n (fst xy) (snd xy) x_test y_test epoch) (fun _ =>
      epoch_loop n es' (fst xy) (snd xy) x_test y_test shuffle_per_epoch)))
  end.

(** lines 86-119 *)
Definition fit (n : nat) (x_train y_train x_test y_test : ndarray A)
    (shuffle_per_epoch : bool) : M (option (list lc_entry)) :=
  mbind (__initialize_optimizers n) (fun _ =>
  mbind (gets epochs) (fun e =>
  mbind (epoch_loop n (seq 0 (Z.to_nat e)) x_train y_train x_test y_test
           shuffle_per_epoch) (fun xy =>
  mbind (__finalize_training n (fst xy)) (fun _ =>
  gets lc)))).

(** *** Reading the log *)

(** The inputs of the [forward] calls, in order. *)
Fixpoint forward_inputs (l : list event) : list (ndarray A) :=
  match l with
  | [] => []
  | EForward _ x :: l' => x :: forward_inputs l'
  | _ :: l' => forward_inputs l'
  end.

(** How often the optimizer stored under [key] was asked to update. *)
Fixpoint count_optimize (key : nat) (l : list event) : nat :=
  match l with
  | [] => 0
  | EOptimize k _ _ :: l' =>
      (if k =? key then 1 else 0) + count_optimize key l'
  | _ :: l' => count_optimize key l'
  end.

Definition is_optimize (e : event) : bool :=
  match e with
  | EOptimize _ _ _ => true
  | _ => false
  end.

(** The keys of [self.optimizers] whose optimizer was asked, in order. *)
Fixpoint optimize_keys (l : list event) : list nat :=
  match l with
  | [] => []
  | EOptimize k _ _ :: l' => k :: optimize_keys l'
  | _ :: l' => optimize_keys l'
  end.

(** The keys [__optimize_network] visits: [enumerate(layers, 1)] numbers the
    layers from 1, and only layers with a weight have an optimizer. *)
Definition weight_keys (n : nat) : list nat :=
  map (fun i => i + 1) (filter (layer_has_weight E) (seq 0 n)).

(** *** The training step, as the specification words it

    The chain, the optimizers and the calls made, as one step of training
    leaves them. *)
Definition training : Type :=
  (net * list (nat * optimizer) * list event)%type.

(** "For every weight-bearing layer invoke its optimizer's update using
    that layer's current weight and freshly computed gradient": for each
    layer of [ls], in order, the optimizer stored under the layer's key is
    given the layer's [w] and [dw] as the chain holds them at that moment;
    the new weight goes into the layer and the new optimizer state into
    the dictionary. *)
Fixpoint optimizer_updates (ls : list nat) (c : net)
    (d : list (nat * optimizer)) : result training :=
  match ls with
  | [] => ok (c, d, [])
  | i :: ls' =>
      o <- dict_get d (i + 1) ;;
      w <- layer_w E i c ;;
      dw <- layer_dw E i c ;;
      ow <- optimize E o w dw ;;
      r <- optimizer_updates ls' (layer_set_w E i (snd ow) c)
             (dict_set d (i + 1) (fst ow)) ;;
      ok (fst (fst r), snd (fst r), EOptimize (i + 1) w dw :: snd r)
  end.

(** The layers that have a weight, in layer order. *)
Definition weight_layers (n : nat) : list nat :=
  filter (layer_has_weight E) (seq 0 n).

(** "Forward pass from the root layer, then backward pass seeded with
    (prediction - target) as the initial gradient", then the optimizer
    updates: one weight update on the batch [(xb, yb)]. *)
Definition batch_update (n : nat) (xb yb : ndarray A) (c : net)
    (d : list (nat * optimizer)) : result training :=
  root <- first_layer n ;;
  c1 <- layer_forward E root xb c ;;
  terminal <- last_layer n ;;
  prediction <- layer_fire E terminal c1 ;;
  gradient <- map2 (f_zero F) (f_zero F) (f_sub F) prediction yb ;;
  c2 <- layer_backward E terminal gradient c1 ;;
  r <- optimizer_updates (weight_layers n) c2 d ;;
  ok (fst (fst r), snd (fst r),
      EForward root xb :: EBackward terminal gradient :: snd r).

(** "Slices training data into contiguous chunks of batch_size (last chunk
    may be shorter)" and updates the weights on each: the chunks of [sizes]
    rows are cut from [x] and [y] one after the other, from row [start]
    on, and go through [batch_update] in that order.  The progress line
    after each chunk prints the row the chunk starts at. *)
Fixpoint epoch_updates (n data_num start : nat) (sizes : list nat)
    (x y : ndarray A) (c : net) (d : list (nat * optimizer))
  : result training :=
  match sizes with
  | [] => ok (c, d, [EProgressDone])
  | k :: sizes' =>
      xb <- slice_rows x start (start + k) ;;
      yb <- slice_rows y start (start + k) ;;
      r <- batch_update n xb yb c d ;;
      r' <- epoch_updates n data_num (start + k) sizes' x y
              (fst (fst r)) (snd (fst r)) ;;
      ok (fst (fst r'), snd (fst r'),
          snd r ++ EProgress start data_num :: snd r')
  end.

(** The engine after a step of training: the chain and the optimizers are
    replaced, the calls are added to the log, the rest is kept. *)
Definition trained (s : state) (c : net) (d : list (nat * optimizer))
    (evs : list event) : state :=
  mk_state (epochs s) (batch_size s) (optimizer_template s) d (lc s)
           (dtype s) c (log s ++ evs).

Definition settle (s : state) (r : result training) : result (unit * state) :=
  match r with
  | inl e => inl e
  | inr (c, d, evs) => ok (tt, trained s c d evs)
  end.

(** How often [finalize_training] was called. *)
Fixpoint count_finalize (l : list event) : nat :=
  match l with
  | [] => 0
  | EFinalize _ _ :: l' => S (count_finalize l')
  | _ :: l' => count_finalize l'
  end.

(** The state a computation leaves behind (the initial one if it raises). *)
Definition exec {X} (c : M X) (s : state) : state :=
  match c s with
  | inr (_, s') => s'
  | inl _ => s
  end.

(** *** Batch slicing, as the specification words it

    "Contiguous chunks of batch_size (last chunk may be shorter)": the
    sizes of the chunks of [d] rows, and the chunks themselves, cut one
    after the other.  [fuel] bounds the number of chunks. *)
Fixpoint batch_sizes (fuel d bs : nat) : list nat :=
  match fuel with
  | 0 => []
  | S fuel' =>
      if d =? 0 then []
      else Nat.min bs d :: batch_sizes fuel' (d - Nat.min bs d) bs
  end.

Fixpoint consecutive_batches (x : ndarray A) (start : nat) (sizes : list nat)
  : list (ndarray A) :=
  match sizes with
  | [] => []
  | k :: sizes' =>
      match slice_rows x start (start + k) with
      | inr b => b :: consecutive_batches x (start + k) sizes'
      | inl _ => []
      end
  end.

(** The epochs of [fit] without shuffling: each epoch of [es] trains on the
    chunks of the same data and is then evaluated under its number; [t] is
    the engine before and [t'] the engine after. *)
Fixpoint epochs_trained (n data_num : nat) (es : list nat)
    (x y x_test y_test : ndarray A) (t t' : state) : Prop :=
  match es with
  | [] => t' = t
  | epoch :: es' =>
      exists u v,
        settle t (epoch_updates n data_num 0
                    (batch_sizes data_num data_num (Z.to_nat (batch_size t)))
                    x y (chain t) (optimizers t)) = ok (tt, u)
        /\ __evaluate n x y x_test y_test epoch u = ok (tt, v)
        /\ epochs_trained n data_num es' x y x_test y_test v t'
  end.

(** A computation is quiet when it runs no forward pass, asks no optimizer
    and finalizes nothing, and leaves [epochs], [batch_size] and the
    optimizers of the engine alone. *)
Definition quiet {X} (c : M X) : Prop :=
  forall s s' x, c s = ok (x, s') ->
    exists evs,
      log s' = log s ++ evs /\ forward_inputs evs = [] /\
      optimize_keys evs = [] /\ count_finalize evs = 0 /\
      batch_size s' = batch_size s /\
      epochs s' = epochs s /\ optimizers s' = optimizers s.

End Engine.

(** A chain of one layer over the integers, to run the engine on concrete
    inputs: the layer's output is its input, it has a weight, and the
    optimizer leaves the weight as it is.  The chain's state is the [fire]
    of the layer. *)
Definition toy_chain (squared_error : bool)
  : collaborators Z (option (ndarray Z)) unit :=
  mk_collaborators Z (option (ndarray Z)) unit
    (fun _ x _ => ok (Some x))
    (fun _ _ c => ok c)
    (fun _ x c => ok (x, c))
    (fun _ _ c => ok c)
    (fun _ c => NnUtils.attr "fire" c)
    (fun _ => true)
    (fun _ _ => ok (scalar 0%Z))
    (fun _ _ => ok (scalar 0%Z))
    (fun o w _ => ok (o, w))
    (fun _ _ c => c)
    (fun _ _ => ok 0%Z)
    squared_error
    (fun x y => ok (x, y)).

(** A chain of one layer with one weight, over the integers, that training
    really changes: the layer's output is its input times the weight,
    [backward] stores the sum of the gradient as [dw], and the optimizer,
    which counts its calls, takes [dw] off the weight. *)
Record scale_net : Type := mk_scale_net {
  sn_fire : option (ndarray Z);
  sn_w : Z;
  sn_dw : Z
}.

Definition scale_chain : collaborators Z scale_net nat :=
  mk_collaborators Z scale_net nat
    (fun _ x c =>
       ok (mk_scale_net (Some (amap (Z.mul (sn_w c)) x)) (sn_w c) (sn_dw c)))
    (fun _ dy c =>
       ok (mk_scale_net (sn_fire c) (sn_w c) (fold_left Z.add (data dy) 0%Z)))
    (fun _ x c => ok (amap (Z.mul (sn_w c)) x, c))
    (fun _ _ c => ok c)
    (fun _ c => NnUtils.attr "fire" (sn_fire c))
    (fun _ => true)
    (fun _ c => ok (scalar (sn_w c)))
    (fun _ c => ok (scalar (sn_dw c)))
    (fun o w dw => w' <- map2 0%Z 0%Z Z.sub w dw ;; ok (S o, w'))
    (fun _ w c => mk_scale_net (sn_fire c) (nth 0 (data w) 0%Z) (sn_dw c))
    (fun _ _ => ok 0%Z)
    true
    (fun x y => ok (x, y)).

Definition scale_state (epochs batch_size : Z) (w : Z)
  : @state Z scale_net nat :=
  mk_state epochs batch_size 0 [(1, 0)] None (fun v => v)
           (mk_scale_net None w 0%Z) [].

Definition toy_state (epochs batch_size : Z) (lc : bool)
  : @state Z (option (ndarray Z)) unit :=
  mk_state epochs batch_size tt [] (if lc then Some [] else None)
           (fun v => v) None [].

End BackPropagation.

(** * Properties *)

(** ** Facts about [tabulate], [ravel] and [unravel] *)

Module NpFacts.

Lemma tabulate_length {T} n (f : nat -> T) : length (tabulate n f) = n.
Proof. unfold tabulate. now rewrite length_map, length_seq. Qed.

Lemma nth_tabulate {T} n (f : nat -> T) k d :
  k < n -> nth k (tabulate n f) d = f k.
Proof.
  intros Hk. unfold tabulate.
  rewrite (nth_indep _ d (f 0)) by now rewrite length_map, length_seq.
  rewrite map_nth, seq_nth; auto.
Qed.

Lemma tabulate_ext {T} n (f g : nat -> T) :
  (forall k, k < n -> f k = g k) -> tabulate n f = tabulate n g.
Proof.
  intros H. unfold tabulate. apply map_ext_in.
  intros k Hk. apply in_seq in Hk. apply H. lia.
Qed.

Lemma tabulate_nth {T} (l : list T) d :
  tabulate (length l) (fun k => nth k l d) = l.
Proof.
  apply nth_ext with (d := d) (d' := d).
  - apply tabulate_length.
  - intros k Hk. rewrite tabulate_length in Hk.
    now rewrite nth_tabulate.
Qed.

Lemma size_cons d s : size (d :: s) = d * size s.
Proof. reflexivity. Qed.

Lemma size_app s t : size (s ++ t) = size s * size t.
Proof.
  induction s as [|d s IH]; simpl.
  - lia.
  - rewrite IH. lia.
Qed.

Lemma in_shape_length s idx : in_shape s idx -> length idx = length s.
Proof.
  revert idx. induction s as [|d s IH]; intros [|i idx]; simpl; try tauto.
  intros [_ H]. f_equal. now apply IH.
Qed.

Lemma in_shape_size_pos s idx : in_shape s idx -> 0 < size s.
Proof.
  revert idx. induction s as [|d s IH]; intros [|i idx]; simpl; try tauto.
  - lia.
  - intros [Hi H]. specialize (IH _ H). nia.
Qed.

Lemma ravel_lt s idx : in_shape s idx -> ravel s idx < size s.
Proof.
  revert idx. induction s as [|d s IH]; intros [|i idx]; simpl; try tauto.
  - lia.
  - intros [Hi H]. specialize (IH _ H). nia.
Qed.

Lemma unravel_in_shape s k : k < size s -> in_shape s (unravel s k).
Proof.
  revert k. induction s as [|d s IH]; intros k Hk; simpl in *.
  - exact I.
  - assert (Hs : size s <> 0) by (intro E; rewrite E in Hk; lia).
    split.
    + apply Nat.Div0.div_lt_upper_bound. lia.
    + apply IH. now apply Nat.mod_upper_bound.
Qed.

Lemma ravel_unravel s k : k < size s -> ravel s (unravel s k) = k.
Proof.
  revert k. induction s as [|d s IH]; intros k Hk; simpl in *.
  - lia.
  - assert (Hs : size s <> 0) by (intro E; rewrite E in Hk; lia).
    rewrite IH by now apply Nat.mod_upper_bound.
    rewrite (Nat.div_mod_eq k (size s)) at 3. lia.
Qed.

Lemma unravel_ravel s idx : in_shape s idx -> unravel s (ravel s idx) = idx.
Proof.
  revert idx. induction s as [|d s IH]; intros [|i idx]; simpl; try tauto.
  intros [Hi H].
  pose proof (ravel_lt _ _ H) as Hlt.
  f_equal.
  - rewrite Nat.div_add_l by lia. rewrite (Nat.div_small _ _ Hlt). lia.
  - rewrite Nat.add_comm, Nat.Div0.mod_add, (Nat.mod_small _ _ Hlt).
    now apply IH.
Qed.

(** Two tabulated lists agree as soon as they agree at the offset of every
    multi-index of a shape of the right size. *)
Lemma tabulate_ext_shape {T} s (f g : nat -> T) :
  (forall idx, in_shape s idx -> f (ravel s idx) = g (ravel s idx)) ->
  tabulate (size s) f = tabulate (size s) g.
Proof.
  intros H. apply tabulate_ext. intros k Hk.
  rewrite <- (ravel_unravel s k Hk). apply H. now apply unravel_in_shape.
Qed.

Lemma forallb_seq_shape s (p : nat -> bool) :
  (forall idx, in_shape s idx -> p (ravel s idx) = true) ->
  forallb p (seq 0 (size s)) = true.
Proof.
  intros H. apply forallb_forall. intros k Hk. apply in_seq in Hk.
  rewrite <- (ravel_unravel s k) by lia. apply H. apply unravel_in_shape. lia.
Qed.

End NpFacts.

Import NpFacts.

Module Im2colFacts.

Import Im2col.

(** Name the six components of a multi-index lying in a rank-6 shape. *)
Ltac split_index6 idx H ib ic i j p q :=
  destruct idx as [|ib [|ic [|i [|j [|p [|q [|? ?]]]]]]]; simpl in H; try tauto;
  destruct H as (? & ? & ? & ? & ? & ? & _).

Ltac split_index4 idx H ib ic r s :=
  destruct idx as [|ib [|ic [|r [|s [|? ?]]]]]; simpl in H; try tauto;
  destruct H as (? & ? & ? & ? & _).

Section Facts.

Context {T : Type} (zero : T).

Lemma reshape_ok (a : ndarray T) s :
  size s = length (data a) -> reshape a s = ok (mk_ndarray s (data a)).
Proof. intros H. unfold reshape. now rewrite H, Nat.eqb_refl. Qed.

(** The strided window view of a contiguous 4-d image stays inside the
    buffer as soon as the last window fits. *)
Lemma window_view_in_bounds (pimg : ndarray T) b c rows cols nr nc nfr nfc sr sc :
  wf pimg -> shape pimg = [b; c; rows; cols] ->
  (nr = 0 \/ (nr - 1) * sr + nfr <= rows) ->
  (nc = 0 \/ (nc - 1) * sc + nfc <= cols) ->
  forall idx, in_shape [b; c; nr; nc; nfr; nfc] idx ->
    exists r s, r < rows /\ s < cols /\
      offset idx [Z.of_nat (size [c; rows; cols]); Z.of_nat (size [rows; cols]);
                  (Z.of_nat (size [cols]) * Z.of_nat sr)%Z;
                  (Z.of_nat (size []) * Z.of_nat sc)%Z;
                  Z.of_nat (size [cols]); Z.of_nat (size [])]
      = Z.of_nat (ravel [b; c; rows; cols] [nth 0 idx 0; nth 1 idx 0; r; s])
      /\ r = nth 2 idx 0 * sr + nth 4 idx 0
      /\ s = nth 3 idx 0 * sc + nth 5 idx 0
      /\ nth 0 idx 0 < b /\ nth 1 idx 0 < c.
Proof.
  intros Hwf Hs Hr Hc idx Hidx.
  split_index6 idx Hidx ib ic i j p q.
  exists (i * sr + p), (j * sc + q).
  cbn [offset ravel nth]. unfold size. cbn [fold_right].
  repeat split; try lia; try nia.
Qed.

Lemma as_strided_ok (a : ndarray T) s st :
  length s = length st ->
  (forall idx, in_shape s idx ->
     (0 <= offset idx st < Z.of_nat (length (data a)))%Z) ->
  as_strided zero a s st
  = ok (mk_ndarray s
          (tabulate (size s)
             (fun k => nth (Z.to_nat (offset (unravel s k) st)) (data a) zero))).
Proof.
  intros Hlen Hb. unfold as_strided.
  rewrite Hlen, Nat.eqb_refl. cbn [negb].
  rewrite forallb_seq_shape; [reflexivity|].
  intros idx Hidx. rewrite unravel_ravel by assumption.
  specialize (Hb idx Hidx). lia.
Qed.

Lemma dim_of_Z_ok z : (0 <= z)%Z -> dim_of_Z z = ok (Z.to_nat z).
Proof.
  intros H. unfold dim_of_Z.
  destruct (z <? 0)%Z eqn:E; [lia|reflexivity].
Qed.

Lemma py_mod_ok a b : b <> 0%Z -> py_mod a b = ok (a mod b)%Z.
Proof.
  intros H. unfold py_mod. destruct (b =? 0)%Z eqn:E; [lia|reflexivity].
Qed.

Lemma py_floordiv_ok a b : b <> 0%Z -> py_floordiv a b = ok (a / b)%Z.
Proof.
  intros H. unfold py_floordiv. destruct (b =? 0)%Z eqn:E; [lia|reflexivity].
Qed.

(** With a module-level [pad] whose product is zero, [pad_img] hands the
    image back untouched, whatever amounts it was asked to pad by. *)
Lemma pad_img_noop G (img : ndarray T) gp pr pc :
  2 <= ndim img -> g_pad G = Some gp -> np_prod_pad gp = ok 0%Z ->
  pad_img zero G img pr pc = ok img.
Proof.
  intros Hn Hg Hp. unfold pad_img.
  destruct (ndim img <? 2) eqn:E; [apply Nat.ltb_lt in E; lia|].
  rewrite Hg. cbn [lookup bind ok]. rewrite Hp. reflexivity.
Qed.

Lemma transpose_ok (a : ndarray T) perm :
  is_perm (ndim a) perm = true ->
  transpose zero a perm
  = ok (mk_ndarray (map (fun p => nth p (shape a) 0) perm)
          (tabulate (size (map (fun p => nth p (shape a) 0) perm))
             (fun k =>
                nth (ravel (shape a)
                       (map (fun ax =>
                               nth (index_of ax perm)
                                   (unravel (map (fun p => nth p (shape a) 0) perm) k)
                                   0)
                            (seq 0 (ndim a))))
                    (data a) zero))).
Proof. intros H. unfold transpose. now rewrite H. Qed.

Lemma window_count_fit n f s :
  (1 <= s)%Z -> (0 <= f <= Z.of_nat n)%Z ->
  (window_count n f s - 1) * Z.to_nat s + Z.to_nat f <= n.
Proof.
  intros Hs Hf. unfold window_count.
  assert (H0 : (0 <= (Z.of_nat n - f) / s)%Z) by (apply Z.div_pos; lia).
  assert (H1 : (s * ((Z.of_nat n - f) / s) <= Z.of_nat n - f)%Z)
    by (apply Z.mul_div_le; lia).
  nia.
Qed.

(** Lines 212-217 of [im2col]: the strided view, the transposition and the
    final reshape succeed on a contiguous image in which the last window
    fits, and give a matrix with one row per window. *)
Lemma window_pipeline_ok (pimg : ndarray T) b c rows cols nr nc nfr nfc nsr nsc :
  wf pimg -> shape pimg = [b; c; rows; cols] ->
  (nr - 1) * nsr + nfr <= rows ->
  (nc - 1) * nsc + nfc <= cols ->
  exists m,
    (dst_img <- as_strided zero pimg [b; c; nr; nc; nfr; nfc]
                  [Z.of_nat (size [c; rows; cols]); Z.of_nat (size [rows; cols]);
                   (Z.of_nat (size [cols]) * Z.of_nat nsr)%Z;
                   (Z.of_nat (size []) * Z.of_nat nsc)%Z;
                   Z.of_nat (size [cols]); Z.of_nat (size [])] ;;
     t <- transpose zero dst_img [0; 2; 3; 1; 4; 5] ;;
     reshape t [b * nr * nc; c * nfr * nfc]) = ok m /\
    shape m = [b * nr * nc; c * nfr * nfc] /\ wf m.
Proof.
  intros Hwf Hs Hwr Hwc.
  rewrite as_strided_ok.
  2: reflexivity.
  2: { intros idx Hidx.
       destruct (window_view_in_bounds pimg b c rows cols nr nc nfr nfc nsr nsc
                   Hwf Hs (or_intror Hwr) (or_intror Hwc) idx Hidx)
         as (r & s & Hr & Hs' & Hoff & Hre1 & Hre2 & Hib & Hic).
       rewrite Hoff. split; [lia|].
       apply Nat2Z.inj_lt. rewrite Hwf, Hs.
       apply ravel_lt. simpl. tauto. }
  cbn [bind ok].
  rewrite transpose_ok by reflexivity.
  cbn [bind ok shape map nth].
  rewrite reshape_ok.
  2: { cbn [data]. rewrite tabulate_length. unfold size. cbn [fold_right]. lia. }
  eexists. split; [reflexivity|]. cbn [shape data]. split; [reflexivity|].
  unfold wf. cbn [shape data]. rewrite tabulate_length.
  unfold size. cbn [fold_right]. lia.
Qed.

(** The tail of [im2col] (lines 203-217) on an image of known shape. *)
Lemma im2col_tail_ok (pimg : ndarray T) b c rows cols fr fc sr sc :
  wf pimg -> shape pimg = [b; c; rows; cols] ->
  (1 <= sr)%Z -> (1 <= sc)%Z ->
  (0 <= fr <= Z.of_nat rows)%Z -> (0 <= fc <= Z.of_nat cols)%Z ->
  exists m,
    match Np.strides pimg with
    | [st_batch; st_ch; st_r; st_c] =>
        let f_st_r := (st_r * fst (sr, sc))%Z in
        let f_st_c := (st_c * snd (sr, sc))%Z in
        let dst_strides := [st_batch; st_ch; f_st_r; f_st_c; st_r; st_c] in
        q_r <- py_floordiv (Z.of_nat rows - fr) (fst (sr, sc)) ;;
        let dst_rows := (q_r + 1)%Z in
        q_c <- py_floordiv (Z.of_nat cols - fc) (snd (sr, sc)) ;;
        let dst_cols := (q_c + 1)%Z in
        n_rows <- dim_of_Z dst_rows ;;
        n_cols <- dim_of_Z dst_cols ;;
        n_frows <- dim_of_Z fr ;;
        n_fcols <- dim_of_Z fc ;;
        let dst_shape := [b; c; n_rows; n_cols; n_frows; n_fcols] in
        dst_img <- as_strided zero pimg dst_shape dst_strides ;;
        let dst_rows := (Z.of_nat b * dst_rows * dst_cols)%Z in
        let dst_cols := (Z.of_nat c * fr * fc)%Z in
        t <- transpose zero dst_img [0; 2; 3; 1; 4; 5] ;;
        out_rows <- dim_of_Z dst_rows ;;
        out_cols <- dim_of_Z dst_cols ;;
        reshape t [out_rows; out_cols]
    | _ => raise (ValueError "not enough values to unpack")
    end = ok m /\
    shape m = [b * window_count rows fr sr * window_count cols fc sc;
               c * Z.to_nat fr * Z.to_nat fc] /\
    wf m.
Proof.
  intros Hwf Hs Hsr Hsc Hfr Hfc.
  pose proof (window_count_fit rows fr sr Hsr Hfr) as Hwr.
  pose proof (window_count_fit cols fc sc Hsc Hfc) as Hwc.
  destruct (window_pipeline_ok pimg b c rows cols
              (window_count rows fr sr) (window_count cols fc sc)
              (Z.to_nat fr) (Z.to_nat fc) (Z.to_nat sr) (Z.to_nat sc)
              Hwf Hs Hwr Hwc) as (m & Hm & Hshape & Hwfm).
  exists m. split; [|split; assumption].
  unfold Np.strides. rewrite Hs. cbn [c_strides fst snd].
  rewrite !py_floordiv_ok by lia. cbn [bind ok].
  assert (Hqr : (0 <= (Z.of_nat rows - fr) / sr)%Z) by (apply Z.div_pos; lia).
  assert (Hqc : (0 <= (Z.of_nat cols - fc) / sc)%Z) by (apply Z.div_pos; lia).
  rewrite !dim_of_Z_ok by lia. cbn [bind ok].
  fold (window_count rows fr sr). fold (window_count cols fc sc).
  rewrite !Z2Nat.id in Hm by lia.
  assert (E1 : Z.to_nat (Z.of_nat b * ((Z.of_nat rows - fr) / sr + 1)
                         * ((Z.of_nat cols - fc) / sc + 1))
               = b * window_count rows fr sr * window_count cols fc sc).
  { unfold window_count. rewrite !Z2Nat.inj_mul, Nat2Z.id by lia. reflexivity. }
  assert (E2 : Z.to_nat (Z.of_nat c * fr * fc) = c * Z.to_nat fr * Z.to_nat fc).
  { rewrite !Z2Nat.inj_mul, Nat2Z.id by lia. reflexivity. }
  rewrite E1, E2. exact Hm.
Qed.

Lemma reshape_img_4d (img : ndarray T) b c h w :
  shape img = [b; c; h; w] -> reshape_img img = ok img.
Proof. intros Hs. unfold reshape_img. now rewrite Hs. Qed.

(** Without a remainder, [im2col] returns one row per window whatever
    [force] is; the module-level [pad] has a zero entry here, so that
    [pad_img] leaves the image alone. *)
Lemma im2col_divisible G (img : ndarray T) b c h w fr fc sr sc gp pad force :
  wf img -> shape img = [b; c; h; w] ->
  g_pad G = Some gp -> np_prod_pad gp = ok 0%Z ->
  (1 <= sr)%Z -> (1 <= sc)%Z ->
  (0 <= fr <= Z.of_nat h)%Z -> (0 <= fc <= Z.of_nat w)%Z ->
  ((Z.of_nat h - fr) mod sr = 0)%Z -> ((Z.of_nat w - fc) mod sc = 0)%Z ->
  exists m,
    im2col zero G img (fr, fc) pad (sr, sc) force = ok m /\
    shape m = [b * window_count h fr sr * window_count w fc sc;
               c * Z.to_nat fr * Z.to_nat fc] /\
    wf m.
Proof.
  intros Hwf Hs Hg Hp Hsr Hsc Hfr Hfc Hgr Hgc.
  unfold im2col.
  rewrite (reshape_img_4d img b c h w Hs). cbn [bind ok].
  rewrite (pad_img_noop G img gp) by (auto; unfold ndim; rewrite Hs; simpl; lia).
  cbn [bind ok]. unfold unpack4. rewrite Hs. cbn [bind ok].
  unfold get_remainders_of_filtering. cbn [fst snd].
  rewrite !py_mod_ok by lia. cbn [bind ok]. rewrite Hgr, Hgc.
  cbn [Z.gtb Z.compare orb bind ok].
  now apply im2col_tail_ok.
Qed.

(** Padding the two image axes of a 4-d array. *)
Lemma pad_constant_rows_cols (a : ndarray T) b c rows cols r0 r1 c0 c1 :
  shape a = [b; c; rows; cols] ->
  (0 <= r0)%Z -> (0 <= r1)%Z -> (0 <= c0)%Z -> (0 <= c1)%Z ->
  exists ext,
    pad_constant zero a [(0, 0); (0, 0); (r0, r1); (c0, c1)]%Z = ok ext /\
    shape ext = [b; c; rows + Z.to_nat r0 + Z.to_nat r1;
                 cols + Z.to_nat c0 + Z.to_nat c1] /\
    wf ext.
Proof.
  intros Hs Hr0 Hr1 Hc0 Hc1.
  unfold pad_constant, ndim. rewrite Hs.
  cbn [length Nat.eqb bind ok forallb fst snd].
  apply Z.leb_le in Hr0, Hr1, Hc0, Hc1.
  rewrite Hr0, Hr1, Hc0, Hc1. cbn [Z.leb Z.compare andb].
  eexists. split; [reflexivity|].
  cbn [shape combine map fst snd Z.to_nat]. split.
  - now rewrite !Nat.add_0_r.
  - unfold wf. cbn [shape data]. now rewrite tabulate_length.
Qed.

(** When the module-level [pad] has no zero entry and the module-level
    [gap_r], [gap_c] hold the remainders, [extend_img_for_filtering] pads
    by gap//2 before and gap - gap//2 after on both image axes. *)
Lemma extend_img_for_filtering_ok G (pimg : ndarray T) b c rows cols
      gp p gap_r gap_c rem_r rem_c :
  shape pimg = [b; c; rows; cols] ->
  g_pad G = Some gp -> np_prod_pad gp = ok p -> p <> 0%Z ->
  g_gap_r G = Some gap_r -> g_gap_c G = Some gap_c ->
  (0 <= gap_r)%Z -> (0 <= gap_c)%Z ->
  exists ext,
    extend_img_for_filtering zero G pimg rem_r rem_c = ok ext /\
    pad_constant zero pimg
      [(0, 0); (0, 0); (gap_r / 2, gap_r - gap_r / 2);
       (gap_c / 2, gap_c - gap_c / 2)]%Z = ok ext /\
    shape ext = [b; c; rows + Z.to_nat gap_r; cols + Z.to_nat gap_c] /\
    wf ext.
Proof.
  intros Hs Hg Hp Hp0 Hgr Hgc Hr Hc.
  assert (Hr2 : (0 <= gap_r / 2 <= gap_r)%Z)
    by (split; [apply Z.div_pos; lia | apply Z.div_le_upper_bound; lia]).
  assert (Hc2 : (0 <= gap_c / 2 <= gap_c)%Z)
    by (split; [apply Z.div_pos; lia | apply Z.div_le_upper_bound; lia]).
  destruct (pad_constant_rows_cols pimg b c rows cols
              (gap_r / 2) (gap_r - gap_r / 2) (gap_c / 2) (gap_c - gap_c / 2)
              Hs) as (ext & Hext & Hshape & Hwf); try lia.
  exists ext. split; [|split; [exact Hext|split; [|exact Hwf]]].
  - unfold extend_img_for_filtering. rewrite Hgr, Hgc. cbn [lookup bind ok].
    unfold pad_img, ndim. rewrite Hs. cbn [length Nat.ltb Nat.leb].
    rewrite Hg. cbn [lookup bind ok]. rewrite Hp. cbn [bind ok].
    destruct (p =? 0)%Z eqn:E; [lia|].
    cbn [Nat.sub repeat app]. exact Hext.
  - rewrite Hshape. f_equal. f_equal. f_equal; [|f_equal]; lia.
Qed.

Lemma pad_constant_wf (a ext : ndarray T) pw :
  pad_constant zero a pw = ok ext -> wf ext.
Proof.
  unfold pad_constant.
  destruct (if length pw =? ndim a then ok pw
            else match pw with
                 | [p] => ok (repeat p (ndim a))
                 | _ => raise (ValueError "unable to broadcast pad_width")
                 end) as [e|pw'] eqn:E; cbn [bind]; [discriminate|].
  destruct (forallb _ pw'); [|discriminate].
  intros [= <-]. unfold wf. cbn [shape data]. now rewrite tabulate_length.
Qed.

Lemma pad_img_wf G (img pimg : ndarray T) pr pc :
  wf img -> pad_img zero G img pr pc = ok pimg -> wf pimg.
Proof.
  intros Hwf. unfold pad_img.
  destruct (ndim img <? 2); [discriminate|].
  destruct (lookup "pad" (g_pad G)) as [e|gp]; cbn [bind]; [discriminate|].
  destruct (np_prod_pad gp) as [e|p]; cbn [bind]; [discriminate|].
  destruct (p =? 0)%Z.
  - now intros [= <-].
  - apply pad_constant_wf.
Qed.

End Facts.

(** [force=True] in a namespace whose module-level names agree with the
    call ([pad] without a zero entry, [gap_r] and [gap_c] equal to the
    remainders of the padded image): the image is zero-padded by gap//2
    before and gap - gap//2 after on each image axis, so each axis grows by
    its gap, and the remainder of the extended image is (2*gap) mod stride,
    which vanishes only when the stride divides twice the gap.  With
    [force=False] the call raises the RuntimeError that reports the shape
    mismatch. *)
Theorem im2col_force_padding {T} (zero : T) G (img pimg : ndarray T)
    b0 c0 h w b c rows cols fr fc sr sc pad gap_r gap_c :
  wf img -> shape img = [b0; c0; h; w] ->
  pad_img zero G img (fst pad) (snd pad) = ok pimg ->
  shape pimg = [b; c; rows; cols] ->
  (1 <= sr)%Z -> (1 <= sc)%Z ->
  (0 <= fr <= Z.of_nat rows)%Z -> (0 <= fc <= Z.of_nat cols)%Z ->
  gap_r = ((Z.of_nat rows - fr) mod sr)%Z ->
  gap_c = ((Z.of_nat cols - fc) mod sc)%Z ->
  gap_r <> 0%Z \/ gap_c <> 0%Z ->
  im2col zero G img (fr, fc) pad (sr, sc) false
    = raise (RuntimeError shape_mismatch_msg) /\
  (forall gp p,
      g_pad G = Some gp -> np_prod_pad gp = ok p -> p <> 0%Z ->
      g_gap_r G = Some gap_r -> g_gap_c G = Some gap_c ->
      exists ext m,
        extend_img_for_filtering zero G pimg gap_r gap_c = ok ext /\
        pad_constant zero pimg
          [(0, 0); (0, 0); (gap_r / 2, gap_r - gap_r / 2);
           (gap_c / 2, gap_c - gap_c / 2)]%Z = ok ext /\
        shape ext = [b; c; rows + Z.to_nat gap_r; cols + Z.to_nat gap_c] /\
        im2col zero G img (fr, fc) pad (sr, sc) true = ok m /\
        shape m = [b * window_count (rows + Z.to_nat gap_r) fr sr
                     * window_count (cols + Z.to_nat gap_c) fc sc;
                   c * Z.to_nat fr * Z.to_nat fc] /\
        ((Z.of_nat rows + gap_r - fr) mod sr = (2 * gap_r) mod sr)%Z /\
        ((Z.of_nat cols + gap_c - fc) mod sc = (2 * gap_c) mod sc)%Z).
Proof.
  intros Hwf Hs Hpad Hps Hsr Hsc Hfr Hfc Hgr Hgc Hgap.
  assert (Hr : (0 <= gap_r < sr)%Z) by (subst gap_r; apply Z.mod_pos_bound; lia).
  assert (Hc : (0 <= gap_c < sc)%Z) by (subst gap_c; apply Z.mod_pos_bound; lia).
  assert (Hcond : ((gap_r >? 0) || (gap_c >? 0))%Z = true).
  { apply orb_true_iff. rewrite !Z.gtb_lt. lia. }
  assert (Hhead : forall force,
      im2col zero G img (fr, fc) pad (sr, sc) force
      = ('(pimg0, (batches, chs, rows0, cols0)) <-
           (if force then
              pimg' <- extend_img_for_filtering zero G pimg gap_r gap_c ;;
              dims <- unpack4 pimg' ;;
              ok (pimg', dims)
            else raise (RuntimeError shape_mismatch_msg)) ;;
         match Np.strides pimg0 with
         | [st_batch; st_ch; st_r; st_c] =>
             let f_st_r := (st_r * fst (sr, sc))%Z in
             let f_st_c := (st_c * snd (sr, sc))%Z in
             let dst_strides := [st_batch; st_ch; f_st_r; f_st_c; st_r; st_c] in
             q_r <- py_floordiv (Z.of_nat rows0 - fr) (fst (sr, sc)) ;;
             let dst_rows := (q_r + 1)%Z in
             q_c <- py_floordiv (Z.of_nat cols0 - fc) (snd (sr, sc)) ;;
             let dst_cols := (q_c + 1)%Z in
             n_rows <- dim_of_Z dst_rows ;;
             n_cols <- dim_of_Z dst_cols ;;
             n_frows <- dim_of_Z fr ;;
             n_fcols <- dim_of_Z fc ;;
             let dst_shape := [batches; chs; n_rows; n_cols; n_frows; n_fcols] in
             dst_img <- as_strided zero pimg0 dst_shape dst_strides ;;
             let dst_rows := (Z.of_nat batches * dst_rows * dst_cols)%Z in
             let dst_cols := (Z.of_nat chs * fr * fc)%Z in
             t <- transpose zero dst_img [0; 2; 3; 1; 4; 5] ;;
             out_rows <- dim_of_Z dst_rows ;;
             out_cols <- dim_of_Z dst_cols ;;
             reshape t [out_rows; out_cols]
         | _ => raise (ValueError "not enough values to unpack")
         end)).
  { intros force. unfold im2col.
    rewrite (Im2colFacts.reshape_img_4d img b0 c0 h w Hs). cbn [bind ok].
    rewrite Hpad. cbn [bind ok]. unfold unpack4 at 1. rewrite Hps. cbn [bind ok].
    unfold get_remainders_of_filtering. cbn [fst snd].
    rewrite !Im2colFacts.py_mod_ok by lia. cbn [bind ok].
    rewrite <- Hgr, <- Hgc, Hcond. reflexivity. }
  split.
  - rewrite Hhead. reflexivity.
  - intros gp p Hg Hp Hp0 Hggr Hggc.
    destruct (Im2colFacts.extend_img_for_filtering_ok zero G pimg b c rows cols
                gp p gap_r gap_c gap_r gap_c Hps Hg Hp Hp0 Hggr Hggc)
      as (ext & Hext & Hpc & Hes & Hewf); try lia.
    destruct (Im2colFacts.im2col_tail_ok zero ext b c
                (rows + Z.to_nat gap_r) (cols + Z.to_nat gap_c) fr fc sr sc
                Hewf Hes Hsr Hsc) as (m & Hm & Hms & _); try lia.
    exists ext, m. repeat split; try assumption.
    + rewrite Hhead, Hext. cbn [bind ok]. unfold unpack4. rewrite Hes.
      cbn [bind ok]. exact Hm.
    + subst gap_r.
      replace (Z.of_nat rows + (Z.of_nat rows - fr) mod sr - fr)%Z
        with ((Z.of_nat rows - fr) + (Z.of_nat rows - fr) mod sr)%Z by lia.
      rewrite Zplus_mod_idemp_r, Zmult_mod_idemp_r. f_equal. lia.
    + subst gap_c.
      replace (Z.of_nat cols + (Z.of_nat cols - fc) mod sc - fc)%Z
        with ((Z.of_nat cols - fc) + (Z.of_nat cols - fc) mod sc)%Z by lia.
      rewrite Zplus_mod_idemp_r, Zmult_mod_idemp_r. f_equal. lia.
Qed.

(** A 5x5 image padded by one pixel on every side, a 3x3 filter and strides
    of 3; the module-level names agree with the call. *)
Lemma im2col_force_padding_witness :
  im2col 0%Z
    (mk_globals (Some (PadInt 1, PadInt 1)) (Some 1%Z) (Some 1%Z) None None None)
    (mk_ndarray [1; 1; 5; 5] (map Z.of_nat (seq 1 25)))
    (3, 3)%Z (PadInt 1, PadInt 1) (3, 3)%Z false
  = raise (RuntimeError shape_mismatch_msg) /\
  exists m,
    im2col 0%Z
      (mk_globals (Some (PadInt 1, PadInt 1)) (Some 1%Z) (Some 1%Z) None None None)
      (mk_ndarray [1; 1; 5; 5] (map Z.of_nat (seq 1 25)))
      (3, 3)%Z (PadInt 1, PadInt 1) (3, 3)%Z true = ok m /\
    shape m = [1 * window_count (7 + 1) 3 3 * window_count (7 + 1) 3 3;
               1 * 3 * 3].
Proof.
  pose (G := mk_globals (Some (PadInt 1, PadInt 1)) (Some 1%Z) (Some 1%Z)
                        None None None).
  pose (img := mk_ndarray [1; 1; 5; 5] (map Z.of_nat (seq 1 25))).
  pose (pimg := match pad_img 0%Z G img (PadInt 1) (PadInt 1) with
                | inr x => x
                | inl _ => img
                end).
  destruct (im2col_force_padding 0%Z G img pimg 1 1 5 5 1 1 7 7
              3%Z 3%Z 3%Z 3%Z (PadInt 1, PadInt 1) 1%Z 1%Z)
    as [Hfalse Htrue];
    try reflexivity; try lia.
  split; [exact Hfalse|].
  destruct (Htrue (PadInt 1, PadInt 1) 1%Z)
    as (ext & m & _ & _ & _ & Hm & Hshape & _);
    try reflexivity; try lia.
  exists m. split; [exact Hm | exact Hshape].
Defined.

(** The same call: the padded 7x7 image leaves a remainder of 1 on both
    axes; [force=True] extends it by the remainder to 8x8, and 8x8 leaves a
    remainder of 2: the padding does not make the image divisible by the
    stride. *)
Lemma force_padding_leaves_remainder :
  exists pimg ext m,
    pad_img 0%Z
      (mk_globals (Some (PadInt 1, PadInt 1)) (Some 1%Z) (Some 1%Z) None None None)
      (mk_ndarray [1; 1; 5; 5] (map Z.of_nat (seq 1 25)))
      (PadInt 1) (PadInt 1) = ok pimg /\
    shape pimg = [1; 1; 7; 7] /\
    get_remainders_of_filtering 7 7 3 3 (3, 3)%Z = ok (1, 1)%Z /\
    im2col 0%Z
      (mk_globals (Some (PadInt 1, PadInt 1)) (Some 1%Z) (Some 1%Z) None None None)
      (mk_ndarray [1; 1; 5; 5] (map Z.of_nat (seq 1 25)))
      (3, 3)%Z (PadInt 1, PadInt 1) (3, 3)%Z true = ok m /\
    extend_img_for_filtering 0%Z
      (mk_globals (Some (PadInt 1, PadInt 1)) (Some 1%Z) (Some 1%Z) None None None)
      pimg 1 1 = ok ext /\
    shape ext = [1; 1; 8; 8] /\
    get_remainders_of_filtering 8 8 3 3 (3, 3)%Z = ok (2, 2)%Z.
Proof.
  eexists. eexists. eexists.
  split; [vm_compute; reflexivity|].
  split; [reflexivity|].
  split; [reflexivity|].
  split; [vm_compute; reflexivity|].
  split; [vm_compute; reflexivity|].
  split; reflexivity.
Qed.

(** C3: for a 4-d image of shape (b, c, h, w), a window (wr, wc) that fits,
    zero pad and unit strides, [im2col] returns a matrix of shape
    (b*(h-wr+1)*(w-wc+1), c*wr*wc); for any strides that leave no remainder
    the window counts are dst_rows = (rows - wr)//sr + 1 and
    dst_cols = (cols - wc)//sc + 1.  The module-level [pad] read by
    [pad_img] is as the file itself sets it: a tuple with a zero entry. *)
Theorem im2col_shape_law {T} (zero : T) G (img : ndarray T) b c h w wr wc gp force :
  wf img -> shape img = [b; c; h; w] ->
  g_pad G = Some gp -> np_prod_pad gp = ok 0%Z ->
  wr <= h -> wc <= w ->
  (exists m,
      im2col zero G img (Z.of_nat wr, Z.of_nat wc) (PadInt 0, PadInt 0)
             (1, 1)%Z force = ok m /\
      shape m = [b * (h - wr + 1) * (w - wc + 1); c * wr * wc]) /\
  (forall sr sc,
      (1 <= sr)%Z -> (1 <= sc)%Z ->
      ((Z.of_nat h - Z.of_nat wr) mod sr = 0)%Z ->
      ((Z.of_nat w - Z.of_nat wc) mod sc = 0)%Z ->
      exists m,
        im2col zero G img (Z.of_nat wr, Z.of_nat wc) (PadInt 0, PadInt 0)
               (sr, sc) force = ok m /\
        shape m = [b * Z.to_nat ((Z.of_nat h - Z.of_nat wr) / sr + 1)
                     * Z.to_nat ((Z.of_nat w - Z.of_nat wc) / sc + 1);
                   c * wr * wc]).
Proof.
  intros Hwf Hs Hg Hp Hwr Hwc.
  assert (Hgen : forall sr sc,
      (1 <= sr)%Z -> (1 <= sc)%Z ->
      ((Z.of_nat h - Z.of_nat wr) mod sr = 0)%Z ->
      ((Z.of_nat w - Z.of_nat wc) mod sc = 0)%Z ->
      exists m,
        im2col zero G img (Z.of_nat wr, Z.of_nat wc) (PadInt 0, PadInt 0)
               (sr, sc) force = ok m /\
        shape m = [b * Z.to_nat ((Z.of_nat h - Z.of_nat wr) / sr + 1)
                     * Z.to_nat ((Z.of_nat w - Z.of_nat wc) / sc + 1);
                   c * wr * wc]).
  { intros sr sc Hsr Hsc Hgr Hgc.
    destruct (im2col_divisible zero G img b c h w (Z.of_nat wr) (Z.of_nat wc)
                sr sc gp (PadInt 0, PadInt 0) force)
      as (m & Hm & Hshape & _); try assumption; try lia.
    exists m. split; [assumption|].
    rewrite Hshape. unfold window_count. now rewrite !Nat2Z.id. }
  split; [|exact Hgen].
  destruct (Hgen 1%Z 1%Z) as (m & Hm & Hshape);
    try lia; try apply Z.mod_1_r.
  exists m. split; [assumption|].
  rewrite Hshape, !Z.div_1_r.
  replace (Z.to_nat (Z.of_nat h - Z.of_nat wr + 1)) with (h - wr + 1) by lia.
  replace (Z.to_nat (Z.of_nat w - Z.of_nat wc + 1)) with (w - wc + 1) by lia.
  reflexivity.
Qed.

(** The 2x2x6x6 image, 3x3 filter and unit strides of cell In[146]. *)
Lemma im2col_shape_law_witness :
  exists m,
    im2col 0%Z module_globals
      (mk_ndarray [2; 2; 6; 6] (map Z.of_nat (seq 0 144)))
      (3, 3)%Z (PadInt 0, PadInt 0) (1, 1)%Z true = ok m /\
    shape m = [2 * (6 - 3 + 1) * (6 - 3 + 1); 2 * 3 * 3].
Proof.
  exact (proj1 (im2col_shape_law 0%Z module_globals
                  (mk_ndarray [2; 2; 6; 6] (map Z.of_nat (seq 0 144)))
                  2 2 6 6 3 3 (PadInt 0, PadInt 0) true
                  eq_refl eq_refl eq_refl eq_refl
                  ltac:(lia) ltac:(lia))).
Defined.

End Im2colFacts.

(** ** Elementwise operations *)

Module UfuncFacts.

Lemma broadcast_rev_same r : broadcast_rev r r = Some r.
Proof.
  induction r as [|d r IH]; [reflexivity|].
  cbn [broadcast_rev]. rewrite IH, Nat.eqb_refl. reflexivity.
Qed.

Lemma broadcast_shapes_same s : broadcast_shapes s s = Some s.
Proof.
  unfold broadcast_shapes. rewrite broadcast_rev_same. cbn [option_map].
  now rewrite rev_involutive.
Qed.

(** A 0-d operand broadcasts against any shape. *)
Lemma broadcast_shapes_scalar_r s : broadcast_shapes s [] = Some s.
Proof.
  unfold broadcast_shapes. cbn [rev].
  destruct (rev s) eqn:E; cbn [broadcast_rev option_map].
  - apply (f_equal (@rev nat)) in E. rewrite rev_involutive in E.
    now rewrite E.
  - rewrite <- E. now rewrite rev_involutive.
Qed.

Lemma broadcast_index_same s idx :
  in_shape s idx -> broadcast_index s idx = idx.
Proof.
  intros H. unfold broadcast_index.
  rewrite (in_shape_length _ _ H), Nat.sub_diag. cbn [skipn].
  revert idx H. induction s as [|d s IH]; intros [|i idx]; simpl; try tauto.
  intros [Hi H]. rewrite IH by assumption. f_equal.
  destruct (d =? 1) eqn:E; [apply Nat.eqb_eq in E; lia|reflexivity].
Qed.

(** On two arrays of one shape a ufunc works entry by entry. *)
Lemma map2_same_shape {T U V} (dt : T) (du : U) (op : T -> U -> V)
      (a : ndarray T) (b : ndarray U) :
  shape a = shape b ->
  map2 dt du op a b
  = ok (mk_ndarray (shape a)
          (tabulate (size (shape a))
             (fun k => op (nth k (data a) dt) (nth k (data b) du)))).
Proof.
  intros Hs. unfold map2. rewrite <- Hs, broadcast_shapes_same.
  unfold ok. do 2 f_equal. apply tabulate_ext. intros k Hk.
  pose proof (unravel_in_shape _ _ Hk) as Hin.
  rewrite broadcast_index_same, ravel_unravel by assumption.
  reflexivity.
Qed.

Lemma tabulate_map {T V} (h : T -> V) (l : list T) d :
  tabulate (length l) (fun k => h (nth k l d)) = map h l.
Proof.
  apply nth_ext with (d := h d) (d' := h d).
  - now rewrite tabulate_length, length_map.
  - intros k Hk. rewrite tabulate_length in Hk.
    rewrite nth_tabulate by assumption. now rewrite map_nth.
Qed.

Lemma nth_amap {T V} (h : T -> V) (a : ndarray T) k d d' :
  k < length (data a) -> nth k (data (amap h a)) d' = h (nth k (data a) d).
Proof.
  intros Hk. unfold amap. cbn [data].
  rewrite (nth_indep _ d' (h d)) by now rewrite length_map.
  now rewrite map_nth.
Qed.

End UfuncFacts.

(** ** Activation functions and the activation layer *)

Module ActivationFacts.

Import UfuncFacts NnUtils.

(** C8: the derivatives are functions of the forward output.  For every
    tensor f, Sigmoid's grad is (1-f)*f and Tanh's grad is 1-f^2, entry by
    entry.  ReLU's activate records a mask of the shape of its input whose
    entries are 0 or 1, and 1 exactly at the strictly positive inputs; its
    grad returns that mask whatever it is given.  The layer's backward step
    multiplies dy by grad of the stored forward output [fire], using the
    instance as forward left it. *)
Theorem activation_derivatives {A} (F : float_ops A) :
  (forall f, wf f ->
     Activation.grad F Activation.Sigmoid f
     = ok (amap (fun v => f_mul F (f_sub F (f_one F) v) v) f)) /\
  (forall f,
     Activation.grad F Activation.Tanh f
     = ok (amap (fun v => f_sub F (f_one F) (f_pow F v 2)) f)) /\
  (forall m0 x, wf x ->
     exists mask y,
       Activation.activate F (Activation.ReLU m0) x
       = ok (Activation.ReLU (Some mask), y) /\
       shape mask = shape x /\
       (forall arg, Activation.grad F (Activation.ReLU (Some mask)) arg = ok mask) /\
       Forall (fun v => v = f_zero F \/ v = f_one F) (data mask) /\
       (forall k, k < length (data x) ->
          nth k (data mask) (f_zero F)
          = if f_gt F (nth k (data x) (f_zero F)) (f_zero F)
            then f_one F else f_zero F) /\
       (f_one F <> f_zero F ->
        forall k, k < length (data x) ->
          (nth k (data mask) (f_zero F) = f_one F <->
           f_gt F (nth k (data x) (f_zero F)) (f_zero F) = true))) /\
  (forall act act' ishape x f dy,
     is_multi_channels_image ishape = false ->
     Activation.activate F act x = ok (act', f) ->
     ActivationLayer.__forward F
       (ActivationLayer.mk (Some act) (Some ishape) (Some ishape) None None) x
     = ok (ActivationLayer.mk (Some act') (Some ishape) (Some ishape) (Some f) None) /\
     ActivationLayer.__backward F
       (ActivationLayer.mk (Some act') (Some ishape) (Some ishape) (Some f) None) dy
     = (g <- Activation.grad F act' f ;;
        b <- map2 (f_zero F) (f_zero F) (f_mul F) dy g ;;
        ok (ActivationLayer.mk (Some act') (Some ishape) (Some ishape) (Some f)
              (Some b)))).
Proof.
  split; [|split; [|split]].
  - intros f Hwf. cbn [Activation.grad].
    rewrite map2_same_shape by reflexivity.
    change (shape (amap (f_sub F (f_one F)) f)) with (shape f).
    replace (amap (fun v => f_mul F (f_sub F (f_one F) v) v) f)
      with (mk_ndarray (shape f)
              (map (fun v => f_mul F (f_sub F (f_one F) v) v) (data f)))
      by reflexivity.
    unfold ok. do 2 f_equal.
    rewrite <- Hwf.
    rewrite <- (tabulate_map (fun v => f_mul F (f_sub F (f_one F) v) v)
                  (data f) (f_zero F)).
    apply tabulate_ext. intros k Hk.
    now rewrite (nth_amap _ _ _ (f_zero F)).
  - intros f. cbn [Activation.grad]. unfold amap. cbn [shape data].
    now rewrite map_map.
  - intros m0 x Hwf. cbn [Activation.activate].
    rewrite map2_same_shape by reflexivity. cbn [bind ok].
    eexists. eexists. split; [reflexivity|].
    split; [reflexivity|]. split; [reflexivity|].
    assert (Hnth : forall k, k < length (data x) ->
              nth k (data (amap (fun v => Activation.of_bool F
                                            (f_gt F v (f_zero F))) x)) (f_zero F)
              = if f_gt F (nth k (data x) (f_zero F)) (f_zero F)
                then f_one F else f_zero F).
    { intros k Hk. now rewrite (nth_amap _ _ _ (f_zero F)). }
    split; [|split; [exact Hnth|]].
    + unfold amap. cbn [data]. apply Forall_forall. intros v Hv.
      apply in_map_iff in Hv. destruct Hv as (u & <- & _).
      unfold Activation.of_bool. destruct (f_gt F u (f_zero F)); auto.
    + intros Hne k Hk. rewrite Hnth by assumption.
      destruct (f_gt F (nth k (data x) (f_zero F)) (f_zero F)).
      * tauto.
      * split; [intros E; now symmetry in E | discriminate].
  - intros act act' ishape x f dy Himg Hact. split.
    + unfold ActivationLayer.__forward.
      cbn [ActivationLayer.input_shape ActivationLayer.output_shape
           ActivationLayer.activation ActivationLayer.backfire attr bind ok].
      rewrite Himg. cbn [bind ok]. rewrite Hact. cbn [bind ok].
      reflexivity.
    + unfold ActivationLayer.__backward.
      cbn [ActivationLayer.input_shape ActivationLayer.output_shape
           ActivationLayer.activation ActivationLayer.fire
           ActivationLayer.backfire attr bind ok].
      rewrite Himg. cbn [bind ok].
      destruct (Activation.grad F act' f) as [e|g]; cbn [bind]; [reflexivity|].
      destruct (map2 _ _ _ dy g) as [e|b]; cbn [bind]; reflexivity.
Qed.

(** Sigmoid's grad and ReLU's mask on the entries 2, -1, 0, 3 over the
    integers. *)
Lemma activation_derivatives_witness :
  Activation.grad Z_ops Activation.Sigmoid (mk_ndarray [2; 2] [2; -1; 0; 3]%Z)
  = ok (mk_ndarray [2; 2] [-2; -2; 0; -6]%Z) /\
  exists mask y,
    Activation.activate Z_ops (Activation.ReLU None)
      (mk_ndarray [2; 2] [2; -1; 0; 3]%Z)
    = ok (Activation.ReLU (Some mask), y) /\
    (nth 0 (data mask) 0%Z = 1%Z <-> (2 >? 0)%Z = true).
Proof.
  destruct (activation_derivatives Z_ops) as (Hsig & _ & Hrelu & _).
  split.
  - exact (Hsig (mk_ndarray [2; 2] [2; -1; 0; 3]%Z) eq_refl).
  - destruct (Hrelu None (mk_ndarray [2; 2] [2; -1; 0; 3]%Z) eq_refl)
      as (mask & y & Hact & _ & _ & _ & _ & Hiff).
    exists mask, y. split; [exact Hact|].
    apply (Hiff ltac:(discriminate) 0). simpl. lia.
Defined.

(** C9, as stated, fails: a tag outside [Activation.Type] raises nothing.
    The factory returns [None], and the layer is built with it. *)
Lemma factory_unknown_tag_returns_none :
  @ActivationFactory.get Z (ActivationFactory.Other "linear") = None /\
  @ActivationLayer.init Z (ActivationFactory.Other "linear")
  = ActivationLayer.mk None None None None None.
Proof. split; reflexivity. Qed.

(** C9 (as amended): the factory returns the matching instance for each of
    the six members of [Activation.Type]; for any other object it raises
    nothing and returns [None].  A layer built on [None] fails only when
    its forward step runs, with an AttributeError. *)
Theorem factory_get_cases {A} (F : float_ops A) :
  @ActivationFactory.get A (ActivationFactory.Member Activation.sigmoid)
  = Some Activation.Sigmoid /\
  @ActivationFactory.get A (ActivationFactory.Member Activation.relu)
  = Some (Activation.ReLU None) /\
  @ActivationFactory.get A (ActivationFactory.Member Activation.elu)
  = Some (Activation.ELU None) /\
  @ActivationFactory.get A (ActivationFactory.Member Activation.srrelu)
  = Some (Activation.SRReLU None) /\
  @ActivationFactory.get A (ActivationFactory.Member Activation.tanh)
  = Some Activation.Tanh /\
  @ActivationFactory.get A (ActivationFactory.Member Activation.softmax)
  = Some Activation.Softmax /\
  (forall t, exists inst,
      @ActivationFactory.get A (ActivationFactory.Member t) = Some inst) /\
  (forall repr, @ActivationFactory.get A (ActivationFactory.Other repr) = None) /\
  (forall repr n x,
      ActivationLayer.__forward F
        (ActivationLayer.set_parent
           (ActivationLayer.init (ActivationFactory.Other repr)) (ShapeInt n)) x
      = raise (AttributeError "activate")).
Proof.
  repeat split; try reflexivity.
  intros t. destruct t; eexists; reflexivity.
Qed.

(** C4 at a failing input: a sigmoid [ActivationLayer] wired after an image
    of shape (1, 2, 2).  The forward step stores [fire] in image form; the
    backward step flattens dy to (1, 4) and multiplies it with
    grad(fire), still of shape (1, 1, 2, 2): numpy cannot broadcast the two,
    and no backfire is produced. *)
Theorem sigmoid_layer_image_backward_fails {A} (F : float_ops A)
    (x0 x1 x2 x3 d0 d1 d2 d3 : A) :
  exists self1 f,
    ActivationLayer.__forward F
      (ActivationLayer.set_parent
         (ActivationLayer.init (ActivationFactory.Member Activation.sigmoid))
         (ShapeTuple [1; 2; 2]))
      (mk_ndarray [1; 1; 2; 2] [x0; x1; x2; x3]) = ok self1 /\
    ActivationLayer.fire self1 = Some f /\
    shape f = [1; 1; 2; 2] /\
    ActivationLayer.__backward F self1 (mk_ndarray [1; 1; 2; 2] [d0; d1; d2; d3])
    = raise (ValueError "operands could not be broadcast together").
Proof.
  eexists. eexists.
  split; [reflexivity|]. split; [reflexivity|]. split; reflexivity.
Qed.

(** The same layer with ReLU, whose grad is the flat mask, does produce a
    backfire of the input shape. *)
Lemma relu_layer_image_backward_ok {A} (F : float_ops A)
    (x0 x1 x2 x3 d0 d1 d2 d3 : A) :
  exists self1 self2 b,
    ActivationLayer.__forward F
      (ActivationLayer.set_parent
         (ActivationLayer.init (ActivationFactory.Member Activation.relu))
         (ShapeTuple [1; 2; 2]))
      (mk_ndarray [1; 1; 2; 2] [x0; x1; x2; x3]) = ok self1 /\
    ActivationLayer.__backward F self1 (mk_ndarray [1; 1; 2; 2] [d0; d1; d2; d3])
    = ok self2 /\
    ActivationLayer.backfire self2 = Some b /\
    shape b = [1; 1; 2; 2].
Proof.
  eexists. eexists. eexists.
  split; [reflexivity|]. split; [reflexivity|]. split; reflexivity.
Qed.

(** Tanh, ELU and SRReLU fail like the sigmoid layer: their [grad] is
    computed from the image-form [fire].  Softmax, whose [grad] is the
    scalar 1, returns a backfire of the input shape. *)
Lemma other_layers_image_backward {A} (F : float_ops A)
    (x0 x1 x2 x3 d0 d1 d2 d3 : A) :
  let layer tag :=
    ActivationLayer.__forward F
      (ActivationLayer.set_parent
         (ActivationLayer.init (ActivationFactory.Member tag))
         (ShapeTuple [1; 2; 2]))
      (mk_ndarray [1; 1; 2; 2] [x0; x1; x2; x3]) in
  let dy := mk_ndarray [1; 1; 2; 2] [d0; d1; d2; d3] in
  (forall tag,
     tag = Activation.tanh \/ tag = Activation.elu \/ tag = Activation.srrelu ->
     exists self1,
       layer tag = ok self1 /\
       ActivationLayer.__backward F self1 dy
       = raise (ValueError "operands could not be broadcast together")) /\
  exists self1 self2 b,
    layer Activation.softmax = ok self1 /\
    ActivationLayer.__backward F self1 dy = ok self2 /\
    ActivationLayer.backfire self2 = Some b /\
    shape b = [1; 1; 2; 2].
Proof.
  intros layer dy. split.
  - intros tag [-> | [-> | ->]]; eexists; split; reflexivity.
  - eexists. eexists. eexists.
    split; [reflexivity|]. split; [reflexivity|]. split; reflexivity.
Qed.

End ActivationFacts.

(** ** The affine layer *)

Module AffineFacts.

Import NnUtils UfuncFacts.

Section Matrices.

Context {T : Type} (zero : T).

Lemma r_row_ok (z : T) (w0 : ndarray T) k m :
  shape w0 = [k; m] ->
  r_ (full [1; m] z) w0
  = ok (mk_ndarray [1 + k; m] (repeat z (size [1; m]) ++ data w0)).
Proof.
  intros Hs. unfold r_, full. cbn [shape data]. rewrite Hs.
  destruct (list_eq_dec Nat.eq_dec [m] [m]) as [_|n]; [reflexivity|].
  now contradiction n.
Qed.

Lemma c_ones_ok (o : T) (x : ndarray T) n k :
  shape x = [n; k] ->
  c_ zero (full [n; 1] o) x
  = ok (mk_ndarray [n; 1 + k]
          (tabulate (n * (1 + k))
             (fun p =>
                let i := p / (1 + k) in
                let j := p mod (1 + k) in
                if j <? 1 then nth (i * 1 + j) (repeat o (size [n; 1])) zero
                else nth (i * k + (j - 1)) (data x) zero))).
Proof.
  intros Hs. unfold c_, full. cbn [shape data]. rewrite Hs, Nat.eqb_refl.
  reflexivity.
Qed.

Lemma dot_ok (add mul : T -> T -> T) (a b : ndarray T) n k m :
  shape a = [n; k] -> shape b = [k; m] ->
  exists y, dot zero add mul a b = ok y /\ shape y = [n; m] /\ wf y.
Proof.
  intros Ha Hb. unfold dot. rewrite Ha, Hb, Nat.eqb_refl.
  eexists. split; [reflexivity|]. split; [reflexivity|].
  unfold wf. cbn [shape data]. rewrite tabulate_length.
  unfold size. cbn [fold_right]. lia.
Qed.

Lemma T_ok (a : ndarray T) n m :
  shape a = [n; m] ->
  exists t, T_ zero a = ok t /\ shape t = [m; n] /\ wf t.
Proof.
  intros Hs. unfold T_, transpose, ndim. rewrite Hs.
  cbn [length seq rev app is_perm Nat.eqb forallb existsb andb orb map nth].
  eexists. split; [reflexivity|]. split; [reflexivity|].
  unfold wf. cbn [shape data]. now rewrite tabulate_length.
Qed.

Lemma drop_row0_ok (a : ndarray T) k m :
  shape a = [1 + k; m] -> wf a ->
  exists r, drop_row0 a = ok r /\ shape r = [k; m] /\ wf r /\
            data r = skipn m (data a).
Proof.
  intros Hs Hwf. unfold drop_row0, slice_rows. rewrite Hs. cbv zeta.
  assert (E1 : Nat.min 1 (1 + k) = 1) by lia.
  assert (E2 : Nat.max 1 (Nat.min (1 + k) (1 + k)) = 1 + k) by lia.
  rewrite E1, E2.
  replace (1 + k - 1) with k by lia.
  assert (Hlen : length (data a) = (1 + k) * m).
  { rewrite Hwf, Hs. unfold size. cbn [fold_right]. lia. }
  assert (Hfirst : firstn (k * size [m]) (skipn (1 * size [m]) (data a))
                   = skipn m (data a)).
  { unfold size. cbn [fold_right].
    replace (1 * (m * 1)) with m by lia.
    apply firstn_all2. rewrite length_skipn. lia. }
  eexists. split; [reflexivity|]. cbn [shape data].
  split; [reflexivity|]. split; [|exact Hfirst].
  unfold wf. cbn [shape data]. rewrite Hfirst, length_skipn, Hlen.
  unfold size. cbn [fold_right]. lia.
Qed.

End Matrices.

Section Forms.

Context {T : Type}.

Lemma batch_shape_size s n : size (batch_shape s n) = n * as_nat (np_prod s).
Proof.
  destruct s as [d | [|c [|r [|w [|v l]]]]];
    unfold batch_shape, np_prod, as_nat, size; cbn [fold_right]; lia.
Qed.

(** What the layers do to a batch on the way in: an image-form batch is
    flattened, a flat one is taken as it is. *)
Lemma flat_form (x : ndarray T) s n :
  shape x = batch_shape s n -> wf x ->
  (if is_multi_channels_image s then flatten x s else ok x)
  = ok (mk_ndarray [n; as_nat (np_prod s)] (data x)).
Proof.
  intros Hs Hwf.
  assert (Hlen : length (data x) = n * as_nat (np_prod s))
    by (rewrite Hwf, Hs; apply batch_shape_size).
  destruct x as [sx dx]. cbn [shape data] in *.
  destruct s as [d | [|c [|r [|w [|v l]]]]];
    cbn [is_multi_channels_image]; cbn in Hs; subst sx; try reflexivity.
  unfold flatten, shape0, reshape. cbn [shape data bind ok].
  cbn [np_prod as_nat] in Hlen. unfold size in *. cbn [fold_right] in *.
  replace (n * (c * r * w * 1) =? length dx) with true
    by (symmetry; apply Nat.eqb_eq; rewrite Hlen; ring).
  replace (as_nat (np_prod (ShapeTuple [c; r; w]))) with (c * r * w);
    [reflexivity|].
  cbn [np_prod as_nat]. unfold size. cbn [fold_right]. ring.
Qed.

(** And on the way out: a flat batch is put into the image form when the
    layer shape is an image shape. *)
Lemma batch_form (y : ndarray T) s n :
  shape y = [n; as_nat (np_prod s)] -> wf y ->
  (if is_multi_channels_image s then unflatten y s else ok y)
  = ok (mk_ndarray (batch_shape s n) (data y)).
Proof.
  intros Hs Hwf.
  assert (Hlen : length (data y) = n * as_nat (np_prod s)).
  { rewrite Hwf, Hs. unfold size. cbn [fold_right]. lia. }
  destruct y as [sy dy]. cbn [shape data] in *.
  destruct s as [d | [|c [|r [|w [|v l]]]]];
    cbn [is_multi_channels_image]; subst sy; try reflexivity.
  unfold unflatten, shape0, reshape. cbn [shape data bind ok].
  cbn [np_prod as_nat] in Hlen. unfold size in *. cbn [fold_right] in *.
  replace (n * (c * (r * (w * 1))) =? length dy) with true
    by (symmetry; apply Nat.eqb_eq; rewrite Hlen; ring).
  reflexivity.
Qed.

End Forms.

Section Layer.

Context {A : Type} (F : float_ops A).

Lemma set_parent_ok (self : AffineLayer.t A) ishape cast w0 m :
  AffineLayer.dtype self = Some cast ->
  cast (f_zero F) = f_zero F ->
  np_prod (AffineLayer.output_shape self) = NpInt m ->
  AffineLayer.weight_initialization self (np_prod ishape) (NpInt m) = ok w0 ->
  shape w0 = [as_nat (np_prod ishape); m] ->
  wf w0 ->
  exists w1,
    AffineLayer.set_parent F self ishape
    = ok (AffineLayer.mk (AffineLayer.output_shape self)
            (AffineLayer.weight_initialization self) (AffineLayer.x self)
            (AffineLayer.multi_channels_image self) (Some cast) (Some ishape)
            (Some w1) (Some (zeros_like (f_zero F) w1))
            (AffineLayer.fire self) (AffineLayer.backfire self)) /\
    shape w1 = [1 + as_nat (np_prod ishape); m] /\
    wf w1 /\
    (forall j, j < m -> nth j (data w1) (f_zero F) = f_zero F) /\
    (forall p, p < length (data w0) ->
       nth (m + p) (data w1) (f_zero F) = cast (nth p (data w0) (f_zero F))).
Proof.
  intros Hd Hc Hm Hw Hs Hwf.
  set (k := as_nat (np_prod ishape)) in *.
  unfold AffineLayer.set_parent. rewrite Hm, Hw. cbn [bind ok].
  unfold AffineLayer.zeros_row. cbn [bind ok].
  rewrite (r_row_ok (f_zero F) w0 k m Hs). cbn [bind ok].
  rewrite Hd. cbn [attr bind ok].
  exists (amap cast (mk_ndarray [1 + k; m]
                       (repeat (f_zero F) (size [1; m]) ++ data w0))).
  split; [reflexivity|].
  assert (Hrep : length (repeat (f_zero F) (size [1; m])) = m).
  { rewrite repeat_length. unfold size. cbn [fold_right]. lia. }
  unfold amap. cbn [shape data]. split; [reflexivity|]. split; [|split].
  - unfold wf. cbn [shape data]. rewrite length_map, length_app, Hrep, Hwf, Hs.
    unfold size. cbn [fold_right]. lia.
  - intros j Hj. rewrite map_app.
    rewrite app_nth1 by (rewrite length_map, Hrep; lia).
    rewrite map_repeat, Hc.
    destruct (nth_in_or_default j (repeat (f_zero F) (size [1; m])) (f_zero F))
      as [Hin|E]; [|exact E].
    now apply repeat_spec in Hin.
  - intros p Hp. rewrite map_app.
    rewrite app_nth2 by (rewrite length_map, Hrep; lia).
    rewrite length_map, Hrep.
    replace (m + p - m) with p by lia.
    rewrite (nth_indep _ (f_zero F) (cast (f_zero F))) by now rewrite length_map.
    now rewrite map_nth.
Qed.

(** An output shape that is the empty tuple has the float 1.0 for its
    product: [np.zeros((1, w_cols))] refuses it, and [set_parent] never
    returns. *)
Lemma set_parent_empty_output_shape (self : AffineLayer.t A) ishape :
  AffineLayer.output_shape self = ShapeTuple [] ->
  (forall w0,
     AffineLayer.weight_initialization self (np_prod ishape) NpFloatOne = ok w0 ->
     AffineLayer.set_parent F self ishape
     = raise (TypeError
                "'numpy.float64' object cannot be interpreted as an integer")) /\
  forall self1, AffineLayer.set_parent F self ishape <> ok self1.
Proof.
  intros Ho. unfold AffineLayer.set_parent. rewrite Ho. cbn [np_prod].
  split.
  - intros w0 ->. reflexivity.
  - intros self1.
    destruct (AffineLayer.weight_initialization self (np_prod ishape) NpFloatOne);
      discriminate.
Qed.

Lemma forward_ok (self : AffineLayer.t A) ishape cast w1 x n m :
  AffineLayer.dtype self = Some cast ->
  AffineLayer.input_shape self = Some ishape ->
  AffineLayer.w self = Some w1 ->
  np_prod (AffineLayer.output_shape self) = NpInt m ->
  shape w1 = [1 + as_nat (np_prod ishape); m] ->
  shape x = batch_shape ishape n -> wf x ->
  exists x1 y,
    AffineLayer.__forward F self x
    = ok (AffineLayer.mk (AffineLayer.output_shape self)
            (AffineLayer.weight_initialization self) (Some x1)
            (AffineLayer.multi_channels_image self) (Some cast) (Some ishape)
            (Some w1) (AffineLayer.dw self)
            (Some (mk_ndarray (batch_shape (AffineLayer.output_shape self) n)
                     (data y)))
            (AffineLayer.backfire self)) /\
    shape x1 = [n; 1 + as_nat (np_prod ishape)] /\ wf x1 /\
    (forall i, i < n ->
       nth (i * (1 + as_nat (np_prod ishape))) (data x1) (f_zero F)
       = cast (f_one F) /\
       forall l, l < as_nat (np_prod ishape) ->
         nth (i * (1 + as_nat (np_prod ishape)) + 1 + l) (data x1) (f_zero F)
         = nth (i * as_nat (np_prod ishape) + l) (data x) (f_zero F)) /\
    dot (f_zero F) (f_add F) (f_mul F) x1 w1 = ok y /\
    shape y = [n; m] /\ wf y.
Proof.
  intros Hd Hi Hw Hm Hws Hxs Hwf.
  set (k := as_nat (np_prod ishape)) in *.
  unfold AffineLayer.__forward. rewrite Hi, Hd, Hw. cbn [attr bind ok].
  rewrite (flat_form x ishape n Hxs Hwf). cbn [bind ok]. fold k.
  unfold shape0. cbn [shape bind ok].
  rewrite (c_ones_ok (f_zero F) (cast (f_one F))
             (mk_ndarray [n; k] (data x)) n k eq_refl).
  cbn [bind ok data].
  match goal with
  | |- context [dot _ _ _ ?X1 w1] => set (x1 := X1)
  end.
  assert (Hx1s : shape x1 = [n; 1 + k]) by reflexivity.
  destruct (dot_ok (f_zero F) (f_add F) (f_mul F) x1 w1 n (1 + k) m Hx1s Hws)
    as (y & Hy & Hys & Hywf).
  rewrite Hy. cbn [bind ok].
  assert (Hys' : shape y = [n; as_nat (np_prod (AffineLayer.output_shape self))])
    by (rewrite Hm; exact Hys).
  rewrite (batch_form y (AffineLayer.output_shape self) n Hys' Hywf).
  cbn [bind ok].
  exists x1, y. split; [reflexivity|]. split; [exact Hx1s|].
  split; [|split; [|split; [exact Hy|split; assumption]]].
  - unfold wf, x1. cbn [shape data]. rewrite tabulate_length.
    unfold size. cbn [fold_right]. lia.
  - intros i Hin.
    assert (Hone : nth (i * 1 + 0) (repeat (cast (f_one F)) (size [n; 1])) (f_zero F)
                   = cast (f_one F)).
    { rewrite (nth_indep _ (f_zero F) (cast (f_one F))).
      - apply nth_repeat.
      - rewrite repeat_length. unfold size. cbn [fold_right]. lia. }
    split.
    + unfold x1. cbn [data]. rewrite nth_tabulate by nia. cbv zeta.
      rewrite Nat.Div0.mod_mul, Nat.div_mul by lia.
      cbn [Nat.ltb Nat.leb]. exact Hone.
    + intros l Hl. unfold x1. cbn [data]. rewrite nth_tabulate by nia. cbv zeta.
      replace (i * (1 + k) + 1 + l) with ((1 + l) + i * (1 + k)) by lia.
      rewrite Nat.Div0.mod_add, Nat.div_add by lia.
      rewrite Nat.mod_small, Nat.div_small by lia.
      destruct (1 + l <? 1) eqn:E; [apply Nat.ltb_lt in E; lia|].
      f_equal. lia.
Qed.

Lemma backward_ok (self : AffineLayer.t A) ishape cast w1 x1 dy n m :
  AffineLayer.dtype self = Some cast ->
  AffineLayer.input_shape self = Some ishape ->
  AffineLayer.w self = Some w1 ->
  AffineLayer.x self = Some x1 ->
  np_prod (AffineLayer.output_shape self) = NpInt m ->
  shape w1 = [1 + as_nat (np_prod ishape); m] ->
  wf w1 ->
  shape x1 = [n; 1 + as_nat (np_prod ishape)] ->
  shape dy = batch_shape (AffineLayer.output_shape self) n -> wf dy ->
  let dyf := mk_ndarray [n; m] (data dy) in
  exists xt g w' wt b,
    AffineLayer.__backward F self dy
    = ok (AffineLayer.mk (AffineLayer.output_shape self)
            (AffineLayer.weight_initialization self) (Some x1)
            (AffineLayer.multi_channels_image self) (Some cast) (Some ishape)
            (Some w1)
            (Some (amap (f_mul F (f_div F (cast (f_one F)) (f_of_nat F n))) g))
            (AffineLayer.fire self)
            (Some (mk_ndarray (batch_shape ishape n) (data b)))) /\
    T_ (f_zero F) x1 = ok xt /\
    dot (f_zero F) (f_add F) (f_mul F) xt dyf = ok g /\
    shape g = [1 + as_nat (np_prod ishape); m] /\
    drop_row0 w1 = ok w' /\
    shape w' = [as_nat (np_prod ishape); m] /\
    data w' = skipn m (data w1) /\
    T_ (f_zero F) w' = ok wt /\
    dot (f_zero F) (f_add F) (f_mul F) dyf wt = ok b /\
    shape b = [n; as_nat (np_prod ishape)].
Proof.
  intros Hd Hi Hw Hx Hm Hws Hwwf Hxs Hdys Hdwf dyf.
  set (k := as_nat (np_prod ishape)) in *.
  assert (Hdyfs : shape dyf = [n; m]) by reflexivity.
  destruct (T_ok (f_zero F) x1 n (1 + k) Hxs) as (xt & Hxt & Hxts & _).
  destruct (dot_ok (f_zero F) (f_add F) (f_mul F) xt dyf (1 + k) n m Hxts Hdyfs)
    as (g & Hg & Hgs & _).
  destruct (drop_row0_ok w1 k m Hws Hwwf) as (w' & Hw' & Hw's & _ & Hw'd).
  destruct (T_ok (f_zero F) w' k m Hw's) as (wt & Hwt & Hwts & _).
  destruct (dot_ok (f_zero F) (f_add F) (f_mul F) dyf wt n m k Hdyfs Hwts)
    as (b & Hb & Hbs & Hbwf).
  exists xt, g, w', wt, b.
  split; [|repeat split; assumption].
  unfold AffineLayer.__backward.
  rewrite (flat_form dy (AffineLayer.output_shape self) n Hdys Hdwf).
  rewrite Hm. cbn [as_nat bind ok]. fold dyf.
  rewrite Hx. cbn [attr bind ok]. unfold shape0. rewrite Hxs. cbn [bind ok].
  rewrite Hd. cbn [attr bind ok]. rewrite Hxt. cbn [bind ok].
  rewrite Hg. cbn [bind ok]. rewrite Hw. cbn [attr bind ok].
  rewrite Hw'. cbn [bind ok]. rewrite Hwt. cbn [bind ok].
  rewrite Hb. cbn [bind ok]. rewrite Hi. cbn [attr bind ok].
  rewrite (batch_form b ishape n Hbs Hbwf). reflexivity.
Qed.

End Layer.

(** [C10] [AffineLayer] folds the bias into its weight matrix.  After
    [set_parent] the weight has shape (1 + prod(input_shape),
    prod(output_shape)), its first row is zero and the rows below are the
    initial weights, cast to the dtype.  [forward] flattens an image-form
    batch and puts a column of ones in front of it, so that
    fire = [1 | x] . w (put back into the image form when the output shape
    is an image shape).  [backward] flattens an image-form gradient and
    computes backfire = dy . w[1:, :]^T, without the bias row (put into
    the form of the input), and dw = (1/batch_size) * x^T . dy for the
    augmented x, of the shape of w.
    The output shape is an int or a tuple that is not empty: [np.prod(())]
    is the float 1.0, which [np.zeros] refuses, so that [set_parent] never
    returns for it.  The initializer returns a (rows, cols) matrix, and
    the dtype's cast keeps 0. *)
Theorem affine_bias_folding {A} (F : float_ops A) (self : AffineLayer.t A)
    ishape cast w0 m :
  AffineLayer.dtype self = Some cast ->
  cast (f_zero F) = f_zero F ->
  np_prod (AffineLayer.output_shape self) = NpInt m ->
  AffineLayer.weight_initialization self (np_prod ishape) (NpInt m) = ok w0 ->
  shape w0 = [as_nat (np_prod ishape); m] ->
  wf w0 ->
  let k := as_nat (np_prod ishape) in
  let oshape := AffineLayer.output_shape self in
  exists self1 w1,
    AffineLayer.set_parent F self ishape = ok self1 /\
    AffineLayer.w self1 = Some w1 /\
    AffineLayer.dw self1 = Some (zeros_like (f_zero F) w1) /\
    shape w1 = [1 + k; m] /\
    (forall j, j < m -> nth j (data w1) (f_zero F) = f_zero F) /\
    (forall p, p < length (data w0) ->
       nth (m + p) (data w1) (f_zero F) = cast (nth p (data w0) (f_zero F))) /\
    forall x n, shape x = batch_shape ishape n -> wf x ->
      exists self2 x1 y,
        AffineLayer.__forward F self1 x = ok self2 /\
        AffineLayer.x self2 = Some x1 /\
        shape x1 = [n; 1 + k] /\
        (forall i, i < n ->
           nth (i * (1 + k)) (data x1) (f_zero F) = cast (f_one F) /\
           forall l, l < k ->
             nth (i * (1 + k) + 1 + l) (data x1) (f_zero F)
             = nth (i * k + l) (data x) (f_zero F)) /\
        dot (f_zero F) (f_add F) (f_mul F) x1 w1 = ok y /\
        shape y = [n; m] /\
        AffineLayer.fire self2
        = Some (mk_ndarray (batch_shape oshape n) (data y)) /\
        forall dy, shape dy = batch_shape oshape n -> wf dy ->
          let dyf := mk_ndarray [n; m] (data dy) in
          exists self3 xt g w' wt b,
            AffineLayer.__backward F self2 dy = ok self3 /\
            T_ (f_zero F) x1 = ok xt /\
            dot (f_zero F) (f_add F) (f_mul F) xt dyf = ok g /\
            AffineLayer.dw self3
            = Some (amap (f_mul F (f_div F (cast (f_one F)) (f_of_nat F n))) g) /\
            shape g = shape w1 /\
            drop_row0 w1 = ok w' /\
            data w' = skipn m (data w1) /\
            T_ (f_zero F) w' = ok wt /\
            dot (f_zero F) (f_add F) (f_mul F) dyf wt = ok b /\
            shape b = [n; k] /\
            AffineLayer.backfire self3
            = Some (mk_ndarray (batch_shape ishape n) (data b)).
Proof.
  intros Hd Hc Hm Hw Hs Hwf k oshape.
  destruct (set_parent_ok F self ishape cast w0 m Hd Hc Hm Hw Hs Hwf)
    as (w1 & Hsp & Hw1s & Hw1wf & Hrow & Hrest).
  eexists. exists w1. split; [exact Hsp|].
  cbn [AffineLayer.w AffineLayer.dw].
  split; [reflexivity|]. split; [reflexivity|]. split; [exact Hw1s|].
  split; [exact Hrow|]. split; [exact Hrest|].
  intros x n Hxs Hxwf.
  match goal with
  | |- context [AffineLayer.__forward F ?S x] => set (self1 := S)
  end.
  destruct (forward_ok F self1 ishape cast w1 x n m)
    as (x1 & y & Hfw & Hx1s & Hx1wf & Hcols & Hy & Hys & _);
    try reflexivity; try assumption.
  eexists. exists x1, y. split; [exact Hfw|].
  cbn [AffineLayer.x AffineLayer.fire].
  split; [reflexivity|]. split; [exact Hx1s|]. split; [exact Hcols|].
  split; [exact Hy|]. split; [exact Hys|]. split; [reflexivity|].
  intros dy Hdys Hdwf.
  match goal with
  | |- context [AffineLayer.__backward F ?S dy] => set (self2 := S)
  end.
  destruct (backward_ok F self2 ishape cast w1 x1 dy n m)
    as (xt & g & w' & wt & b & Hbw & Hxt & Hg & Hgs & Hw' & Hw's & Hw'd
        & Hwt & Hb & Hbs);
    try reflexivity; try assumption.
  eexists. exists xt, g, w', wt, b. split; [exact Hbw|].
  cbn [AffineLayer.dw AffineLayer.backfire].
  repeat split; try assumption; try reflexivity.
  rewrite Hgs, Hw1s. reflexivity.
Qed.

(** A layer with 2 outputs over the integers, all initial weights 1, wired
    after an image of shape (1, 2, 2): four inputs, the batch in image
    form. *)
Lemma affine_bias_folding_witness :
  exists self1 w1 self2 y self3 b,
    AffineLayer.set_parent Z_ops
      (AffineLayer.set_dtype
         (AffineLayer.init (ShapeInt 2) AffineLayer.ones_initializer)
         (fun v => v))
      (ShapeTuple [1; 2; 2]) = ok self1 /\
    AffineLayer.w self1 = Some w1 /\
    shape w1 = [1 + 4; 2] /\
    (forall j, j < 2 -> nth j (data w1) 0%Z = 0%Z) /\
    AffineLayer.__forward Z_ops self1 (mk_ndarray [1; 1; 2; 2] [1; 2; 3; 4]%Z)
    = ok self2 /\
    AffineLayer.fire self2 = Some (mk_ndarray [1; 2] (data y)) /\
    AffineLayer.__backward Z_ops self2 (mk_ndarray [1; 2] [1; -1]%Z) = ok self3 /\
    AffineLayer.backfire self3 = Some (mk_ndarray [1; 1; 2; 2] (data b)) /\
    shape b = [1; 4].
Proof.
  destruct (affine_bias_folding Z_ops
              (AffineLayer.set_dtype
                 (AffineLayer.init (ShapeInt 2) AffineLayer.ones_initializer)
                 (fun v => v))
              (ShapeTuple [1; 2; 2]) (fun v => v)
              (mk_ndarray [4; 2] (repeat 1%Z 8)) 2
              eq_refl eq_refl eq_refl eq_refl eq_refl eq_refl)
    as (self1 & w1 & Hsp & Hw & _ & Hs & Hrow & _ & Hfwd).
  destruct (Hfwd (mk_ndarray [1; 1; 2; 2] [1; 2; 3; 4]%Z) 1 eq_refl eq_refl)
    as (self2 & x1 & y & Hf & _ & _ & _ & Hy & _ & Hfire & Hbwd).
  destruct (Hbwd (mk_ndarray [1; 2] [1; -1]%Z) eq_refl eq_refl)
    as (self3 & xt & g & w' & wt & b & Hb & _ & _ & _ & _ & _ & _ & _ & _
        & Hbs & Hbf).
  exists self1, w1, self2, y, self3, b.
  repeat split; assumption.
Defined.

(** An affine layer wired after an image of shape (1, 2, 2): its backward
    step returns a backfire of the image shape. *)
Lemma affine_layer_image_backward_ok :
  exists self1 self2 self3 b,
    AffineLayer.set_parent Z_ops
      (AffineLayer.set_dtype
         (AffineLayer.init (ShapeInt 2) AffineLayer.ones_initializer)
         (fun v => v))
      (ShapeTuple [1; 2; 2]) = ok self1 /\
    AffineLayer.__forward Z_ops self1 (mk_ndarray [1; 1; 2; 2] [1; 2; 3; 4]%Z)
    = ok self2 /\
    AffineLayer.__backward Z_ops self2 (mk_ndarray [1; 2] [1; -1]%Z) = ok self3 /\
    AffineLayer.backfire self3 = Some b /\
    shape b = [1; 1; 2; 2].
Proof.
  eexists. eexists. eexists. eexists.
  split; [vm_compute; reflexivity|].
  split; [vm_compute; reflexivity|].
  split; [vm_compute; reflexivity|].
  split; reflexivity.
Qed.

(** The empty tuple as output shape: [set_parent] raises TypeError. *)
Lemma affine_empty_output_shape_raises :
  AffineLayer.set_parent Z_ops
    (AffineLayer.set_dtype
       (AffineLayer.init (ShapeTuple []) (fun _ _ => ok (scalar 0%Z)))
       (fun v => v))
    (ShapeInt 3)
  = raise (TypeError
             "'numpy.float64' object cannot be interpreted as an integer").
Proof. reflexivity. Qed.

End AffineFacts.

(** ** The back-propagation engine *)

Module EngineFacts.

Import BackPropagation.

Section Monad.

Context {A net optimizer : Type}.

Implicit Types s : @state A net optimizer.

(** *** The state and error monad *)

Lemma mbind_ok {X Y} (c : @M A net optimizer X)
    (k : X -> @M A net optimizer Y) s s' (y : Y) :
  mbind c k s = ok (y, s') ->
  exists x s1, c s = ok (x, s1) /\ k x s1 = ok (y, s').
Proof.
  unfold mbind. destruct (c s) as [e | [x s1]]; [discriminate|].
  intros H. now exists x, s1.
Qed.

Lemma lift_ok {X} (r : result X) s s' (x : X) :
  lift r s = ok (x, s') -> r = ok x /\ s' = s.
Proof.
  unfold lift. destruct r as [e | x0]; [discriminate|].
  unfold ok. intros H. injection H as -> ->. now split.
Qed.

Lemma ret_ok {X} (x y : X) s s' :
  ret x s = ok (y, s') -> y = x /\ s' = s.
Proof. unfold ret, ok. intros H. injection H as -> ->. now split. Qed.

Lemma gets_ok {X} (f : @state A net optimizer -> X) s s' (x : X) :
  gets f s = ok (x, s') -> x = f s /\ s' = s.
Proof. unfold gets, ok. intros H. injection H as <- <-. now split. Qed.

Lemma emit_ok (e : event) s s' u :
  emit e s = ok (u, s') ->
  log s' = log s ++ [e] /\ chain s' = chain s /\ optimizers s' = optimizers s
  /\ batch_size s' = batch_size s /\ lc s' = lc s /\ dtype s' = dtype s.
Proof. unfold emit, ok. intros H. injection H as _ <-. now cbn. Qed.

Lemma call_ok (f : net -> result net) s s' u :
  call f s = ok (u, s') ->
  f (chain s) = ok (chain s') /\ log s' = log s
  /\ batch_size s' = batch_size s.
Proof.
  unfold call, get_chain, put_chain, mbind, lift, ok.
  destruct (f (chain s)) as [e | c]; [discriminate|].
  intros H. injection H as _ <-. now cbn.
Qed.

End Monad.

(** Inversion of a successful run, one monadic step at a time. *)
Tactic Notation "minv" hyp(H) "as" ident(x) ident(s) ident(H1) ident(H2) :=
  apply mbind_ok in H; destruct H as (x & s & H1 & H2).

(** Reading the fields of a state that is written out. *)
Ltac state_fields :=
  cbn [bind optimizers chain log epochs batch_size optimizer_template lc dtype].

(** *** Reading the log *)

Section Log.

Context {A : Type}.

Implicit Types l : list (@event A).

Lemma forward_inputs_app l l' :
  forward_inputs (l ++ l') = forward_inputs l ++ forward_inputs l'.
Proof.
  induction l as [|e l IH]; [reflexivity|].
  destruct e; cbn [app forward_inputs]; now rewrite IH.
Qed.

Lemma optimize_keys_app l l' :
  optimize_keys (l ++ l') = optimize_keys l ++ optimize_keys l'.
Proof.
  induction l as [|e l IH]; [reflexivity|].
  destruct e; cbn [app optimize_keys]; now rewrite IH.
Qed.

Lemma count_optimize_keys key l :
  count_optimize key l = count_occ Nat.eq_dec (optimize_keys l) key.
Proof.
  induction l as [|e l IH]; [reflexivity|].
  destruct e; cbn [count_optimize optimize_keys count_occ]; try exact IH.
  rewrite IH. destruct (Nat.eq_dec key0 key) as [->|N].
  - now rewrite Nat.eqb_refl.
  - apply Nat.eqb_neq in N. now rewrite N.
Qed.

End Log.

(** *** Batches *)

Section Batches.

Context {A : Type}.

Lemma step_count_zero bs : 0 < bs -> step_count 0 bs = 0.
Proof. intros H. unfold step_count. apply Nat.div_small. lia. Qed.

Lemma step_count_step rem bs :
  0 < bs -> 0 < rem ->
  step_count rem bs = S (step_count (rem - Nat.min bs rem) bs).
Proof.
  intros Hbs Hrem. unfold step_count.
  destruct (Nat.le_gt_cases rem bs) as [L | G].
  - rewrite Nat.min_r by exact L. rewrite Nat.sub_diag.
    rewrite (Nat.div_small (0 + bs - 1)) by lia.
    symmetry. apply (Nat.div_unique _ _ _ (rem - 1)); lia.
  - rewrite Nat.min_l by lia.
    replace (rem + bs - 1) with ((rem - bs + bs - 1) + 1 * bs) by lia.
    rewrite Nat.div_add by lia. lia.
Qed.

Lemma batch_sizes_length fuel rem bs :
  0 < bs -> rem <= fuel ->
  length (batch_sizes fuel rem bs) = step_count rem bs.
Proof.
  intros Hbs. revert rem.
  induction fuel as [|fuel IH]; intros rem Hf; cbn [batch_sizes].
  - replace rem with 0 by lia. now rewrite step_count_zero.
  - destruct (Nat.eqb_spec rem 0) as [-> | N].
    + now rewrite step_count_zero.
    + cbn [length]. rewrite IH by lia. symmetry.
      apply step_count_step; lia.
Qed.

Lemma batch_sizes_sum fuel rem bs :
  0 < bs -> rem <= fuel ->
  fold_right Nat.add 0 (batch_sizes fuel rem bs) = rem.
Proof.
  intros Hbs. revert rem.
  induction fuel as [|fuel IH]; intros rem Hf; cbn [batch_sizes].
  - cbn. lia.
  - destruct (Nat.eqb_spec rem 0) as [-> | N]; [reflexivity|].
    cbn [fold_right]. rewrite IH; lia.
Qed.

Lemma batch_sizes_bounds fuel rem bs k :
  0 < bs -> In k (batch_sizes fuel rem bs) -> 0 < k <= bs.
Proof.
  intros Hbs. revert rem.
  induction fuel as [|fuel IH]; intros rem; cbn [batch_sizes]; [intros []|].
  destruct (Nat.eqb_spec rem 0) as [-> | N]; [intros []|].
  intros [<- | H]; [lia | exact (IH _ H)].
Qed.

Lemma batch_sizes_full fuel rem bs k :
  In k (removelast (batch_sizes fuel rem bs)) -> k = bs.
Proof.
  revert rem.
  induction fuel as [|fuel IH]; intros rem; cbn [batch_sizes]; [intros []|].
  destruct (Nat.eqb_spec rem 0) as [-> | N]; [intros []|].
  destruct fuel as [|fuel']; [intros []|].
  cbn [batch_sizes]. cbn [batch_sizes] in IH.
  destruct (Nat.eqb_spec (rem - Nat.min bs rem) 0) as [Z | NZ]; [intros []|].
  intros [<- | H]; [lia|].
  specialize (IH (rem - Nat.min bs rem)).
  destruct (Nat.eqb_spec (rem - Nat.min bs rem) 0); [contradiction|].
  exact (IH H).
Qed.

Context (x : ndarray A) (d : nat) (rest : list nat).
Hypothesis Hx : shape x = d :: rest.

Lemma slice_rows_shape i k :
  i + k <= d ->
  exists b, slice_rows x i (i + k) = ok b /\ shape b = k :: rest.
Proof.
  intros H. unfold slice_rows. rewrite Hx. eexists. split; [reflexivity|].
  cbn [shape]. f_equal. lia.
Qed.

Lemma consecutive_batches_shapes sizes :
  forall start, start + fold_right Nat.add 0 sizes <= d ->
  map shape (consecutive_batches x start sizes) = map (fun k => k :: rest) sizes
  /\ length (consecutive_batches x start sizes) = length sizes.
Proof.
  induction sizes as [|k sizes IH]; intros start H; [now split|].
  cbn [fold_right] in H. cbn [consecutive_batches].
  destruct (slice_rows_shape start k) as (b & -> & Hs); [lia|].
  destruct (IH (start + k)) as [IH1 IH2]; [lia|].
  unfold ok. cbn [map length]. now rewrite Hs, IH1, IH2.
Qed.

(** The slices [x[i:end]] the loop of [__train_one_epoch] takes, for [i]
    in [range(0, data_num, batch_size)], are the consecutive batches. *)
Lemma range_slices_are_batches bs :
  0 < bs ->
  forall fuel start rem, rem <= fuel -> start + rem = d ->
  concat (map (fun k =>
                 let i := start + k * bs in
                 match slice_rows x i (if d <? i + bs then d else i + bs) with
                 | inr b => [b]
                 | inl _ => []
                 end)
              (seq 0 (step_count rem bs)))
  = consecutive_batches x start (batch_sizes fuel rem bs).
Proof.
  intros Hbs.
  induction fuel as [|fuel IH]; intros start rem Hf Hd; cbn [batch_sizes].
  - replace rem with 0 by lia. now rewrite step_count_zero.
  - destruct (Nat.eqb_spec rem 0) as [-> | N].
    + now rewrite step_count_zero.
    + rewrite (step_count_step rem bs) by lia.
      cbn [seq map concat consecutive_batches]. cbv zeta.
      replace (start + 0 * bs) with start by lia.
      replace (if d <? start + bs then d else start + bs)
        with (start + Nat.min bs rem)
        by (destruct (Nat.ltb_spec d (start + bs)); lia).
      destruct (slice_rows_shape start (Nat.min bs rem)) as (b & -> & _);
        [lia|].
      unfold ok. cbn [app]. f_equal.
      destruct (Nat.le_gt_cases bs rem) as [L | G].
      * rewrite <- (IH (start + Nat.min bs rem) (rem - Nat.min bs rem))
          by lia.
        rewrite <- seq_shift, map_map. f_equal. apply map_ext. intros k.
        rewrite Nat.min_l by exact L.
        now replace (start + S k * bs) with (start + bs + k * bs) by lia.
      * rewrite Nat.min_r by lia. rewrite Nat.sub_diag.
        rewrite step_count_zero by exact Hbs. cbn [seq map concat].
        destruct fuel; reflexivity.
Qed.

End Batches.

Section Engine.

Context {A : Type} (F : float_ops A) {net optimizer : Type}.
Context (E : collaborators A net optimizer).

Implicit Types s : @state A net optimizer.

(** What a loop leaves in the log, from what each round leaves: the keys of
    the optimizers asked, the inputs of the forward passes, and a property
    [P] of every event. *)
Lemma for_each_log {X} (l : list X) (body : X -> @M A net optimizer unit)
    (keys : X -> list nat) (fwd : X -> list (ndarray A))
    (P : @event A -> bool) :
  (forall x s s' u, In x l -> body x s = ok (u, s') ->
     exists evs, log s' = log s ++ evs /\ optimize_keys evs = keys x
                 /\ forward_inputs evs = fwd x /\ forallb P evs = true
                 /\ batch_size s' = batch_size s) ->
  forall s s' u, for_each l body s = ok (u, s') ->
    exists evs, log s' = log s ++ evs
                /\ optimize_keys evs = concat (map keys l)
                /\ forward_inputs evs = concat (map fwd l)
                /\ forallb P evs = true
                /\ batch_size s' = batch_size s.
Proof.
  induction l as [|x l IH]; intros Hbody s s' u H.
  - cbn [for_each] in H. apply ret_ok in H. destruct H as [_ ->].
    exists []. rewrite app_nil_r. now cbn.
  - cbn [for_each] in H. minv H as v t H0 H1.
    destruct (Hbody x s t v (in_eq _ _) H0) as (ev1 & L1 & K1 & F1 & P1 & B1).
    destruct (IH (fun y s1 s2 u' Hy => Hbody y s1 s2 u' (in_cons _ _ _ Hy))
                 t s' u H1) as (ev2 & L2 & K2 & F2 & P2 & B2).
    exists (ev1 ++ ev2). rewrite L2, L1, <- app_assoc.
    rewrite optimize_keys_app, forward_inputs_app, forallb_app.
    cbn [map concat]. rewrite K1, K2, F1, F2, P1, P2, B2, B1.
    now repeat split.
Qed.

(** One round of [__optimize_network]. *)
Lemma optimize_layer_log i s s' u :
  (if layer_has_weight E i then
     mbind (gets optimizers) (fun d =>
     mbind (lift (dict_get d (i + 1))) (fun o =>
     mbind get_chain (fun c =>
     mbind (lift (layer_w E i c)) (fun w =>
     mbind (lift (layer_dw E i c)) (fun dw =>
     mbind (emit (EOptimize (i + 1) w dw)) (fun _ =>
     mbind (lift (optimize E o w dw)) (fun ow =>
     mbind (put_chain (layer_set_w E i (snd ow) c)) (fun _ =>
     mbind (gets optimizers) (fun d =>
     put_optimizers (dict_set d (i + 1) (fst ow)))))))))))
   else ret tt) s = ok (u, s') ->
  exists evs, log s' = log s ++ evs
              /\ optimize_keys evs = (if layer_has_weight E i then [i + 1] else [])
              /\ forward_inputs evs = [] /\ forallb is_optimize evs = true
              /\ batch_size s' = batch_size s.
Proof.
  destruct (layer_has_weight E i).
  - intros H.
    minv H as d t H0 H. apply gets_ok in H0. destruct H0 as [-> ->].
    minv H as o t H0 H. apply lift_ok in H0. destruct H0 as [Hd ->].
    minv H as c t H0 H. unfold get_chain, ok in H0. injection H0 as <- <-.
    minv H as w t H0 H. apply lift_ok in H0. destruct H0 as [Hw ->].
    minv H as dw t H0 H. apply lift_ok in H0. destruct H0 as [Hdw ->].
    minv H as v t H0 H. apply emit_ok in H0. destruct H0 as (L & C & O & B & _).
    minv H as ow t1 H0 H. apply lift_ok in H0. destruct H0 as [Ho ->].
    minv H as v1 t1 H0 H. unfold put_chain, ok in H0. injection H0 as _ <-.
    minv H as d1 t1 H0 H. apply gets_ok in H0. destruct H0 as [-> ->].
    unfold put_optimizers, ok in H. injection H as _ <-. cbn.
    exists [EOptimize (i + 1) w dw]. rewrite L, B. now cbn.
  - intros H. apply ret_ok in H. destruct H as [_ ->].
    exists []. rewrite app_nil_r. now cbn.
Qed.

Lemma concat_map_if (p : nat -> bool) (l : list nat) :
  concat (map (fun i => if p i then [i + 1] else []) l)
  = map (fun i => i + 1) (filter p l).
Proof.
  induction l as [|i l IH]; [reflexivity|].
  cbn [map concat filter]. rewrite IH. now destruct (p i).
Qed.

Lemma optimize_network_log n s s' u :
  __optimize_network E n s = ok (u, s') ->
  exists evs, log s' = log s ++ evs
              /\ optimize_keys evs = weight_keys E n
              /\ forward_inputs evs = [] /\ forallb is_optimize evs = true
              /\ batch_size s' = batch_size s.
Proof.
  unfold __optimize_network. intros H.
  eapply (for_each_log _ _
            (fun i => if layer_has_weight E i then [i + 1] else [])
            (fun _ => []) is_optimize) in H.
  - destruct H as (evs & L & K & Fw & P & B). exists evs.
    rewrite L, K, Fw, P, B. unfold weight_keys. rewrite concat_map_if.
    repeat split. clear. induction (seq 0 n); [reflexivity|assumption].
  - intros i t t' v _ Hi. exact (optimize_layer_log i t t' v Hi).
Qed.

Lemma first_layer_ok n i : first_layer n = ok i -> n <> 0 /\ i = 0.
Proof.
  unfold first_layer. destruct (Nat.eqb_spec n 0); [discriminate|].
  unfold ok. intros H. injection H as <-. now split.
Qed.

Lemma last_layer_ok n i : last_layer n = ok i -> n <> 0 /\ i = n - 1.
Proof.
  unfold last_layer. destruct (Nat.eqb_spec n 0); [discriminate|].
  unfold ok. intros H. injection H as <-. now split.
Qed.

(** A successful [__train_one_batch], step by step. *)
Lemma train_one_batch_inv n x y s s' u :
  __train_one_batch F E n x y s = ok (u, s') ->
  exists c1 pred dy c2 evs,
    n <> 0
    /\ layer_forward E 0 x (chain s) = ok c1
    /\ layer_fire E (n - 1) c1 = ok pred
    /\ map2 (f_zero F) (f_zero F) (f_sub F) pred y = ok dy
    /\ layer_backward E (n - 1) dy c1 = ok c2
    /\ log s' = log s ++ EForward 0 x :: EBackward (n - 1) dy :: evs
    /\ forallb is_optimize evs = true
    /\ optimize_keys evs = weight_keys E n
    /\ forward_inputs evs = []
    /\ batch_size s' = batch_size s.
Proof.
  unfold __train_one_batch. intros H.
  minv H as i0 t H0 H. apply lift_ok in H0. destruct H0 as [H0 ->].
  apply first_layer_ok in H0. destruct H0 as [Hn ->].
  minv H as v t1 H0 H. apply emit_ok in H0.
  destruct H0 as (L1 & C1 & _ & B1 & _).
  minv H as v1 t2 H0 H. apply call_ok in H0. destruct H0 as (Hf & L2 & B2).
  minv H as il t3 H0 H. apply lift_ok in H0. destruct H0 as [H0 ->].
  apply last_layer_ok in H0. destruct H0 as [_ ->].
  minv H as c t3 H0 H. unfold get_chain, ok in H0. injection H0 as <- <-.
  minv H as pred t3 H0 H. apply lift_ok in H0. destruct H0 as [Hfire ->].
  minv H as dy t3 H0 H. apply lift_ok in H0. destruct H0 as [Hdy ->].
  minv H as v2 t3 H0 H. apply emit_ok in H0.
  destruct H0 as (L3 & C3 & _ & B3 & _).
  minv H as v3 t4 H0 H. apply call_ok in H0. destruct H0 as (Hb & L4 & B4).
  apply optimize_network_log in H. destruct H as (evs & L5 & K & Fw & P & B5).
  exists (chain t2), pred, dy, (chain t4), evs.
  rewrite C1 in Hf. rewrite C3 in Hb.
  repeat split; try assumption.
  - rewrite L5, L4, L3, L2, L1, <- !app_assoc. reflexivity.
  - congruence.
Qed.

Lemma concat_const_length {X Y Z} (c : list Z) (l : list X) (l' : list Y) :
  length l = length l' ->
  concat (map (fun _ => c) l) = concat (map (fun _ => c) l').
Proof.
  revert l'. induction l as [|a l IH]; intros [|b l'] H; try discriminate.
  - reflexivity.
  - cbn [map concat]. f_equal. apply IH. now injection H.
Qed.

Lemma count_occ_concat_const {X} (c : list nat) (l : list X) k :
  count_occ Nat.eq_dec (concat (map (fun _ => c) l)) k
  = length l * count_occ Nat.eq_dec c k.
Proof.
  induction l as [|a l IH]; [reflexivity|].
  cbn [map concat length]. rewrite count_occ_app, IH. lia.
Qed.

(** Every layer with a weight has exactly one key. *)
Lemma weight_keys_once n i :
  i < n -> layer_has_weight E i = true ->
  count_occ Nat.eq_dec (weight_keys E n) (i + 1) = 1.
Proof.
  intros Hi Hw. unfold weight_keys.
  apply NoDup_count_occ'.
  - apply NoDup_map_NoDup_ForallPairs; [intros a b _ _; lia|].
    apply NoDup_filter, seq_NoDup.
  - apply in_map_iff. exists i. split; [reflexivity|].
    apply filter_In. split; [apply in_seq; lia | exact Hw].
Qed.

(** A successful [__train_one_epoch]: the batch inputs of the forward
    passes and the optimizers asked. *)
Lemma train_one_epoch_inv n x y d rest s s' u :
  (0 < batch_size s)%Z ->
  shape x = d :: rest ->
  __train_one_epoch F E n x y s = ok (u, s') ->
  exists evs,
    log s' = log s ++ evs
    /\ forward_inputs evs
       = consecutive_batches x 0 (batch_sizes d d (Z.to_nat (batch_size s)))
    /\ optimize_keys evs
       = concat (map (fun _ => weight_keys E n)
                     (batch_sizes d d (Z.to_nat (batch_size s)))).
Proof.
  intros Hbs Hx. unfold __train_one_epoch. intros H.
  minv H as d' t H0 H. apply lift_ok in H0. destruct H0 as [H0 ->].
  unfold shape0 in H0. rewrite Hx in H0. injection H0 as <-.
  minv H as bs t H0 H. apply gets_ok in H0. destruct H0 as [-> ->].
  minv H as r t H0 H. apply lift_ok in H0. destruct H0 as [Hr ->].
  unfold py_range in Hr.
  destruct (Z.eqb_spec (batch_size s) 0) as [Z0 | _]; [lia|].
  destruct (Z.ltb_spec (batch_size s) 0) as [Z0 | _]; [lia|].
  injection Hr as <-.
  set (bn := Z.to_nat (batch_size s)) in *.
  assert (Hbn : 0 < bn) by (unfold bn; lia).
  minv H as v t H0 H. apply emit_ok in H. destruct H as (L & _).
  eapply (for_each_log _ _
            (fun _ => weight_keys E n)
            (fun i => match slice_rows x i (if d <? i + bn then d else i + bn)
                      with inr b => [b] | inl _ => [] end)
            (fun _ => true)) in H0.
  - destruct H0 as (evs & L0 & K & Fw & _).
    exists (evs ++ [EProgressDone]).
    rewrite L, L0, <- app_assoc, forward_inputs_app, optimize_keys_app.
    cbn [forward_inputs optimize_keys]. rewrite !app_nil_r, Fw, K.
    split; [reflexivity|]. split.
    + rewrite map_map.
      exact (range_slices_are_batches x d rest Hx bn Hbn d 0 d (le_n d) eq_refl).
    + apply concat_const_length.
      rewrite length_map, length_seq. symmetry.
      now apply batch_sizes_length.
  - intros i t0 t1 v0 _ Hi.
    minv Hi as xb t2 H1 Hi. apply lift_ok in H1. destruct H1 as [Hxb ->].
    minv Hi as yb t2 H1 Hi. apply lift_ok in H1. destruct H1 as [Hyb ->].
    minv Hi as v1 t2 H1 Hi. apply emit_ok in Hi.
    destruct Hi as (L2 & _ & _ & B2 & _).
    apply train_one_batch_inv in H1.
    destruct H1 as (c1 & pred & dy & c2 & evs & _ & _ & _ & _ & _ & L1 & _
                    & K & Fw & B1).
    exists (EForward 0 xb :: EBackward (n - 1) dy :: evs ++ [EProgress i d]).
    rewrite L2, L1, <- app_assoc. cbn [app].
    split; [reflexivity|].
    cbn [optimize_keys forward_inputs forallb].
    rewrite optimize_keys_app, forward_inputs_app, K, Fw.
    cbn [optimize_keys forward_inputs app]. rewrite app_nil_r.
    fold bn in Hxb. rewrite Hxb.
    repeat split; try reflexivity.
    + clear. induction (evs ++ [EProgress i d]); [reflexivity|assumption].
    + congruence.
Qed.

(** *** The engine against the training step of the specification *)

Lemma trained_id s : trained s (chain s) (optimizers s) [] = s.
Proof. destruct s. unfold trained. cbn. now rewrite app_nil_r. Qed.

Lemma trained_trained s c d evs c' d' evs' :
  trained (trained s c d evs) c' d' evs' = trained s c' d' (evs ++ evs').
Proof. unfold trained. cbn. now rewrite app_assoc. Qed.

Lemma mbind_assoc {X Y Z} (c : @M A net optimizer X)
    (k1 : X -> @M A net optimizer Y) (k2 : Y -> @M A net optimizer Z) s :
  mbind (mbind c k1) k2 s = mbind c (fun x => mbind (k1 x) k2) s.
Proof. unfold mbind. now destruct (c s) as [e | [x t]]. Qed.

(** The loop of [__optimize_network] over any list of layers makes the
    optimizer updates of the layers in it that have a weight. *)
Lemma optimize_loop_refines l : forall s,
  for_each l
    (fun i =>
       if layer_has_weight E i then
         mbind (gets optimizers) (fun d =>
         mbind (lift (dict_get d (i + 1))) (fun o =>
         mbind get_chain (fun c =>
         mbind (lift (layer_w E i c)) (fun w =>
         mbind (lift (layer_dw E i c)) (fun dw =>
         mbind (emit (EOptimize (i + 1) w dw)) (fun _ =>
         mbind (lift (optimize E o w dw)) (fun ow =>
         mbind (put_chain (layer_set_w E i (snd ow) c)) (fun _ =>
         mbind (gets optimizers) (fun d =>
         put_optimizers (dict_set d (i + 1) (fst ow)))))))))))
       else ret tt) s
  = settle s (optimizer_updates E (filter (layer_has_weight E) l)
                (chain s) (optimizers s)).
Proof.
  match goal with
  | |- forall s, for_each l ?B s = _ => set (body := B)
  end.
  induction l as [|i l IH]; intros s.
  - cbn [for_each filter optimizer_updates]. unfold ret, ok. cbn [settle].
    now rewrite trained_id.
  - cbn [for_each filter]. unfold mbind at 1. unfold body at 1.
    destruct (layer_has_weight E i) eqn:Hw.
    + cbn [optimizer_updates].
      unfold mbind, gets, lift, get_chain, emit, put_chain, put_optimizers, ok.
      cbn [optimizers chain log epochs batch_size optimizer_template lc dtype].
      destruct (dict_get (optimizers s) (i + 1)) as [e | o];
        cbn [bind]; [reflexivity|].
      destruct (layer_w E i (chain s)) as [e | w]; cbn [bind]; [reflexivity|].
      destruct (layer_dw E i (chain s)) as [e | dw]; cbn [bind]; [reflexivity|].
      destruct (optimize E o w dw) as [e | ow]; cbn [bind]; [reflexivity|].
      rewrite IH.
      cbn [optimizers chain log epochs batch_size optimizer_template lc dtype].
      destruct (optimizer_updates E (filter (layer_has_weight E) l)
                  (layer_set_w E i (snd ow) (chain s))
                  (dict_set (optimizers s) (i + 1) (fst ow)))
        as [e | [[c' d'] evs]]; cbn [bind settle fst snd]; [reflexivity|].
      unfold ok, trained.
      cbn [optimizers chain log epochs batch_size optimizer_template lc dtype].
      now rewrite <- app_assoc.
    + unfold ret, ok. apply IH.
Qed.

Lemma optimize_network_refines n s :
  __optimize_network E n s
  = settle s (optimizer_updates E (weight_layers E n) (chain s) (optimizers s)).
Proof. exact (optimize_loop_refines (seq 0 n) s). Qed.

(** [__train_one_batch] makes the weight update of the specification. *)
Lemma train_one_batch_refines n x y s :
  __train_one_batch F E n x y s
  = settle s (batch_update F E n x y (chain s) (optimizers s)).
Proof.
  unfold __train_one_batch, batch_update, first_layer, last_layer.
  destruct (n =? 0); [reflexivity|].
  unfold call.
  unfold mbind, lift, emit, get_chain, put_chain, ok.
  state_fields.
  destruct (layer_forward E 0 x (chain s)) as [e | c1];
    state_fields; [reflexivity|].
  destruct (layer_fire E (n - 1) c1) as [e | pred];
    state_fields; [reflexivity|].
  destruct (map2 (f_zero F) (f_zero F) (f_sub F) pred y) as [e | dy];
    state_fields; [reflexivity|].
  destruct (layer_backward E (n - 1) dy c1) as [e | c2];
    state_fields; [reflexivity|].
  rewrite optimize_network_refines. state_fields.
  destruct (optimizer_updates E (weight_layers E n) c2 (optimizers s))
    as [e | [[c' d'] evs]]; cbn [bind settle fst snd]; [reflexivity|].
  unfold ok, trained. state_fields.
  now rewrite <- !app_assoc.
Qed.

(** The batch loop of [__train_one_epoch], from any row on. *)
Lemma batch_loop_refines n x y d bs :
  0 < bs ->
  forall fuel start rem s, rem <= fuel -> start + rem = d ->
  mbind (for_each (map (fun k => start + k * bs) (seq 0 (step_count rem bs)))
           (fun i =>
              let e := i + bs in
              let e := if d <? e then d else e in
              mbind (lift (slice_rows x i e)) (fun xb =>
              mbind (lift (slice_rows y i e)) (fun yb =>
              mbind (__train_one_batch F E n xb yb) (fun _ =>
              emit (EProgress i d))))))
        (fun _ => emit EProgressDone) s
  = settle s (epoch_updates F E n d start (batch_sizes fuel rem bs) x y
                (chain s) (optimizers s)).
Proof.
  intros Hbs.
  match goal with
  | |- forall fuel start rem s, _ -> _ ->
         mbind (for_each _ ?B) _ s = _ => set (body := B)
  end.
  assert (Hdone : forall s,
            mbind (for_each [] body) (fun _ => emit EProgressDone) s
            = settle s (epoch_updates F E n d 0 [] x y (chain s) (optimizers s))).
  { intros s. reflexivity. }
  induction fuel as [|fuel IH]; intros start rem s Hf Hd; cbn [batch_sizes].
  - replace rem with 0 by lia. rewrite step_count_zero by exact Hbs.
    apply Hdone.
  - destruct (Nat.eqb_spec rem 0) as [-> | N].
    + rewrite step_count_zero by exact Hbs. apply Hdone.
    + rewrite (step_count_step rem bs) by lia.
      cbn [seq map for_each epoch_updates].
      replace (start + 0 * bs) with start by lia.
      rewrite mbind_assoc. unfold mbind at 1. unfold body at 1. cbv zeta.
      replace (if d <? start + bs then d else start + bs)
        with (start + Nat.min bs rem)
        by (destruct (Nat.ltb_spec d (start + bs)); lia).
      unfold mbind at 1. unfold lift at 1.
      destruct (slice_rows x start (start + Nat.min bs rem)) as [e | xb];
        cbn [bind]; [reflexivity|].
      unfold ok at 1. unfold mbind at 1. unfold lift at 1.
      destruct (slice_rows y start (start + Nat.min bs rem)) as [e | yb];
        cbn [bind]; [reflexivity|].
      unfold ok at 1. unfold mbind at 1.
      rewrite train_one_batch_refines.
      destruct (batch_update F E n xb yb (chain s) (optimizers s))
        as [e | [[c1 d1] evs]]; cbn [bind settle fst snd]; [reflexivity|].
      unfold ok at 1. unfold emit at 1. unfold ok at 1.
      assert (Hrest : map (fun k => start + k * bs)
                        (seq 1 (step_count (rem - Nat.min bs rem) bs))
                      = map (fun k => start + Nat.min bs rem + k * bs)
                          (seq 0 (step_count (rem - Nat.min bs rem) bs))).
      { destruct (Nat.le_gt_cases bs rem) as [L | G].
        - rewrite <- seq_shift, map_map. apply map_ext. intros k.
          rewrite Nat.min_l by exact L. lia.
        - rewrite Nat.min_r by lia. rewrite Nat.sub_diag.
          now rewrite step_count_zero by exact Hbs. }
      rewrite Hrest.
      rewrite (IH (start + Nat.min bs rem) (rem - Nat.min bs rem)) by lia.
      cbn [optimizers chain log epochs batch_size optimizer_template lc dtype
           trained].
      destruct (epoch_updates F E n d (start + Nat.min bs rem)
                  (batch_sizes fuel (rem - Nat.min bs rem) bs) x y c1 d1)
        as [e | [[c2 d2] evs']]; cbn [bind settle fst snd]; [reflexivity|].
      unfold ok, trained.
      cbn [optimizers chain log epochs batch_size optimizer_template lc dtype].
      now rewrite <- !app_assoc.
Qed.

(** The calls the optimizer updates leave in the log: one per layer, in
    order, and nothing else. *)
Lemma optimizer_updates_log ls : forall c d c' d' evs,
  optimizer_updates E ls c d = ok (c', d', evs) ->
  optimize_keys evs = map (fun i => i + 1) ls
  /\ forallb is_optimize evs = true
  /\ forward_inputs evs = []
  /\ count_finalize evs = 0.
Proof.
  induction ls as [|i ls IH]; intros c d c' d' evs H; cbn [optimizer_updates] in H.
  - unfold ok in H. injection H as <- <- <-. now cbn.
  - destruct (dict_get d (i + 1)) as [e | o]; cbn [bind] in H; [discriminate|].
    destruct (layer_w E i c) as [e | w]; cbn [bind] in H; [discriminate|].
    destruct (layer_dw E i c) as [e | dw]; cbn [bind] in H; [discriminate|].
    destruct (optimize E o w dw) as [e | ow]; cbn [bind] in H; [discriminate|].
    destruct (optimizer_updates E ls (layer_set_w E i (snd ow) c)
                (dict_set d (i + 1) (fst ow)))
      as [e | [[c1 d1] evs1]] eqn:Hr; cbn [bind fst snd] in H; [discriminate|].
    unfold ok in H. injection H as <- <- <-.
    destruct (IH _ _ _ _ _ Hr) as (K & P & Fw & Fin).
    cbn [optimize_keys forallb is_optimize forward_inputs count_finalize map andb].
    now rewrite K, P, Fw, Fin.
Qed.

(** [__train_one_epoch] with a positive [batch_size] trains on the
    consecutive chunks of the data. *)
Lemma train_one_epoch_refines n x y d rest s :
  (0 < batch_size s)%Z ->
  shape x = d :: rest ->
  __train_one_epoch F E n x y s
  = settle s (epoch_updates F E n d 0
                (batch_sizes d d (Z.to_nat (batch_size s))) x y
                (chain s) (optimizers s)).
Proof.
  intros Hbs Hx.
  rewrite <- (batch_loop_refines n x y d (Z.to_nat (batch_size s))
                ltac:(lia) d 0 d s (le_n d) eq_refl).
  unfold __train_one_epoch.
  unfold mbind at 1. cbv beta iota delta [lift shape0 ok]. rewrite Hx.
  cbv beta iota.
  unfold mbind at 1. cbv beta iota delta [gets ok].
  unfold mbind at 1. cbv beta iota delta [lift py_range ok].
  destruct (Z.eqb_spec (batch_size s) 0) as [Z0 | _]; [lia|].
  destruct (Z.ltb_spec (batch_size s) 0) as [Z0 | _]; [lia|].
  reflexivity.
Qed.

End Engine.

(** [C6] [__train_one_epoch] with a positive [batch_size] cuts the
    training data into consecutive chunks, in order: the chunk sizes add up
    to the number of rows, every chunk but the last has [batch_size] rows
    and the last has between 1 and [batch_size].  On each chunk of the
    inputs, with the chunk of the targets at the same rows, it makes one
    weight update ([epoch_updates]: forward, backward and the optimizer
    update of every layer that has a weight, on the chain and the
    optimizers as the chunk before left them); the engine ends with the
    chain and the optimizers of the last update, or raises what the first
    failing update raises.  In the log of a successful epoch the forward
    passes have the chunks as their inputs and the optimizer of every layer
    with a weight is asked exactly once per chunk. *)
Theorem train_one_epoch_batches {A} (F : float_ops A) {net optimizer}
    (E : collaborators A net optimizer) n x y d rest
    (s : @state A net optimizer) :
  (0 < batch_size s)%Z ->
  shape x = d :: rest ->
  let bs := Z.to_nat (batch_size s) in
  let sizes := batch_sizes d d bs in
  fold_right Nat.add 0 sizes = d
  /\ (forall k, In k (removelast sizes) -> k = bs)
  /\ (forall k, In k sizes -> 0 < k <= bs)
  /\ __train_one_epoch F E n x y s
     = settle s (epoch_updates F E n d 0 sizes x y (chain s) (optimizers s))
  /\ forall s', __train_one_epoch F E n x y s = ok (tt, s') ->
       exists evs,
         log s' = log s ++ evs
         /\ forward_inputs evs = consecutive_batches x 0 sizes
         /\ map shape (forward_inputs evs) = map (fun k => k :: rest) sizes
         /\ optimize_keys evs = concat (map (fun _ => weight_keys E n) sizes)
         /\ (forall i, i < n -> layer_has_weight E i = true ->
               count_optimize (i + 1) evs = length sizes).
Proof.
  intros Hbs Hx bs sizes.
  assert (Hbn : 0 < bs) by (unfold bs; lia).
  assert (Hsum : fold_right Nat.add 0 sizes = d)
    by (apply batch_sizes_sum; [exact Hbn | apply le_n]).
  split; [exact Hsum|].
  split; [intros k Hk; exact (batch_sizes_full _ _ _ _ Hk)|].
  split; [intros k Hk; exact (batch_sizes_bounds _ _ _ _ Hbn Hk)|].
  split; [exact (train_one_epoch_refines F E n x y d rest s Hbs Hx)|].
  intros s' H.
  destruct (train_one_epoch_inv F E n x y d rest s s' tt Hbs Hx H)
    as (evs & L & Fw & K).
  fold bs sizes in Fw, K.
  exists evs. repeat split.
  - exact L.
  - exact Fw.
  - rewrite Fw. apply (consecutive_batches_shapes x d rest Hx). lia.
  - exact K.
  - intros i Hi Hw. rewrite count_optimize_keys, K, count_occ_concat_const.
    rewrite (weight_keys_once E n i Hi Hw). lia.
Qed.

(** Ten rows in batches of three on the one-weight chain, the weight 1 at
    the start, all inputs 1 and all targets 0: chunks of 3, 3, 3 and 1
    rows and four updates of the weight, each taking the sum of the
    chunk's outputs off it (1, -2, 4, -8 and at last 0). *)
Lemma train_one_epoch_batches_witness :
  let x := mk_ndarray [10; 1] (repeat 1%Z 10) in
  let y := mk_ndarray [10; 1] (repeat 0%Z 10) in
  batch_sizes 10 10 3 = [3; 3; 3; 1]
  /\ exists s',
       __train_one_epoch Z_ops scale_chain 1 x y (scale_state 1 3 1)
       = ok (tt, s')
       /\ optimizers s' = [(1, 4)]
       /\ sn_w (chain s') = 0%Z
       /\ map shape (forward_inputs (log s'))
          = [[3; 1]; [3; 1]; [3; 1]; [1; 1]]
       /\ count_optimize 1 (log s') = 4.
Proof.
  intros x y. split; [reflexivity|].
  destruct (train_one_epoch_batches Z_ops scale_chain 1 x y 10 [1]
              (scale_state 1 3 1) eq_refl eq_refl)
    as (_ & _ & _ & Heq & Hlog).
  destruct (__train_one_epoch Z_ops scale_chain 1 x y (scale_state 1 3 1))
    as [e | [[] s']] eqn:Hrun.
  - vm_compute in Heq. discriminate.
  - exists s'. split; [reflexivity|].
    destruct (Hlog s' eq_refl) as (evs & L & _ & Sh & _ & Cnt).
    vm_compute in Heq. injection Heq as ->.
    split; [reflexivity|]. split; [reflexivity|].
    split; reflexivity.
Defined.

(** [C7] [__train_one_batch] returns exactly when the following calls
    return, and it makes them in this order: the forward pass of the root
    layer [layers[0]] on the batch inputs; the backward pass of the
    terminal layer [layers[-1]], seeded with [layers[-1].fire - y_train],
    where [fire] is read from the chain as that forward pass left it; and
    only then the optimizer updates ([optimizer_updates]), one for each
    layer that has a weight, in layer order, on the chain as the backward
    pass left it.  The engine ends with the chain and the optimizers the
    updates yield, and these calls in its log.  When the forward or the
    backward pass raises, the call raises the same and no optimizer is
    asked. *)
Theorem train_one_batch_order {A} (F : float_ops A) {net optimizer}
    (E : collaborators A net optimizer) n x y (s : @state A net optimizer) :
  (forall s',
     __train_one_batch F E n x y s = ok (tt, s') <->
     exists c1 pred dy c2 evs,
       n <> 0
       /\ layer_forward E 0 x (chain s) = ok c1
       /\ layer_fire E (n - 1) c1 = ok pred
       /\ map2 (f_zero F) (f_zero F) (f_sub F) pred y = ok dy
       /\ layer_backward E (n - 1) dy c1 = ok c2
       /\ optimizer_updates E (weight_layers E n) c2 (optimizers s)
          = ok (chain s', optimizers s', evs)
       /\ s' = trained s (chain s') (optimizers s')
                 (EForward 0 x :: EBackward (n - 1) dy :: evs)
       /\ forallb is_optimize evs = true
       /\ optimize_keys evs = weight_keys E n)
  /\ (forall e, n <> 0 ->
        layer_forward E 0 x (chain s) = inl e ->
        __train_one_batch F E n x y s = inl e)
  /\ (forall c1 pred dy e, n <> 0 ->
        layer_forward E 0 x (chain s) = ok c1 ->
        layer_fire E (n - 1) c1 = ok pred ->
        map2 (f_zero F) (f_zero F) (f_sub F) pred y = ok dy ->
        layer_backward E (n - 1) dy c1 = inl e ->
        __train_one_batch F E n x y s = inl e).
Proof.
  split; [|split].
  - intros s'. rewrite train_one_batch_refines.
    unfold batch_update, first_layer, last_layer. split.
    + intros H.
      destruct (Nat.eqb_spec n 0) as [|Hn]; [discriminate H|].
      cbn [bind ok] in H.
      destruct (layer_forward E 0 x (chain s)) as [e | c1] eqn:H1;
        cbn [bind ok settle] in H; [discriminate H|].
      destruct (layer_fire E (n - 1) c1) as [e | pred] eqn:H2;
        cbn [bind ok settle] in H; [discriminate H|].
      destruct (map2 (f_zero F) (f_zero F) (f_sub F) pred y) as [e | dy] eqn:H3;
        cbn [bind ok settle] in H; [discriminate H|].
      destruct (layer_backward E (n - 1) dy c1) as [e | c2] eqn:H4;
        cbn [bind ok settle] in H; [discriminate H|].
      destruct (optimizer_updates E (weight_layers E n) c2 (optimizers s))
        as [e | [[c' d'] evs]] eqn:Hou; cbn [bind ok settle fst snd] in H;
        [discriminate H|].
      injection H as <-.
      destruct (optimizer_updates_log E _ _ _ _ _ _ Hou) as (K & P & _).
      exists c1, pred, dy, c2, evs. cbn [trained chain optimizers].
      repeat split; assumption.
    + intros (c1 & pred & dy & c2 & evs & Hn & H1 & H2 & H3 & H4 & H5 & H6 & _).
      destruct (Nat.eqb_spec n 0) as [|_]; [contradiction|].
      cbn [bind ok]. rewrite H1. cbn [bind ok]. rewrite H2. cbn [bind ok].
      rewrite H3. cbn [bind ok]. rewrite H4. cbn [bind ok]. rewrite H5.
      cbn [bind ok settle fst snd]. do 2 f_equal.
      symmetry. exact H6.
  - intros e Hn H. rewrite train_one_batch_refines.
    unfold batch_update, first_layer.
    destruct (Nat.eqb_spec n 0) as [|_]; [contradiction|].
    cbn [bind ok]. now rewrite H.
  - intros c1 pred dy e Hn H1 H2 H3 H4. rewrite train_one_batch_refines.
    unfold batch_update, first_layer, last_layer.
    destruct (Nat.eqb_spec n 0) as [|_]; [contradiction|].
    cbn [bind ok]. rewrite H1. cbn [bind ok]. rewrite H2. cbn [bind ok].
    rewrite H3. cbn [bind ok]. now rewrite H4.
Qed.

(** The one-weight chain with weight 3 on a batch of two rows, 1 and 2,
    with targets 0: the outputs are 3 and 6, the gradient 3 and 6, [dw]
    their sum 9, and the optimizer leaves the weight -6. *)
Lemma train_one_batch_order_witness :
  let x := mk_ndarray [2; 1] [1; 2]%Z in
  let y := mk_ndarray [2; 1] [0; 0]%Z in
  let dy := mk_ndarray [2; 1] [3; 6]%Z in
  __train_one_batch Z_ops scale_chain 1 x y (scale_state 1 2 3)
  = ok (tt, mk_state 1%Z 2%Z 0 [(1, 1)] None (fun v => v)
              (mk_scale_net (Some dy) (-6)%Z 9%Z)
              [EForward 0 x; EBackward 0 dy;
               EOptimize 1 (scalar 3%Z) (scalar 9%Z)]).
Proof.
  intros x y dy.
  apply (proj2 (proj1 (train_one_batch_order Z_ops scale_chain 1 x y
                         (scale_state 1 2 3)) _)).
  exists (mk_scale_net (Some dy) 3%Z 0%Z), dy, dy,
         (mk_scale_net (Some dy) 3%Z 9%Z),
         [EOptimize 1 (scalar 3%Z) (scalar 9%Z)].
  repeat split; try reflexivity. discriminate.
Defined.

(** [C5] [__evaluate] on an empty test set with a loss function that is not
    [SquaredError]: the training predictions, loss and accuracy are
    computed, then [y_test_pred], still [None], is asked for its [size] and
    the call raises [AttributeError]. *)
Theorem evaluate_empty_test_raises {A} (F : float_ops A) {net optimizer}
    (E : collaborators A net optimizer) n x_train y_train x_test y_test epoch
    (s : @state A net optimizer) p c1 l a :
  is_squared_error E = false ->
  size (shape x_test) = 0 ->
  n <> 0 ->
  layer_predict E 0 x_train (chain s) = ok (p, c1) ->
  loss_get E p y_train = ok l ->
  __get_accuracy F (dtype s) y_train p = ok a ->
  __evaluate F E n x_train y_train x_test y_test epoch s
  = raise (AttributeError "size").
Proof.
  intros Hsq Hsize Hn Hp Hl Ha.
  unfold __evaluate, mbind, lift, first_layer, emit, get_chain, put_chain,
    gets, ret, ok, raise in *.
  destruct (Nat.eqb_spec n 0) as [|_]; [contradiction|].
  cbn. rewrite Hp. cbn. rewrite Hl, Hsize, Hsq. cbn. rewrite Ha.
  reflexivity.
Qed.

(** The one-layer chain with a cross-entropy loss, two training rows and
    no test rows. *)
Lemma evaluate_empty_test_raises_witness :
  let x := mk_ndarray [2; 2] [5; 7; 1; 4]%Z in
  let y := mk_ndarray [2; 2] [0; 1; 0; 1]%Z in
  let empty := mk_ndarray [0] [] in
  __evaluate Z_ops (toy_chain false) 1 x y empty empty 0 (toy_state 1 2 true)
  = raise (AttributeError "size").
Proof.
  intros x y empty.
  apply (evaluate_empty_test_raises Z_ops (toy_chain false) 1 x y empty empty
           0 (toy_state 1 2 true) x None 0%Z 1%Z).
  - reflexivity.
  - reflexivity.
  - discriminate.
  - reflexivity.
  - reflexivity.
  - vm_compute. reflexivity.
Defined.

(** With [SquaredError] the same call succeeds and the learning curve gets
    a row without test loss and without accuracies. *)
Lemma evaluate_empty_test_squared_error :
  let x := mk_ndarray [2; 2] [5; 7; 1; 4]%Z in
  let y := mk_ndarray [2; 2] [0; 1; 0; 1]%Z in
  let empty := mk_ndarray [0] [] in
  lc (exec (__evaluate Z_ops (toy_chain true) 1 x y empty empty 0)
           (toy_state 1 2 true))
  = Some [mk_lc_entry 0%Z None None None].
Proof. vm_compute. reflexivity. Qed.

(** With test rows, accuracy is the share of rows whose [argmax] agrees. *)
Lemma evaluate_with_test_rows :
  let x := mk_ndarray [2; 2] [5; 7; 1; 4]%Z in
  let y := mk_ndarray [2; 2] [0; 1; 0; 1]%Z in
  lc (exec (__evaluate Z_ops (toy_chain false) 1 x y x y 0)
           (toy_state 1 2 true))
  = Some [mk_lc_entry 0%Z (Some 0%Z) (Some 1%Z) (Some 1%Z)].
Proof. vm_compute. reflexivity. Qed.

End EngineFacts.

(** ** [im2col] and [col2im], entry by entry *)

Module Col2imFacts.

Import Im2col Im2colFacts EngineFacts.

Lemma reshape_infer_ok {U} (a : ndarray U) pre post :
  size pre * size post <> 0 ->
  length (data a) mod (size pre * size post) = 0 ->
  reshape_infer a pre post
  = ok (mk_ndarray (pre ++ (length (data a) / (size pre * size post)) :: post)
          (data a)).
Proof.
  intros Hk Hm. unfold reshape_infer.
  destruct (Nat.eqb_spec (size pre * size post) 0); [contradiction|].
  now rewrite Hm.
Qed.

Section Entries.

Context {T : Type} (zero : T).

Lemma nth_tabulate_shape s (f : nat -> T) idx d :
  in_shape s idx -> nth (ravel s idx) (tabulate (size s) f) d = f (ravel s idx).
Proof. intros H. rewrite nth_tabulate; [reflexivity | now apply ravel_lt]. Qed.

(** The strided view of [im2col] followed by its transposition: the entry
    for window (i, j), channel [ic] and window position (p, q) is the pixel
    (i*sr + p, j*sc + q) of that channel. *)
Lemma window_matrix_entries (pimg : ndarray T) b c rows cols nr nc nfr nfc nsr nsc :
  wf pimg -> shape pimg = [b; c; rows; cols] ->
  (nr - 1) * nsr + nfr <= rows ->
  (nc - 1) * nsc + nfc <= cols ->
  exists dst_img t,
    as_strided zero pimg [b; c; nr; nc; nfr; nfc]
      [Z.of_nat (size [c; rows; cols]); Z.of_nat (size [rows; cols]);
       (Z.of_nat (size [cols]) * Z.of_nat nsr)%Z;
       (Z.of_nat (size []) * Z.of_nat nsc)%Z;
       Z.of_nat (size [cols]); Z.of_nat (size [])] = ok dst_img /\
    transpose zero dst_img [0; 2; 3; 1; 4; 5] = ok t /\
    shape t = [b; nr; nc; c; nfr; nfc] /\
    wf t /\
    forall ib i j ic p q,
      ib < b -> i < nr -> j < nc -> ic < c -> p < nfr -> q < nfc ->
      nth (ravel [b; nr; nc; c; nfr; nfc] [ib; i; j; ic; p; q]) (data t) zero
      = nth (ravel [b; c; rows; cols] [ib; ic; i * nsr + p; j * nsc + q])
            (data pimg) zero.
Proof.
  intros Hwf Hs Hwr Hwc.
  rewrite as_strided_ok.
  2: reflexivity.
  2: { intros idx Hidx.
       destruct (window_view_in_bounds pimg b c rows cols nr nc nfr nfc nsr nsc
                   Hwf Hs (or_intror Hwr) (or_intror Hwc) idx Hidx)
         as (r & s & Hr & Hs' & Hoff & Hre1 & Hre2 & Hib & Hic).
       rewrite Hoff. split; [lia|].
       apply Nat2Z.inj_lt. rewrite Hwf, Hs.
       apply ravel_lt. simpl. tauto. }
  eexists. eexists. split; [reflexivity|].
  rewrite transpose_ok by reflexivity.
  cbn [shape map nth].
  split; [reflexivity|]. cbn [shape data].
  split; [reflexivity|]. split.
  { unfold wf. cbn [shape data]. now rewrite tabulate_length. }
  intros ib i j ic p q Hib Hi Hj Hic Hp Hq.
  assert (Hin : in_shape [b; nr; nc; c; nfr; nfc] [ib; i; j; ic; p; q])
    by (cbn; tauto).
  rewrite nth_tabulate_shape by exact Hin.
  rewrite unravel_ravel by exact Hin.
  cbn [ndim shape length seq map index_of Nat.eqb nth].
  assert (Hin' : in_shape [b; c; nr; nc; nfr; nfc] [ib; ic; i; j; p; q])
    by (cbn; tauto).
  rewrite nth_tabulate_shape by exact Hin'.
  rewrite unravel_ravel by exact Hin'.
  destruct (window_view_in_bounds pimg b c rows cols nr nc nfr nfc nsr nsc
              Hwf Hs (or_intror Hwr) (or_intror Hwc) _ Hin')
    as (r & s & Hr & Hs' & Hoff & Hre1 & Hre2 & _).
  rewrite Hoff, Nat2Z.id. cbn [nth] in Hre1, Hre2. now subst r s.
Qed.

(** The [im2col] of cell In[112] with [ch_axis=1]: one row per window for
    each image of the batch, the window of every channel side by side.  The
    strides are checked against the batch and channel extents of the
    image, as [assert_strides] does, and the leading extent of the result is
    the module-level [batch_size]. *)
Lemma cell_im2col_entries G (x : ndarray T) b c h w wh ww sr sc pad :
  wf x -> shape x = [b; c; h; w] ->
  0 < b -> 0 < c -> 0 < wh <= h -> 0 < ww <= w ->
  (1 <= sr)%Z -> (1 <= sc)%Z ->
  ((Z.of_nat b - Z.of_nat wh) mod sr = 0)%Z ->
  ((Z.of_nat c - Z.of_nat ww) mod sc = 0)%Z ->
  g_batch_size G = Some b ->
  let oh := window_count h (Z.of_nat wh) sr in
  let ow := window_count w (Z.of_nat ww) sc in
  exists m,
    Cell112.im2col zero G x (Z.of_nat wh, Z.of_nat ww) pad (sr, sc) 1%Z = ok m /\
    shape m = [b; oh * ow; wh * ww * c] /\
    wf m /\
    forall ib i j ic p q,
      ib < b -> i < oh -> j < ow -> ic < c -> p < wh -> q < ww ->
      nth (ravel [b; oh; ow; c; wh; ww] [ib; i; j; ic; p; q]) (data m) zero
      = nth (ravel [b; c; h; w]
               [ib; ic; i * Z.to_nat sr + p; j * Z.to_nat sc + q])
            (data x) zero.
Proof.
  intros Hwf Hs Hb Hc Hwh Hww Hsr Hsc Hmr Hmc HG oh ow.
  pose proof (window_count_fit h (Z.of_nat wh) sr Hsr ltac:(lia)) as Hfr.
  pose proof (window_count_fit w (Z.of_nat ww) sc Hsc ltac:(lia)) as Hfc.
  fold oh in Hfr. fold ow in Hfc. rewrite Nat2Z.id in Hfr, Hfc.
  destruct (window_matrix_entries x b c h w oh ow wh ww (Z.to_nat sr)
              (Z.to_nat sc) Hwf Hs Hfr Hfc)
    as (dst & t & Hdst & Ht & Hst & Hwt & Hent).
  rewrite !Z2Nat.id in Hdst by lia.
  assert (Hoh : 0 < oh).
  { unfold oh, window_count.
    assert (0 <= (Z.of_nat h - Z.of_nat wh) / sr)%Z by (apply Z.div_pos; lia).
    lia. }
  assert (How : 0 < ow).
  { unfold ow, window_count.
    assert (0 <= (Z.of_nat w - Z.of_nat ww) / sc)%Z by (apply Z.div_pos; lia).
    lia. }
  assert (Hlen : length (data t) = (b * (wh * ww * c)) * (oh * ow)).
  { rewrite Hwt, Hst. unfold size. cbn [fold_right]. lia. }
  exists (mk_ndarray [b; oh * ow; wh * ww * c] (data t)).
  split.
  - unfold Cell112.im2col, Cell112.assert_strides, Cell112.shape_at.
    rewrite Hs. cbn [nth_error bind ok fst snd].
    rewrite !py_mod_ok by lia. cbn [bind ok]. rewrite Hmr, Hmc.
    cbn [Z.gtb Z.compare bind ok].
    unfold unpack4. rewrite Hs. cbn [bind ok].
    unfold Np.strides. rewrite Hs. cbn [c_strides fst snd].
    rewrite !py_floordiv_ok by lia. cbn [bind ok].
    assert (Hqr : (0 <= (Z.of_nat h - Z.of_nat wh) / sr)%Z)
      by (apply Z.div_pos; lia).
    assert (Hqc : (0 <= (Z.of_nat w - Z.of_nat ww) / sc)%Z)
      by (apply Z.div_pos; lia).
    rewrite !dim_of_Z_ok by lia. cbn [bind ok].
    fold (window_count h (Z.of_nat wh) sr). fold (window_count w (Z.of_nat ww) sc).
    fold oh ow. rewrite !Nat2Z.id.
    rewrite Hdst. cbn [bind ok Z.eqb]. rewrite Ht. cbn [bind ok].
    rewrite HG. cbn [lookup bind ok].
    rewrite reshape_infer_ok.
    + assert (Eq : length (data t) / (size [b] * size [wh * ww * c]) = oh * ow).
      { rewrite Hlen. unfold size. cbn [fold_right]. rewrite !Nat.mul_1_r.
        replace (b * (wh * ww * c) * (oh * ow))
          with (oh * ow * (b * (wh * ww * c))) by lia.
        assert (Hk : b * (wh * ww * c) <> 0) by nia.
        exact (Nat.div_mul (oh * ow) (b * (wh * ww * c)) Hk). }
      rewrite Eq. reflexivity.
    + unfold size. cbn [fold_right]. nia.
    + rewrite Hlen. unfold size. cbn [fold_right]. rewrite !Nat.mul_1_r.
      replace (b * (wh * ww * c) * (oh * ow))
        with (oh * ow * (b * (wh * ww * c))) by lia.
      apply Nat.Div0.mod_mul.
  - cbn [shape data]. split; [reflexivity|]. split.
    + unfold wf. cbn [shape data]. rewrite Hlen.
      unfold size. cbn [fold_right]. lia.
    + exact Hent.
Qed.

Lemma step_count_pos n k : 0 < n -> 0 < k -> 0 < step_count n k.
Proof.
  intros Hn Hk. unfold step_count.
  apply Nat.div_str_pos. lia.
Qed.

Lemma step_count_last n k : 0 < n -> 0 < k -> (step_count n k - 1) * k < n.
Proof.
  intros Hn Hk. unfold step_count.
  pose proof (Nat.Div0.mul_div_le (n + k - 1) k).
  pose proof (step_count_pos n k Hn Hk) as Hp. unfold step_count in Hp.
  nia.
Qed.

Lemma col2im_entries G (mat : ndarray T) b c h w wh ww nh nw oh ow R strides ch_axis :
  shape mat = [b; R; wh * ww * c] -> wf mat ->
  g_oh G = Some oh -> g_ow G = Some ow ->
  0 < wh -> 0 < ww ->
  step_count oh wh = nh -> step_count ow ww = nw ->
  nh * nw = 4 ->
  h = nh * wh -> w = nw * ww ->
  oh * ow <= R ->
  exists img,
    Cell112.col2im zero G mat (wh, ww) b c h w strides ch_axis = ok img /\
    shape img = [b; c; h; w] /\
    wf img /\
    forall ib ic th p tw q,
      ib < b -> ic < c -> th < nh -> p < wh -> tw < nw -> q < ww ->
      nth (ravel [b; c; h; w] [ib; ic; th * wh + p; tw * ww + q]) (data img) zero
      = nth (ravel [b; R; c; wh; ww] [ib; th * wh * ow + tw * ww; ic; p; q])
            (data mat) zero.
Proof.
  intros Hs Hwf Goh Gow Hwh Hww Hnh Hnw H4 Hh Hw HR.
  assert (Hnh0 : 0 < nh) by nia. assert (Hnw0 : 0 < nw) by nia.
  assert (Hoh : 0 < oh).
  { destruct oh; [|lia]. rewrite step_count_zero in Hnh by exact Hwh. lia. }
  assert (How : 0 < ow).
  { destruct ow; [|lia]. rewrite step_count_zero in Hnw by exact Hww. lia. }
  unfold Cell112.col2im. rewrite Goh, Gow. cbn [lookup bind ok].
  rewrite reshape_infer_ok.
  2: { unfold size. cbn [fold_right]. lia. }
  2: { cbn [arange data]. rewrite length_seq. unfold size. cbn [fold_right].
       rewrite !Nat.mul_1_r. rewrite Nat.mul_comm. apply Nat.Div0.mod_mul. }
  cbn [arange data app bind ok]. rewrite length_seq.
  replace (oh * ow / (size [oh] * size [])) with ow.
  2: { unfold size. cbn [fold_right]. rewrite !Nat.mul_1_r.
       rewrite Nat.mul_comm. symmetry.
       exact (Nat.div_mul ow oh ltac:(lia)). }
  unfold slice_step2. cbn [shape data].
  destruct (Nat.eqb_spec wh 0) as [|_]; [lia|].
  destruct (Nat.eqb_spec ww 0) as [|_]; [lia|].
  cbn [orb bind ok]. rewrite Hnh, Hnw.
  set (rows := tabulate (size [nh; nw]) _).
  assert (Hrl : length rows = 4).
  { unfold rows. rewrite tabulate_length. unfold size. cbn [fold_right]. lia. }
  assert (Hbound : forall th tw, th < nh -> tw < nw ->
            th * wh * ow + tw * ww < oh * ow).
  { intros th tw Hth Htw.
    pose proof (step_count_last oh wh Hoh Hwh) as L1.
    pose proof (step_count_last ow ww How Hww) as L2.
    rewrite Hnh in L1. rewrite Hnw in L2.
    assert (A1 : th * wh <= (nh - 1) * wh)
      by (apply Nat.mul_le_mono_r; lia).
    assert (A2 : tw * ww <= (nw - 1) * ww)
      by (apply Nat.mul_le_mono_r; lia).
    assert (A3 : th * wh * ow <= (oh - 1) * ow)
      by (apply Nat.mul_le_mono_r; lia).
    nia. }
  assert (Hrows : forall th tw, th < nh -> tw < nw ->
            nth (th * nw + tw) rows 0 = th * wh * ow + tw * ww).
  { intros th tw Hth Htw. unfold rows.
    assert (Hin : in_shape [nh; nw] [th; tw]) by (cbn; tauto).
    replace (th * nw + tw) with (ravel [nh; nw] [th; tw])
      by (cbn [ravel]; unfold size; cbn [fold_right]; lia).
    rewrite nth_tabulate by (now apply ravel_lt).
    rewrite unravel_ravel by exact Hin.
    rewrite seq_nth.
    - cbn [ravel]. unfold size. cbn [fold_right]. ring.
    - specialize (Hbound th tw Hth Htw).
      cbn [ravel]. unfold size. cbn [fold_right]. lia. }
  rewrite reshape_infer_ok.
  2: { unfold size. cbn [fold_right]. lia. }
  2: { unfold size. cbn [fold_right]. apply Nat.mod_1_r. }
  cbn [data app bind ok]. unfold row0. cbn [shape Nat.eqb bind ok data].
  rewrite firstn_all2 by (rewrite Hrl; vm_compute; lia).
  assert (Hall : forallb (fun r => r <? R) rows = true).
  { apply forallb_forall. intros r Hr.
    destruct (In_nth rows r 0 Hr) as (k & Hk & <-).
    rewrite Hrl, <- H4 in Hk.
    assert (Hq : k / nw < nh) by (apply Nat.Div0.div_lt_upper_bound; lia).
    assert (Hm : k mod nw < nw) by (apply Nat.mod_upper_bound; lia).
    rewrite (Nat.div_mod_eq k nw) at 1.
    rewrite (Nat.mul_comm nw), Hrows by assumption.
    apply Nat.ltb_lt. specialize (Hbound _ _ Hq Hm). lia. }
  unfold take_axis1. rewrite Hs, Hall, Hrl. cbn [bind ok].
  rewrite reshape_ok.
  2: { cbn [data]. rewrite tabulate_length. unfold size. cbn [fold_right]. lia. }
  cbn [bind ok data].
  rewrite transpose_ok by reflexivity.
  cbn [bind ok shape map nth ndim length seq].
  unfold Cell112.nat_floordiv.
  destruct (Nat.eqb_spec wh 0) as [|_]; [lia|].
  destruct (Nat.eqb_spec ww 0) as [|_]; [lia|].
  cbn [bind ok]. rewrite Hh, Hw, !Nat.div_mul by lia.
  rewrite reshape_ok.
  2: { cbn [data]. rewrite tabulate_length. unfold size. cbn [fold_right]. nia. }
  cbn [bind ok data].
  rewrite transpose_ok by reflexivity.
  cbn [bind ok shape map nth ndim length seq].
  rewrite reshape_ok.
  2: { cbn [data]. rewrite tabulate_length. unfold size. cbn [fold_right]. nia. }
  eexists. split; [reflexivity|]. cbn [shape data].
  split; [reflexivity|]. split.
  { unfold wf. cbn [shape data]. rewrite tabulate_length.
    unfold size. cbn [fold_right]. nia. }
  intros ib ic th p tw q Hib Hic Hth Hp Htw Hq.
  subst h w.
  assert (Hpq : p * ww + q < wh * ww) by nia.
  assert (Ht : th * nw + tw < 4) by nia.
  assert (I1 : in_shape [b; c; nh; wh; nw; ww] [ib; ic; th; p; tw; q])
    by (cbn; tauto).
  assert (I2 : in_shape [b; c; 4; wh * ww] [ib; ic; th * nw + tw; p * ww + q])
    by (cbn; tauto).
  assert (I3 : in_shape [b; 4; wh * ww * c]
                 [ib; th * nw + tw; ic * (wh * ww) + (p * ww + q)]).
  { cbn. repeat split; try assumption. nia. }
  replace (ravel [b; c; nh * wh; nw * ww] [ib; ic; th * wh + p; tw * ww + q])
    with (ravel [b; c; nh; wh; nw; ww] [ib; ic; th; p; tw; q])
    by (cbn [ravel]; unfold size; cbn [fold_right]; ring).
  rewrite nth_tabulate_shape by exact I1.
  rewrite unravel_ravel by exact I1.
  cbn [index_of Nat.eqb nth].
  replace (ravel [b; c; nh; nw; wh; ww] [ib; ic; th; tw; p; q])
    with (ravel [b; c; 4; wh * ww] [ib; ic; th * nw + tw; p * ww + q])
    by (cbn [ravel]; unfold size; cbn [fold_right]; rewrite <- H4; ring).
  rewrite nth_tabulate_shape by exact I2.
  rewrite unravel_ravel by exact I2.
  cbn [index_of Nat.eqb nth].
  replace (ravel [b; 4; c; wh * ww] [ib; th * nw + tw; ic; p * ww + q])
    with (ravel [b; 4; wh * ww * c]
            [ib; th * nw + tw; ic * (wh * ww) + (p * ww + q)])
    by (cbn [ravel]; unfold size; cbn [fold_right]; ring).
  rewrite nth_tabulate_shape by exact I3.
  rewrite unravel_ravel by exact I3.
  rewrite Hrows by assumption.
  f_equal. cbn [ravel]. unfold size. cbn [fold_right]. ring.
Qed.

End Entries.

(** C1, as stated, fails on both counts.  On the matrix of a 4x4 image of
    ones, taken with 2x2 windows moved by one pixel (nine overlapping
    windows), [col2im] returns ones: pixel (1, 1), which four windows
    cover, holds the entry of one window and not the sum 4.  On the matrix
    of two 4x4 images of two channels taken with the windows moved by their
    own size (no overlap), for which exact reconstruction is claimed,
    [col2im] raises, whether the module-level [oh] and [ow] are the window
    counts of that matrix (2, 2) or those of the unit-stride one (3, 3).
    The matrix of the [im2col] with [force] (lines 149-217) has two axes,
    and [col2im], which indexes three, raises on it. *)
Lemma col2im_copies_one_window :
  let ones := full [1; 1; 4; 4] 1%Z in
  let G3 := mk_globals None None None (Some 3) (Some 3) (Some 1) in
  let G2 := mk_globals None None None (Some 2) (Some 2) (Some 2) in
  let G3' := mk_globals None None None (Some 3) (Some 3) (Some 2) in
  let twos := full [2; 2; 4; 4] 1%Z in
  let Gm := mk_globals (Some (PadInt 0, PadInt 0)) (Some 0%Z) (Some 0%Z)
              (Some 3) (Some 3) (Some 1) in
  (exists mat img,
     Cell112.im2col 0%Z G3 ones (2, 2)%Z (0, 0)%Z (1, 1)%Z 1%Z = ok mat /\
     Cell112.col2im 0%Z G3 mat (2, 2) 1 1 4 4 (1, 1)%Z 1%Z = ok img /\
     nth (ravel [1; 1; 4; 4] [0; 0; 1; 1]) (data img) 0%Z = 1%Z /\
     Cell112.window_sum 0%Z Z.add mat 2 2 3 3 1 1 0 0 1 1 = 4%Z) /\
  (exists mat,
     Cell112.im2col 0%Z G2 twos (2, 2)%Z (0, 0)%Z (2, 2)%Z 1%Z = ok mat /\
     shape mat = [2; 4; 8] /\
     Cell112.col2im 0%Z G2 mat (2, 2) 2 2 4 4 (2, 2)%Z 1%Z
     = raise (ValueError "cannot reshape array") /\
     Cell112.col2im 0%Z G3' mat (2, 2) 2 2 4 4 (2, 2)%Z 1%Z
     = raise (IndexError "index is out of bounds for axis 1")) /\
  (exists mat,
     im2col 0%Z Gm ones (2, 2)%Z (PadInt 0, PadInt 0) (1, 1)%Z false = ok mat /\
     shape mat = [9; 4] /\
     Cell112.col2im 0%Z Gm mat (2, 2) 1 1 4 4 (1, 1)%Z 1%Z
     = raise (IndexError "too many indices for array")).
Proof.
  split; [|split].
  - eexists. eexists. split; [vm_compute; reflexivity|].
    split; [vm_compute; reflexivity|]. split; vm_compute; reflexivity.
  - eexists. split; [vm_compute; reflexivity|].
    split; [vm_compute; reflexivity|]. split; vm_compute; reflexivity.
  - eexists. split; [vm_compute; reflexivity|].
    split; vm_compute; reflexivity.
Qed.

(** C1 (as amended): [col2im] routes, it never adds.  For an image whose
    rows and columns are cut into four windows (nh * nw = 4), the matrix
    [im2col] takes with [ch_axis=1] and unit strides holds every window
    position; [col2im] selects from it the windows at the multiples of the
    window size, which tile the image, and puts them back, so that
    [col2im(im2col(x))] is [x].  Applied to any matrix of that shape, every
    entry of its result is the entry of the one selected window that holds
    the pixel.  The module-level [oh], [ow] and [batch_size] are the window
    counts and the batch size of the call. *)
Theorem col2im_im2col_roundtrip {T} (zero : T) G (x : ndarray T)
    b c nh nw wh ww pad strides ch_axis :
  wf x -> shape x = [b; c; nh * wh; nw * ww] ->
  0 < b -> 0 < c -> 0 < wh -> 0 < ww ->
  nh * nw = 4 ->
  g_batch_size G = Some b ->
  g_oh G = Some (nh * wh - wh + 1) ->
  g_ow G = Some (nw * ww - ww + 1) ->
  let oh := nh * wh - wh + 1 in
  let ow := nw * ww - ww + 1 in
  exists m,
    Cell112.im2col zero G x (Z.of_nat wh, Z.of_nat ww) pad (1, 1)%Z 1%Z = ok m /\
    shape m = [b; oh * ow; wh * ww * c] /\
    Cell112.col2im zero G m (wh, ww) b c (nh * wh) (nw * ww) strides ch_axis
    = ok x /\
    forall mat, shape mat = shape m -> wf mat ->
      exists img,
        Cell112.col2im zero G mat (wh, ww) b c (nh * wh) (nw * ww) strides
          ch_axis = ok img /\
        shape img = [b; c; nh * wh; nw * ww] /\
        forall ib ic th p tw q,
          ib < b -> ic < c -> th < nh -> p < wh -> tw < nw -> q < ww ->
          nth (ravel [b; c; nh * wh; nw * ww] [ib; ic; th * wh + p; tw * ww + q])
              (data img) zero
          = nth (ravel [b; oh * ow; c; wh; ww]
                   [ib; th * wh * ow + tw * ww; ic; p; q])
                (data mat) zero.
Proof.
  intros Hwf Hs Hb Hc Hwh Hww H4 GB Goh Gow oh ow.
  assert (Hnh0 : 0 < nh) by nia. assert (Hnw0 : 0 < nw) by nia.
  assert (Hle1 : wh <= nh * wh) by nia.
  assert (Hle2 : ww <= nw * ww) by nia.
  assert (Ewh : window_count (nh * wh) (Z.of_nat wh) 1 = oh).
  { unfold window_count, oh. rewrite Z.div_1_r. lia. }
  assert (Eww : window_count (nw * ww) (Z.of_nat ww) 1 = ow).
  { unfold window_count, ow. rewrite Z.div_1_r. lia. }
  destruct (cell_im2col_entries zero G x b c (nh * wh) (nw * ww) wh ww 1 1 pad
              Hwf Hs Hb Hc (conj Hwh Hle1) (conj Hww Hle2)
              ltac:(lia) ltac:(lia) (Z.mod_1_r _) (Z.mod_1_r _) GB)
    as (m & Hm & Hsm & Hwm & Hem).
  rewrite Ewh, Eww in Hsm, Hem.
  assert (Snh : step_count oh wh = nh).
  { unfold step_count, oh.
    replace (nh * wh - wh + 1 + wh - 1) with (nh * wh) by lia.
    now apply Nat.div_mul, Nat.neq_0_lt_0. }
  assert (Snw : step_count ow ww = nw).
  { unfold step_count, ow.
    replace (nw * ww - ww + 1 + ww - 1) with (nw * ww) by lia.
    now apply Nat.div_mul, Nat.neq_0_lt_0. }
  assert (Hcol : forall mat, shape mat = shape m -> wf mat ->
            exists img,
              Cell112.col2im zero G mat (wh, ww) b c (nh * wh) (nw * ww) strides
                ch_axis = ok img /\
              shape img = [b; c; nh * wh; nw * ww] /\
              wf img /\
              forall ib ic th p tw q,
                ib < b -> ic < c -> th < nh -> p < wh -> tw < nw -> q < ww ->
                nth (ravel [b; c; nh * wh; nw * ww]
                       [ib; ic; th * wh + p; tw * ww + q]) (data img) zero
                = nth (ravel [b; oh * ow; c; wh; ww]
                         [ib; th * wh * ow + tw * ww; ic; p; q])
                      (data mat) zero).
  { intros mat Hsmat Hwmat. rewrite Hsm in Hsmat.
    exact (col2im_entries zero G mat b c (nh * wh) (nw * ww) wh ww nh nw oh ow
             (oh * ow) strides ch_axis Hsmat Hwmat Goh Gow Hwh Hww Snh Snw H4
             eq_refl eq_refl (le_n _)). }
  exists m. split; [exact Hm|]. split; [exact Hsm|]. split.
  - destruct (Hcol m eq_refl Hwm) as (img & Himg & Hsi & Hwi & Hei).
    rewrite Himg. f_equal.
    assert (Hd : data img = data x).
    { apply (nth_ext _ _ zero zero).
      - now rewrite Hwi, Hwf, Hsi, Hs.
      - intros k Hk. rewrite Hwi, Hsi in Hk.
        pose proof (unravel_in_shape _ _ Hk) as Hin.
        rewrite <- (ravel_unravel _ _ Hk).
        remember (unravel [b; c; nh * wh; nw * ww] k) as idx eqn:Eidx.
        clear Eidx Hk.
        split_index4 idx Hin ib ic r s.
        assert (Er : r = r / wh * wh + r mod wh)
          by (rewrite (Nat.div_mod_eq r wh) at 1; lia).
        assert (Es : s = s / ww * ww + s mod ww)
          by (rewrite (Nat.div_mod_eq s ww) at 1; lia).
        assert (Hth : r / wh < nh)
          by (apply Nat.Div0.div_lt_upper_bound; lia).
        assert (Htw : s / ww < nw)
          by (apply Nat.Div0.div_lt_upper_bound; lia).
        assert (Hp : r mod wh < wh) by (apply Nat.mod_upper_bound; lia).
        assert (Hq : s mod ww < ww) by (apply Nat.mod_upper_bound; lia).
        rewrite Er, Es.
        rewrite Hei by assumption.
        assert (Hi : r / wh * wh < oh) by (unfold oh; nia).
        assert (Hj : s / ww * ww < ow) by (unfold ow; nia).
        replace (ravel [b; oh * ow; c; wh; ww]
                   [ib; r / wh * wh * ow + s / ww * ww; ic; r mod wh; s mod ww])
          with (ravel [b; oh; ow; c; wh; ww]
                  [ib; r / wh * wh; s / ww * ww; ic; r mod wh; s mod ww])
          by (cbn [ravel]; unfold size; cbn [fold_right]; ring).
        rewrite Hem by assumption.
        change (Z.to_nat 1) with 1. now rewrite !Nat.mul_1_r. }
    destruct img as [si di], x as [sx dx]. cbn [shape data] in Hsi, Hs, Hd.
    now rewrite Hsi, Hs, Hd.
  - intros mat Hsmat Hwmat.
    destruct (Hcol mat Hsmat Hwmat) as (img & Himg & Hsi & _ & Hei).
    exists img. now repeat split.
Qed.

(** A 4x4 image of one channel, cut into four 2x2 windows; [oh], [ow] and
    [batch_size] are bound to the window counts 3, 3 and the batch size 1. *)
Lemma col2im_im2col_roundtrip_witness :
  let x := mk_ndarray [1; 1; 4; 4] (map Z.of_nat (seq 0 16)) in
  let G := mk_globals None None None (Some 3) (Some 3) (Some 1) in
  exists m,
    Cell112.im2col 0%Z G x (2, 2)%Z (0, 0)%Z (1, 1)%Z 1%Z = ok m /\
    shape m = [1; 9; 4] /\
    Cell112.col2im 0%Z G m (2, 2) 1 1 4 4 (1, 1)%Z 1%Z = ok x.
Proof.
  intros x G.
  destruct (col2im_im2col_roundtrip 0%Z G x 1 1 2 2 2 2 (0, 0)%Z (1, 1)%Z 1%Z)
    as (m & Hm & Hs & Hc & _);
    try reflexivity; try lia.
  exists m. split; [exact Hm|]. split; [exact Hs|exact Hc].
Defined.

(** The file itself binds none of [oh], [ow] and [batch_size] (they are
    assigned inside string literals only): there [col2im] raises NameError
    on every input. *)
Lemma col2im_unbound_names {T} (zero : T) G (mat : ndarray T) window_shape
    batch_size channels h w strides ch_axis :
  g_oh G = None ->
  Cell112.col2im zero G mat window_shape batch_size channels h w strides ch_axis
  = raise (NameError "oh").
Proof.
  intros Hoh. unfold Cell112.col2im. destruct window_shape as [win_h win_w].
  now rewrite Hoh.
Qed.

End Col2imFacts.

(** ** More on [im2col.py] *)

Module Im2colMore.

Import Im2col Im2colFacts Col2imFacts.

Section Facts.

Context {T : Type} (zero : T).

(** The tail of [im2col] (lines 203-217), entry by entry. *)
Lemma im2col_tail_entries (pimg : ndarray T) b c rows cols fr fc sr sc :
  wf pimg -> shape pimg = [b; c; rows; cols] ->
  (1 <= sr)%Z -> (1 <= sc)%Z ->
  (0 <= fr <= Z.of_nat rows)%Z -> (0 <= fc <= Z.of_nat cols)%Z ->
  let nr := window_count rows fr sr in
  let nc := window_count cols fc sc in
  exists m,
    match Np.strides pimg with
    | [st_batch; st_ch; st_r; st_c] =>
        let f_st_r := (st_r * fst (sr, sc))%Z in
        let f_st_c := (st_c * snd (sr, sc))%Z in
        let dst_strides := [st_batch; st_ch; f_st_r; f_st_c; st_r; st_c] in
        q_r <- py_floordiv (Z.of_nat rows - fr) (fst (sr, sc)) ;;
        let dst_rows := (q_r + 1)%Z in
        q_c <- py_floordiv (Z.of_nat cols - fc) (snd (sr, sc)) ;;
        let dst_cols := (q_c + 1)%Z in
        n_rows <- dim_of_Z dst_rows ;;
        n_cols <- dim_of_Z dst_cols ;;
        n_frows <- dim_of_Z fr ;;
        n_fcols <- dim_of_Z fc ;;
        let dst_shape := [b; c; n_rows; n_cols; n_frows; n_fcols] in
        dst_img <- as_strided zero pimg dst_shape dst_strides ;;
        let dst_rows := (Z.of_nat b * dst_rows * dst_cols)%Z in
        let dst_cols := (Z.of_nat c * fr * fc)%Z in
        t <- transpose zero dst_img [0; 2; 3; 1; 4; 5] ;;
        out_rows <- dim_of_Z dst_rows ;;
        out_cols <- dim_of_Z dst_cols ;;
        reshape t [out_rows; out_cols]
    | _ => raise (ValueError "not enough values to unpack")
    end = ok m /\
    shape m = [b * nr * nc; c * Z.to_nat fr * Z.to_nat fc] /\
    forall ib i j ic p q,
      ib < b -> i < nr -> j < nc -> ic < c ->
      p < Z.to_nat fr -> q < Z.to_nat fc ->
      nth (ravel [b * nr * nc; c * Z.to_nat fr * Z.to_nat fc]
             [(ib * nr + i) * nc + j; (ic * Z.to_nat fr + p) * Z.to_nat fc + q])
          (data m) zero
      = nth (ravel [b; c; rows; cols]
               [ib; ic; i * Z.to_nat sr + p; j * Z.to_nat sc + q])
            (data pimg) zero.
Proof.
  intros Hwf Hs Hsr Hsc Hfr Hfc nr nc.
  pose proof (window_count_fit rows fr sr Hsr Hfr) as Hwr.
  pose proof (window_count_fit cols fc sc Hsc Hfc) as Hwc.
  fold nr in Hwr. fold nc in Hwc.
  destruct (window_matrix_entries zero pimg b c rows cols nr nc
              (Z.to_nat fr) (Z.to_nat fc) (Z.to_nat sr) (Z.to_nat sc)
              Hwf Hs Hwr Hwc) as (dst & t & Hdst & Ht & Hst & Hwt & Hent).
  rewrite !Z2Nat.id in Hdst by lia.
  exists (mk_ndarray [b * nr * nc; c * Z.to_nat fr * Z.to_nat fc] (data t)).
  split; [|split; [reflexivity|]].
  - unfold Np.strides. rewrite Hs. cbn [c_strides fst snd].
    rewrite !py_floordiv_ok by lia. cbn [bind ok].
    assert (Hqr : (0 <= (Z.of_nat rows - fr) / sr)%Z) by (apply Z.div_pos; lia).
    assert (Hqc : (0 <= (Z.of_nat cols - fc) / sc)%Z) by (apply Z.div_pos; lia).
    rewrite !dim_of_Z_ok by lia. cbn [bind ok].
    fold (window_count rows fr sr). fold (window_count cols fc sc).
    fold nr nc. rewrite Hdst. cbn [bind ok]. rewrite Ht. cbn [bind ok].
    assert (E1 : Z.to_nat (Z.of_nat b * ((Z.of_nat rows - fr) / sr + 1)
                           * ((Z.of_nat cols - fc) / sc + 1))
                 = b * nr * nc).
    { unfold nr, nc, window_count.
      rewrite !Z2Nat.inj_mul, Nat2Z.id by lia. reflexivity. }
    assert (E2 : Z.to_nat (Z.of_nat c * fr * fc) = c * Z.to_nat fr * Z.to_nat fc).
    { rewrite !Z2Nat.inj_mul, Nat2Z.id by lia. reflexivity. }
    rewrite E1, E2. apply reshape_ok.
    rewrite Hwt, Hst. unfold size. cbn [fold_right]. lia.
  - intros ib i j ic p q Hib Hi Hj Hic Hp Hq. cbn [data].
    rewrite <- (Hent ib i j ic p q) by assumption.
    f_equal. cbn [ravel]. unfold size. cbn [fold_right]. ring.
Qed.

(** [np.pad] on the two image axes of a 4-d array, entry by entry. *)
Lemma pad_constant_entries (a : ndarray T) b c rows cols r0 r1 c0 c1 :
  shape a = [b; c; rows; cols] ->
  exists ext,
    pad_constant zero a
      [(0, 0); (0, 0); (Z.of_nat r0, Z.of_nat r1); (Z.of_nat c0, Z.of_nat c1)]%Z
    = ok ext /\
    shape ext = [b; c; rows + r0 + r1; cols + c0 + c1] /\
    wf ext /\
    forall ib ic r s,
      ib < b -> ic < c -> r < rows + r0 + r1 -> s < cols + c0 + c1 ->
      nth (ravel [b; c; rows + r0 + r1; cols + c0 + c1] [ib; ic; r; s])
          (data ext) zero
      = if (r0 <=? r) && (r <? r0 + rows) && ((c0 <=? s) && (s <? c0 + cols))
        then nth (ravel [b; c; rows; cols] [ib; ic; r - r0; s - c0]) (data a) zero
        else zero.
Proof.
  intros Hs.
  unfold pad_constant, ndim. rewrite Hs.
  cbn [length Nat.eqb bind ok forallb fst snd].
  assert (Hr0 : (0 <=? Z.of_nat r0)%Z = true) by (apply Z.leb_le; lia).
  assert (Hr1 : (0 <=? Z.of_nat r1)%Z = true) by (apply Z.leb_le; lia).
  assert (Hc0 : (0 <=? Z.of_nat c0)%Z = true) by (apply Z.leb_le; lia).
  assert (Hc1 : (0 <=? Z.of_nat c1)%Z = true) by (apply Z.leb_le; lia).
  rewrite Hr0, Hr1, Hc0, Hc1. cbn [Z.leb Z.compare andb].
  cbn [shape combine map fst snd]. change (Z.to_nat 0) with 0.
  rewrite !Nat2Z.id, !Nat.add_0_r.
  eexists. split; [reflexivity|]. cbn [shape data].
  split; [reflexivity|]. split.
  { unfold wf. cbn [shape data]. now rewrite tabulate_length. }
  intros ib ic r s Hib Hic Hr Hs'.
  assert (Hin : in_shape [b; c; rows + r0 + r1; cols + c0 + c1] [ib; ic; r; s])
    by (cbn; tauto).
  rewrite nth_tabulate_shape by exact Hin.
  rewrite unravel_ravel by exact Hin.
  cbn [combine forallb map fst snd].
  apply Nat.ltb_lt in Hib, Hic.
  cbn [Nat.leb Nat.add]. rewrite Hib, Hic, !Nat.sub_0_r.
  cbn [andb]. rewrite andb_true_r. reflexivity.
Qed.

Lemma repeat_app_not_single {X} (x y : X) k :
  1 <= k -> forall z, repeat x k ++ [y] <> [z].
Proof. intros Hk z. destruct k as [|[|k]]; [lia| |]; discriminate. Qed.

(** The strided view of [im2col] on its own. *)
Lemma window_view_entries (pimg : ndarray T) b c rows cols nr nc nfr nfc nsr nsc :
  wf pimg -> shape pimg = [b; c; rows; cols] ->
  (nr - 1) * nsr + nfr <= rows ->
  (nc - 1) * nsc + nfc <= cols ->
  exists dst_img,
    as_strided zero pimg [b; c; nr; nc; nfr; nfc]
      [Z.of_nat (size [c; rows; cols]); Z.of_nat (size [rows; cols]);
       (Z.of_nat (size [cols]) * Z.of_nat nsr)%Z;
       (Z.of_nat (size []) * Z.of_nat nsc)%Z;
       Z.of_nat (size [cols]); Z.of_nat (size [])] = ok dst_img /\
    shape dst_img = [b; c; nr; nc; nfr; nfc] /\
    wf dst_img /\
    forall ib ic i j p q,
      ib < b -> ic < c -> i < nr -> j < nc -> p < nfr -> q < nfc ->
      nth (ravel [b; c; nr; nc; nfr; nfc] [ib; ic; i; j; p; q]) (data dst_img) zero
      = nth (ravel [b; c; rows; cols] [ib; ic; i * nsr + p; j * nsc + q])
            (data pimg) zero.
Proof.
  intros Hwf Hs Hwr Hwc.
  rewrite as_strided_ok.
  2: reflexivity.
  2: { intros idx Hidx.
       destruct (window_view_in_bounds pimg b c rows cols nr nc nfr nfc nsr nsc
                   Hwf Hs (or_intror Hwr) (or_intror Hwc) idx Hidx)
         as (r & s & Hr & Hs' & Hoff & Hre1 & Hre2 & Hib & Hic).
       rewrite Hoff. split; [lia|].
       apply Nat2Z.inj_lt. rewrite Hwf, Hs.
       apply ravel_lt. simpl. tauto. }
  eexists. split; [reflexivity|]. cbn [shape data].
  split; [reflexivity|]. split.
  { unfold wf. cbn [shape data]. now rewrite tabulate_length. }
  intros ib ic i j p q Hib Hic Hi Hj Hp Hq.
  assert (Hin : in_shape [b; c; nr; nc; nfr; nfc] [ib; ic; i; j; p; q])
    by (cbn; tauto).
  rewrite nth_tabulate_shape by exact Hin.
  rewrite unravel_ravel by exact Hin.
  destruct (window_view_in_bounds pimg b c rows cols nr nc nfr nfc nsr nsc
              Hwf Hs (or_intror Hwr) (or_intror Hwc) _ Hin)
    as (r & s & Hr & Hs' & Hoff & Hre1 & Hre2 & _).
  rewrite Hoff, Nat2Z.id. cbn [nth] in Hre1, Hre2. now subst r s.
Qed.

(** The [im2col] of cell In[112] with [ch_axis=0], the default: the
    channels keep their own axis. *)
Lemma cell_im2col_entries_ch0 G (x : ndarray T) b c h w wh ww sr sc pad :
  wf x -> shape x = [b; c; h; w] ->
  0 < b -> 0 < c -> 0 < wh <= h -> 0 < ww <= w ->
  (1 <= sr)%Z -> (1 <= sc)%Z ->
  ((Z.of_nat b - Z.of_nat wh) mod sr = 0)%Z ->
  ((Z.of_nat c - Z.of_nat ww) mod sc = 0)%Z ->
  g_batch_size G = Some b ->
  let oh := window_count h (Z.of_nat wh) sr in
  let ow := window_count w (Z.of_nat ww) sc in
  exists m,
    Cell112.im2col zero G x (Z.of_nat wh, Z.of_nat ww) pad (sr, sc) 0%Z = ok m /\
    shape m = [b; c; oh * ow; wh * ww] /\
    wf m /\
    forall ib ic i j p q,
      ib < b -> ic < c -> i < oh -> j < ow -> p < wh -> q < ww ->
      nth (ravel [b; c; oh * ow; wh * ww] [ib; ic; i * ow + j; p * ww + q])
          (data m) zero
      = nth (ravel [b; c; h; w]
               [ib; ic; i * Z.to_nat sr + p; j * Z.to_nat sc + q])
            (data x) zero.
Proof.
  intros Hwf Hs Hb Hc Hwh Hww Hsr Hsc Hmr Hmc HG oh ow.
  pose proof (window_count_fit h (Z.of_nat wh) sr Hsr ltac:(lia)) as Hfr.
  pose proof (window_count_fit w (Z.of_nat ww) sc Hsc ltac:(lia)) as Hfc.
  fold oh in Hfr. fold ow in Hfc. rewrite Nat2Z.id in Hfr, Hfc.
  destruct (window_view_entries x b c h w oh ow wh ww (Z.to_nat sr)
              (Z.to_nat sc) Hwf Hs Hfr Hfc)
    as (dst & Hdst & Hsd & Hwd & Hent).
  rewrite !Z2Nat.id in Hdst by lia.
  assert (Hoh : 0 < oh).
  { unfold oh, window_count.
    assert (0 <= (Z.of_nat h - Z.of_nat wh) / sr)%Z by (apply Z.div_pos; lia).
    lia. }
  assert (How : 0 < ow).
  { unfold ow, window_count.
    assert (0 <= (Z.of_nat w - Z.of_nat ww) / sc)%Z by (apply Z.div_pos; lia).
    lia. }
  assert (Hlen : length (data dst) = (oh * ow) * (b * c * (wh * ww))).
  { rewrite Hwd, Hsd. unfold size. cbn [fold_right]. lia. }
  exists (mk_ndarray [b; c; oh * ow; wh * ww] (data dst)).
  split.
  - unfold Cell112.im2col, Cell112.assert_strides, Cell112.shape_at.
    rewrite Hs. cbn [nth_error bind ok fst snd].
    rewrite !py_mod_ok by lia. cbn [bind ok]. rewrite Hmr, Hmc.
    cbn [Z.gtb Z.compare bind ok].
    unfold unpack4. rewrite Hs. cbn [bind ok].
    unfold Np.strides. rewrite Hs. cbn [c_strides fst snd].
    rewrite !py_floordiv_ok by lia. cbn [bind ok].
    assert (Hqr : (0 <= (Z.of_nat h - Z.of_nat wh) / sr)%Z)
      by (apply Z.div_pos; lia).
    assert (Hqc : (0 <= (Z.of_nat w - Z.of_nat ww) / sc)%Z)
      by (apply Z.div_pos; lia).
    rewrite !dim_of_Z_ok by lia. cbn [bind ok].
    fold (window_count h (Z.of_nat wh) sr). fold (window_count w (Z.of_nat ww) sc).
    fold oh ow. rewrite !Nat2Z.id.
    rewrite Hdst. cbn [bind ok Z.eqb].
    rewrite HG. cbn [lookup bind ok].
    assert (Hk : size [b; c] * size [wh * ww] = b * c * (wh * ww))
      by (unfold size; cbn [fold_right]; lia).
    rewrite reshape_infer_ok.
    + rewrite Hk, Hlen.
      rewrite (Nat.div_mul (oh * ow) (b * c * (wh * ww))) by nia.
      reflexivity.
    + rewrite Hk. nia.
    + rewrite Hk, Hlen. apply Nat.Div0.mod_mul.
  - cbn [shape data]. split; [reflexivity|]. split.
    + unfold wf. cbn [shape data]. rewrite Hlen.
      unfold size. cbn [fold_right]. lia.
    + intros ib ic i j p q Hib Hic Hi Hj Hp Hq.
      rewrite <- (Hent ib ic i j p q) by assumption.
      f_equal. cbn [ravel]. unfold size. cbn [fold_right]. ring.
Qed.

(** [im2col] on a 4-d image that the strides leave no remainder on. *)
Lemma im2col_entries_aux G (img : ndarray T) b c h w fr fc sr sc gp pad :
  wf img -> shape img = [b; c; h; w] ->
  g_pad G = Some gp -> np_prod_pad gp = ok 0%Z ->
  (1 <= sr)%Z -> (1 <= sc)%Z ->
  (0 <= fr <= Z.of_nat h)%Z -> (0 <= fc <= Z.of_nat w)%Z ->
  ((Z.of_nat h - fr) mod sr = 0)%Z -> ((Z.of_nat w - fc) mod sc = 0)%Z ->
  let nr := window_count h fr sr in
  let nc := window_count w fc sc in
  exists m,
    (forall force, im2col zero G img (fr, fc) pad (sr, sc) force = ok m) /\
    shape m = [b * nr * nc; c * Z.to_nat fr * Z.to_nat fc] /\
    forall ib i j ic p q,
      ib < b -> i < nr -> j < nc -> ic < c ->
      p < Z.to_nat fr -> q < Z.to_nat fc ->
      nth (ravel [b * nr * nc; c * Z.to_nat fr * Z.to_nat fc]
             [(ib * nr + i) * nc + j; (ic * Z.to_nat fr + p) * Z.to_nat fc + q])
          (data m) zero
      = nth (ravel [b; c; h; w]
               [ib; ic; i * Z.to_nat sr + p; j * Z.to_nat sc + q])
            (data img) zero.
Proof.
  intros Hwf Hs Hg Hp Hsr Hsc Hfr Hfc Hgr Hgc nr nc.
  destruct (im2col_tail_entries img b c h w fr fc sr sc
              Hwf Hs Hsr Hsc Hfr Hfc) as (m & Hm & Hsm & Hem).
  exists m. split; [|split; assumption].
  intros force. unfold im2col.
  rewrite (reshape_img_4d img b c h w Hs). cbn [bind ok].
  rewrite (pad_img_noop zero G img gp)
    by (auto; unfold ndim; rewrite Hs; simpl; lia).
  cbn [bind ok]. unfold unpack4. rewrite Hs. cbn [bind ok].
  unfold get_remainders_of_filtering. cbn [fst snd].
  rewrite !py_mod_ok by lia. cbn [bind ok]. rewrite Hgr, Hgc.
  cbn [Z.gtb Z.compare orb bind ok].
  exact Hm.
Qed.

End Facts.

(** [X1] [im2col] (lines 149-217) on a 4-d image (b, c, h, w) and a window
    that fits, with strides that leave no remainder: the matrix has one row
    per window position and image and one column per channel and window
    cell, and the entry in row (ib, i, j), column (ic, p, q) is the pixel
    (i*sr + p, j*sc + q) of channel ic of image ib.  The result is the same
    for both values of [force].  The image is not padded whatever [pad] is
    passed, because [pad_img] tests the module-level [pad], which the file
    sets to (0, 0). *)
Theorem im2col_window_entries {T} (zero : T) G (img : ndarray T)
    b c h w fr fc sr sc gp pad :
  wf img -> shape img = [b; c; h; w] ->
  g_pad G = Some gp -> np_prod_pad gp = ok 0%Z ->
  (1 <= sr)%Z -> (1 <= sc)%Z ->
  (0 <= fr <= Z.of_nat h)%Z -> (0 <= fc <= Z.of_nat w)%Z ->
  ((Z.of_nat h - fr) mod sr = 0)%Z -> ((Z.of_nat w - fc) mod sc = 0)%Z ->
  let nr := window_count h fr sr in
  let nc := window_count w fc sc in
  exists m,
    (forall force, im2col zero G img (fr, fc) pad (sr, sc) force = ok m) /\
    shape m = [b * nr * nc; c * Z.to_nat fr * Z.to_nat fc] /\
    forall ib i j ic p q,
      ib < b -> i < nr -> j < nc -> ic < c ->
      p < Z.to_nat fr -> q < Z.to_nat fc ->
      nth (ravel [b * nr * nc; c * Z.to_nat fr * Z.to_nat fc]
             [(ib * nr + i) * nc + j; (ic * Z.to_nat fr + p) * Z.to_nat fc + q])
          (data m) zero
      = nth (ravel [b; c; h; w]
               [ib; ic; i * Z.to_nat sr + p; j * Z.to_nat sc + q])
            (data img) zero.
Proof.
  intros Hwf Hs Hg Hp Hsr Hsc Hfr Hfc Hgr Hgc nr nc.
  exact (im2col_entries_aux zero G img b c h w fr fc sr sc gp pad
           Hwf Hs Hg Hp Hsr Hsc Hfr Hfc Hgr Hgc).
Qed.

(** A 5x5 image, a 3x3 window moved by two pixels: four windows. *)
Lemma im2col_window_entries_witness :
  let img := mk_ndarray [1; 1; 5; 5] (map Z.of_nat (seq 0 25)) in
  exists m,
    im2col 0%Z module_globals img (3, 3)%Z (PadInt 1, PadInt 1) (2, 2)%Z false
    = ok m /\
    shape m = [4; 9] /\
    nth (ravel [4; 9] [3; 4]) (data m) 0%Z = 18%Z.
Proof.
  intros img.
  destruct (im2col_window_entries 0%Z module_globals img 1 1 5 5 3 3 2 2
              (PadInt 0, PadInt 0)%Z (PadInt 1, PadInt 1)%Z)
    as (m & Hm & Hs & He);
    try reflexivity; try lia.
  exists m. split; [apply Hm|]. split; [exact Hs|].
  refine (eq_trans (He 0 1 1 0 1 1 _ _ _ _ _ _) _);
    vm_compute; try lia; reflexivity.
Defined.

(** [X2] [pad_img] on a 4-d image, when the module-level [pad] has no zero
    entry: the two image axes grow by the amounts asked for, tuples
    (before, after) or ints (the same on both sides), the image sits at
    offset (before_rows, before_cols) and everything around it is 0. *)
Theorem pad_img_entries {T} (zero : T) G (img : ndarray T) gp p
    b c rows cols r0 r1 c0 c1 :
  shape img = [b; c; rows; cols] ->
  g_pad G = Some gp -> np_prod_pad gp = ok p -> p <> 0%Z ->
  exists ext,
    pad_img zero G img (PadPair (Z.of_nat r0) (Z.of_nat r1))
      (PadPair (Z.of_nat c0) (Z.of_nat c1)) = ok ext /\
    (r0 = r1 -> c0 = c1 -> c0 <> 0 ->
       pad_img zero G img (PadInt (Z.of_nat r0)) (PadInt (Z.of_nat c0)) = ok ext) /\
    shape ext = [b; c; rows + r0 + r1; cols + c0 + c1] /\
    forall ib ic r s,
      ib < b -> ic < c -> r < rows + r0 + r1 -> s < cols + c0 + c1 ->
      nth (ravel [b; c; rows + r0 + r1; cols + c0 + c1] [ib; ic; r; s])
          (data ext) zero
      = if (r0 <=? r) && (r <? r0 + rows) && ((c0 <=? s) && (s <? c0 + cols))
        then nth (ravel [b; c; rows; cols] [ib; ic; r - r0; s - c0])
                 (data img) zero
        else zero.
Proof.
  intros Hs Hg Hp Hp0.
  destruct (pad_constant_entries zero img b c rows cols r0 r1 c0 c1 Hs)
    as (ext & Hext & Hse & _ & Hent).
  assert (Hpad : forall pr pc,
            pad_img zero G img pr pc
            = pad_constant zero img
                (repeat (0%Z, 0%Z) 2
                 ++ match pr with
                    | PadPair x y => [(x, y)]
                    | PadInt n => [(n, n)]
                    end
                 ++ match pc with
                    | PadPair x y => [(x, y)]
                    | PadInt n => if (n =? 0)%Z then [] else [(n, n)]
                    end)).
  { intros pr pc. unfold pad_img, ndim. rewrite Hs.
    cbn [length Nat.ltb Nat.leb]. rewrite Hg. cbn [lookup bind ok].
    rewrite Hp. cbn [bind ok].
    destruct (Z.eqb_spec p 0); [contradiction|].
    cbn [Nat.sub]. now rewrite <- app_assoc. }
  exists ext. split; [|split; [|split; assumption]].
  - rewrite Hpad. exact Hext.
  - intros <- <- Hc. rewrite Hpad.
    destruct (Z.eqb_spec (Z.of_nat c0) 0); [lia|]. exact Hext.
Qed.

(** A 2x2 image padded by one row above and two columns on the right. *)
Lemma pad_img_entries_witness :
  let G := mk_globals (Some (PadInt 1, PadInt 1)) None None None None None in
  let img := mk_ndarray [1; 1; 2; 2] [1; 2; 3; 4]%Z in
  exists ext,
    pad_img 0%Z G img (PadPair 1 0) (PadPair 0 2) = ok ext /\
    shape ext = [1; 1; 3; 4] /\
    data ext = [0; 0; 0; 0; 1; 2; 0; 0; 3; 4; 0; 0]%Z.
Proof.
  intros G img.
  destruct (pad_img_entries 0%Z G img (PadInt 1, PadInt 1) 1%Z 1 1 2 2 1 0 0 2)
    as (ext & Hext & _ & Hs & _); try reflexivity; try discriminate.
  exists ext. split; [exact Hext|]. split; [exact Hs|].
  vm_compute in Hext. injection Hext as <-. reflexivity.
Defined.

(** [X3] [pad_img] called with the int 0 for [pad_cols] (and a module-level
    [pad] without zero entry) leaves the column pair out of [pad_width]:
    on a 2-d image numpy then applies the row pair to both axes, so the
    columns are padded by [pad_rows] as well; on an image with three or
    more axes [np.pad] rejects the pad width with a ValueError. *)
Theorem pad_img_zero_cols {T} (zero : T) G (img : ndarray T) gp p n :
  g_pad G = Some gp -> np_prod_pad gp = ok p -> p <> 0%Z ->
  (forall h w, shape img = [h; w] ->
     exists ext,
       pad_img zero G img (PadInt (Z.of_nat n)) (PadInt 0) = ok ext /\
       shape ext = [h + n + n; w + n + n]) /\
  (3 <= ndim img ->
     pad_img zero G img (PadInt (Z.of_nat n)) (PadInt 0)
     = raise (ValueError "unable to broadcast pad_width")).
Proof.
  intros Hg Hp Hp0. split.
  - intros h w Hs. unfold pad_img, ndim. rewrite Hs.
    cbn [length Nat.ltb Nat.leb]. rewrite Hg. cbn [lookup bind ok].
    rewrite Hp. cbn [bind ok]. destruct (Z.eqb_spec p 0); [contradiction|].
    cbn [Nat.sub repeat app Z.eqb].
    unfold pad_constant, ndim. rewrite Hs.
    cbn [length Nat.eqb repeat bind ok forallb fst snd].
    assert (Hn : (0 <=? Z.of_nat n)%Z = true) by (apply Z.leb_le; lia).
    rewrite Hn. cbn [andb].
    eexists. split; [reflexivity|].
    cbn [shape combine map fst snd]. now rewrite !Nat2Z.id.
  - intros Hnd. unfold pad_img.
    destruct (Nat.ltb_spec (ndim img) 2); [lia|].
    rewrite Hg. cbn [lookup bind ok]. rewrite Hp. cbn [bind ok].
    destruct (Z.eqb_spec p 0); [contradiction|].
    cbn [Z.eqb]. rewrite app_nil_r.
    unfold pad_constant.
    rewrite length_app, repeat_length. cbn [length].
    destruct (Nat.eqb_spec (ndim img - 2 + 1) (ndim img)); [lia|].
    destruct (repeat (0%Z, 0%Z) (ndim img - 2) ++ [(Z.of_nat n, Z.of_nat n)])
      as [|x [|y l]] eqn:E; try reflexivity.
    exfalso.
    assert (Hk : 1 <= ndim img - 2) by lia.
    exact (repeat_app_not_single _ _ _ Hk _ E).
Qed.

Lemma pad_img_zero_cols_witness :
  let G := mk_globals (Some (PadInt 1, PadInt 1)) None None None None None in
  (exists ext,
     pad_img 0%Z G (mk_ndarray [1; 2] [7; 8]%Z) (PadInt 1) (PadInt 0) = ok ext /\
     shape ext = [3; 4]) /\
  pad_img 0%Z G (mk_ndarray [1; 1; 2] [7; 8]%Z) (PadInt 1) (PadInt 0)
  = raise (ValueError "unable to broadcast pad_width").
Proof.
  intros G.
  assert (Hp0 : 1%Z <> 0%Z) by discriminate.
  split.
  - exact (proj1 (pad_img_zero_cols 0%Z G (mk_ndarray [1; 2] [7; 8]%Z)
                    (PadInt 1, PadInt 1) 1%Z 1 eq_refl eq_refl Hp0)
                 1 2 eq_refl).
  - apply (proj2 (pad_img_zero_cols 0%Z G (mk_ndarray [1; 1; 2] [7; 8]%Z)
                    (PadInt 1, PadInt 1) 1%Z 1 eq_refl eq_refl Hp0)).
    cbn. lia.
Defined.

(** [X4] [reshape_img] turns an array of one to four axes into a 4-d one by
    putting axes of extent 1 in front, keeps the elements in their order,
    and leaves its own result alone; more than four axes raise the
    RuntimeError; a 0-d array falls through all the tests and is returned
    as it is. *)
Theorem reshape_img_rank {T} (img : ndarray T) :
  wf img ->
  (1 <= ndim img <= 4 ->
     exists r,
       reshape_img img = ok r /\
       shape r = repeat 1 (4 - ndim img) ++ shape img /\
       data r = data img /\
       reshape_img r = ok r) /\
  (4 < ndim img ->
     reshape_img img = raise (RuntimeError "len(img.shape) must be <= 4.")) /\
  (ndim img = 0 -> reshape_img img = ok img).
Proof.
  intros Hwf. destruct img as [s d]. unfold wf, ndim in *. cbn [shape data] in *.
  destruct s as [|a [|b [|c [|e [|f l]]]]]; cbn [length].
  - split; [lia|]. split; [lia|]. reflexivity.
  - split; [|split; lia]. intros _. unfold reshape_img. cbn [shape].
    rewrite reshape_ok
      by (cbn [data]; rewrite Hwf; unfold size; cbn [fold_right]; lia).
    eexists. split; [reflexivity|]. cbn [shape data]. repeat split.
  - split; [|split; lia]. intros _. unfold reshape_img. cbn [shape].
    rewrite reshape_ok
      by (cbn [data]; rewrite Hwf; unfold size; cbn [fold_right]; lia).
    eexists. split; [reflexivity|]. cbn [shape data]. repeat split.
  - split; [|split; lia]. intros _. unfold reshape_img. cbn [shape].
    rewrite reshape_ok
      by (cbn [data]; rewrite Hwf; unfold size; cbn [fold_right]; lia).
    eexists. split; [reflexivity|]. cbn [shape data]. repeat split.
  - split; [|split; lia]. intros _. unfold reshape_img. cbn [shape length].
    eexists. split; [reflexivity|]. cbn [shape data]. repeat split.
  - split; [lia|]. split; [|lia]. intros _.
    unfold reshape_img. cbn [shape length].
    destruct (Nat.ltb_spec 4 (S (S (S (S (S (length l))))))); [reflexivity|lia].
Qed.

Lemma reshape_img_rank_witness :
  exists r,
    reshape_img (mk_ndarray [2; 3] [1; 2; 3; 4; 5; 6]%Z) = ok r /\
    shape r = [1; 1; 2; 3] /\
    data r = [1; 2; 3; 4; 5; 6]%Z.
Proof.
  destruct (reshape_img_rank (mk_ndarray [2; 3] [1; 2; 3; 4; 5; 6]%Z) eq_refl)
    as (H & _).
  destruct H as (r & Hr & Hs & Hd & _); [cbn; lia|].
  exists r. repeat split; assumption.
Defined.

(** [X5] For positive strides and a window that fits,
    [get_remainders_of_filtering] returns, per axis, a remainder below the
    stride, and it is exactly the number of rows (columns) behind the last
    window position that [im2col] counts: (dst_rows - 1) * stride + f_rows
    + rem_r = rows.  A stride of 0 raises ZeroDivisionError. *)
Theorem remainders_of_filtering_cover rows cols f_rows f_cols sr sc :
  ((1 <= sr)%Z -> (1 <= sc)%Z ->
   (0 <= f_rows <= Z.of_nat rows)%Z -> (0 <= f_cols <= Z.of_nat cols)%Z ->
   exists rem_r rem_c,
     get_remainders_of_filtering (Z.of_nat rows) (Z.of_nat cols) f_rows f_cols
       (sr, sc) = ok (rem_r, rem_c) /\
     (0 <= rem_r < sr)%Z /\ (0 <= rem_c < sc)%Z /\
     (Z.of_nat (window_count rows f_rows sr - 1) * sr + f_rows + rem_r
      = Z.of_nat rows)%Z /\
     (Z.of_nat (window_count cols f_cols sc - 1) * sc + f_cols + rem_c
      = Z.of_nat cols)%Z) /\
  get_remainders_of_filtering (Z.of_nat rows) (Z.of_nat cols) f_rows f_cols
    (0%Z, sc) = raise ZeroDivisionError /\
  ((sr <> 0)%Z ->
   get_remainders_of_filtering (Z.of_nat rows) (Z.of_nat cols) f_rows f_cols
     (sr, 0%Z) = raise ZeroDivisionError).
Proof.
  split; [|split].
  - intros Hsr Hsc Hfr Hfc.
    exists ((Z.of_nat rows - f_rows) mod sr)%Z, ((Z.of_nat cols - f_cols) mod sc)%Z.
    split.
    { unfold get_remainders_of_filtering. cbn [fst snd].
      rewrite !py_mod_ok by lia. reflexivity. }
    split; [apply Z.mod_pos_bound; lia|].
    split; [apply Z.mod_pos_bound; lia|].
    unfold window_count.
    assert (Hqr : (0 <= (Z.of_nat rows - f_rows) / sr)%Z) by (apply Z.div_pos; lia).
    assert (Hqc : (0 <= (Z.of_nat cols - f_cols) / sc)%Z) by (apply Z.div_pos; lia).
    pose proof (Z.div_mod (Z.of_nat rows - f_rows) sr ltac:(lia)) as Dr.
    pose proof (Z.div_mod (Z.of_nat cols - f_cols) sc ltac:(lia)) as Dc.
    split; nia.
  - reflexivity.
  - intros Hsr. unfold get_remainders_of_filtering. cbn [fst snd].
    rewrite py_mod_ok by exact Hsr. reflexivity.
Qed.

(** 7 rows, a window of 3 rows moved by 3: two windows, one row left. *)
Lemma remainders_of_filtering_cover_witness :
  get_remainders_of_filtering 7 7 3 3 (3, 3)%Z = ok (1, 1)%Z /\
  window_count 7 3 3 = 2.
Proof.
  destruct (remainders_of_filtering_cover 7 7 3 3 3 3) as (H & _).
  destruct H as (rr & rc & Hg & _); try lia.
  split; [|reflexivity].
  change (Z.of_nat 7) with 7%Z in Hg. rewrite Hg.
  vm_compute in Hg. injection Hg as <- <-. reflexivity.
Defined.

(** [X6] The [im2col] of cell In[112] (lines 384-461) on a 4-d image
    (b, c, h, w) with a window that fits: with [ch_axis=0], the default,
    the result has shape (b, c, oh*ow, wh*ww) and entry
    [ib, ic, i*ow + j, p*ww + q] is pixel (i*sr + p, j*sc + q) of channel ic
    of image ib; with [ch_axis=1] it has shape (b, oh*ow, wh*ww*c), the
    windows of the channels side by side.  [assert_strides] compares the
    strides with the batch and channel extents, and the leading extent of
    the result is the module-level [batch_size]. *)
Theorem cell_im2col_window_entries {T} (zero : T) G (x : ndarray T)
    b c h w wh ww sr sc pad :
  wf x -> shape x = [b; c; h; w] ->
  0 < b -> 0 < c -> 0 < wh <= h -> 0 < ww <= w ->
  (1 <= sr)%Z -> (1 <= sc)%Z ->
  ((Z.of_nat b - Z.of_nat wh) mod sr = 0)%Z ->
  ((Z.of_nat c - Z.of_nat ww) mod sc = 0)%Z ->
  g_batch_size G = Some b ->
  let oh := window_count h (Z.of_nat wh) sr in
  let ow := window_count w (Z.of_nat ww) sc in
  (exists m,
     Cell112.im2col zero G x (Z.of_nat wh, Z.of_nat ww) pad (sr, sc) 0%Z = ok m /\
     shape m = [b; c; oh * ow; wh * ww] /\
     forall ib ic i j p q,
       ib < b -> ic < c -> i < oh -> j < ow -> p < wh -> q < ww ->
       nth (ravel [b; c; oh * ow; wh * ww] [ib; ic; i * ow + j; p * ww + q])
           (data m) zero
       = nth (ravel [b; c; h; w]
                [ib; ic; i * Z.to_nat sr + p; j * Z.to_nat sc + q])
             (data x) zero) /\
  (exists m,
     Cell112.im2col zero G x (Z.of_nat wh, Z.of_nat ww) pad (sr, sc) 1%Z = ok m /\
     shape m = [b; oh * ow; wh * ww * c] /\
     forall ib i j ic p q,
       ib < b -> i < oh -> j < ow -> ic < c -> p < wh -> q < ww ->
       nth (ravel [b; oh * ow; wh * ww * c]
              [ib; i * ow + j; (ic * wh + p) * ww + q])
           (data m) zero
       = nth (ravel [b; c; h; w]
                [ib; ic; i * Z.to_nat sr + p; j * Z.to_nat sc + q])
             (data x) zero).
Proof.
  intros Hwf Hs Hb Hc Hwh Hww Hsr Hsc Hmr Hmc HG oh ow. split.
  - destruct (cell_im2col_entries_ch0 zero G x b c h w wh ww sr sc pad
                Hwf Hs Hb Hc Hwh Hww Hsr Hsc Hmr Hmc HG)
      as (m & Hm & Hsm & _ & Hem).
    exists m. repeat split; assumption.
  - destruct (cell_im2col_entries zero G x b c h w wh ww sr sc pad
                Hwf Hs Hb Hc Hwh Hww Hsr Hsc Hmr Hmc HG)
      as (m & Hm & Hsm & _ & Hem).
    exists m. split; [exact Hm|]. split; [exact Hsm|].
    intros ib i j ic p q Hib Hi Hj Hic Hp Hq.
    rewrite <- (Hem ib i j ic p q) by assumption.
    apply (f_equal (fun k => nth k (data m) zero)).
    subst oh ow. cbn [ravel]. unfold size. cbn [fold_right]. ring.
Qed.

(** Two 4x4 images of two channels, 2x2 windows moved by two pixels. *)
Lemma cell_im2col_window_entries_witness :
  let x := mk_ndarray [2; 2; 4; 4] (map Z.of_nat (seq 0 64)) in
  let G := mk_globals None None None None None (Some 2) in
  (exists m,
     Cell112.im2col 0%Z G x (2, 2)%Z (0, 0)%Z (2, 2)%Z 0%Z = ok m /\
     shape m = [2; 2; 4; 4]) /\
  (exists m,
     Cell112.im2col 0%Z G x (2, 2)%Z (0, 0)%Z (2, 2)%Z 1%Z = ok m /\
     shape m = [2; 4; 8]).
Proof.
  intros x G.
  destruct (cell_im2col_window_entries 0%Z G x 2 2 4 4 2 2 2 2 (0, 0)%Z)
    as ((m0 & H0 & S0 & _) & (m1 & H1 & S1 & _));
    try reflexivity; try lia.
  split; [exists m0 | exists m1]; split; assumption.
Defined.



(** [X8] [pad_image] (lines 368-381), which takes [pad] as an argument: on
    a 4-d image both image axes grow by the pad on either side, the image
    sits at offset (pad[0], pad[1]) and the border is 0; with pad (0, 0) a
    well-formed image comes back unchanged.  Fewer than two or more than
    five axes raise the RuntimeError, and a negative pad is refused by
    [np.pad] with a ValueError. *)
Theorem pad_image_entries {T} (zero : T) (image : ndarray T) :
  (forall b c rows cols pr pc,
     shape image = [b; c; rows; cols] ->
     exists ext,
       Cell112.pad_image zero image (Z.of_nat pr, Z.of_nat pc) = ok ext /\
       shape ext = [b; c; rows + pr + pr; cols + pc + pc] /\
       (forall ib ic r s,
          ib < b -> ic < c -> r < rows + pr + pr -> s < cols + pc + pc ->
          nth (ravel [b; c; rows + pr + pr; cols + pc + pc] [ib; ic; r; s])
              (data ext) zero
          = if (pr <=? r) && (r <? pr + rows) && ((pc <=? s) && (s <? pc + cols))
            then nth (ravel [b; c; rows; cols] [ib; ic; r - pr; s - pc])
                     (data image) zero
            else zero) /\
       (wf image -> pr = 0 -> pc = 0 -> ext = image)) /\
  (ndim image < 2 \/ 5 < ndim image ->
   forall pad,
     Cell112.pad_image zero image pad
     = raise (RuntimeError "len(image.shape) > 5 or < 2.")) /\
  (forall b c rows cols p0 p1,
     shape image = [b; c; rows; cols] -> (p0 < 0)%Z \/ (p1 < 0)%Z ->
     Cell112.pad_image zero image (p0, p1)
     = raise (ValueError "index can't contain negative values")).
Proof.
  split; [|split].
  - intros b c rows cols pr pc Hs.
    destruct (pad_constant_entries zero image b c rows cols pr pr pc pc Hs)
      as (ext & Hext & Hse & Hwe & Hent).
    exists ext. split; [|split; [exact Hse|split; [exact Hent|]]].
    + unfold Cell112.pad_image. rewrite Hs. cbn [length fst snd]. exact Hext.
    + intros Hwf -> ->.
      assert (Hd : data ext = data image).
      { apply (nth_ext _ _ zero zero).
        - rewrite Hwe, Hwf, Hse, Hs. unfold size. cbn [fold_right]. lia.
        - intros k Hk. rewrite Hwe, Hse in Hk.
          rewrite !Nat.add_0_r in Hk, Hent.
          pose proof (unravel_in_shape _ _ Hk) as Hin.
          rewrite <- (ravel_unravel _ _ Hk).
          remember (unravel [b; c; rows; cols] k) as idx eqn:Eidx.
          clear Eidx Hk.
          split_index4 idx Hin ib ic r s.
          rewrite Hent by assumption.
          cbn [Nat.leb Nat.add andb].
          assert (R : (r <? rows) = true) by (apply Nat.ltb_lt; lia).
          assert (S : (s <? cols) = true) by (apply Nat.ltb_lt; lia).
          rewrite R, S, !Nat.sub_0_r. reflexivity. }
      destruct ext as [se de], image as [si di]. cbn [shape data] in *.
      rewrite Hse, Hs, Hd, !Nat.add_0_r. reflexivity.
  - intros Hn pad. unfold Cell112.pad_image, ndim in *.
    destruct (length (shape image)) as [|[|[|[|[|[|n]]]]]]; try reflexivity; lia.
  - intros b c rows cols p0 p1 Hs Hneg.
    unfold Cell112.pad_image. rewrite Hs. cbn [length fst snd].
    unfold pad_constant, ndim. rewrite Hs.
    cbn [length Nat.eqb bind ok forallb fst snd Z.leb Z.compare andb].
    destruct Hneg as [Hneg | Hneg].
    + destruct (Z.leb_spec 0 p0); [lia|]. reflexivity.
    + destruct (Z.leb_spec 0 p1); [lia|].
      destruct (0 <=? p0)%Z; reflexivity.
Qed.

Lemma pad_image_entries_witness :
  let image := mk_ndarray [1; 1; 2; 2] [1; 2; 3; 4]%Z in
  exists ext,
    Cell112.pad_image 0%Z image (1, 0)%Z = ok ext /\
    shape ext = [1; 1; 4; 2] /\
    data ext = [0; 0; 1; 2; 3; 4; 0; 0]%Z.
Proof.
  intros image.
  destruct (proj1 (pad_image_entries 0%Z image) 1 1 2 2 1 0 eq_refl)
    as (ext & Hext & Hs & _).
  exists ext. split; [exact Hext|]. split; [exact Hs|].
  vm_compute in Hext. injection Hext as <-. reflexivity.
Defined.

End Im2colMore.

(** ** [im2col] with [force=True] *)

Module ForceFacts.

Import Im2col Im2colFacts Im2colMore.

Section Facts.

Context {T : Type} (zero : T).

(** With a module-level [pad] that has a zero entry and the module-level
    [gap_r], [gap_c] bound (to any numbers), [extend_img_for_filtering]
    returns the image it was given: it never looks at its remainders, and
    [pad_img] returns before padding. *)
Lemma extend_img_for_filtering_noop G (img : ndarray T) gp gr gc rem_r rem_c :
  2 <= ndim img ->
  g_pad G = Some gp -> np_prod_pad gp = ok 0%Z ->
  g_gap_r G = Some gr -> g_gap_c G = Some gc ->
  extend_img_for_filtering zero G img rem_r rem_c = ok img.
Proof.
  intros Hn Hg Hp Hgr Hgc. unfold extend_img_for_filtering.
  rewrite Hgr, Hgc. cbn [lookup bind ok].
  now apply (pad_img_noop zero G img gp).
Qed.

(** The windows counted by [im2col] stop short of the remainder. *)
Lemma windows_stop_before_remainder n f s :
  (1 <= s)%Z -> (0 <= f <= Z.of_nat n)%Z ->
  (Z.of_nat (window_count n f s - 1) * s + f + (Z.of_nat n - f) mod s
   = Z.of_nat n)%Z.
Proof.
  intros Hs Hf. unfold window_count.
  assert (Hq : (0 <= (Z.of_nat n - f) / s)%Z) by (apply Z.div_pos; lia).
  pose proof (Z.div_mod (Z.of_nat n - f) s ltac:(lia)) as D.
  nia.
Qed.

End Facts.

(** [C2] With [force=False], an image that leaves a nonzero remainder
    (rows - window) mod stride on some axis makes [im2col] raise the
    RuntimeError that reports the mismatch, as the specification says.  With
    [force=True], in the namespace the file itself sets up (a module-level
    [pad] with a zero entry, [gap_r] and [gap_c] bound), no padding takes
    place: [extend_img_for_filtering] returns the image as it is, and
    [im2col] returns the windows of the unpadded image, one row per window
    position (rows - window)//stride + 1 counted with the remainder cut
    off, so that the last [remainder] rows and columns of the image are in
    no window and the image is not made divisible by the stride.  In a
    namespace in which [gap_r] is not bound, the call raises NameError. *)
Theorem im2col_force_leaves_image_unpadded {T} (zero : T) G (img : ndarray T)
    b c h w fr fc sr sc gp gr gc pad :
  wf img -> shape img = [b; c; h; w] ->
  g_pad G = Some gp -> np_prod_pad gp = ok 0%Z ->
  g_gap_r G = Some gr -> g_gap_c G = Some gc ->
  (1 <= sr)%Z -> (1 <= sc)%Z ->
  (0 <= fr <= Z.of_nat h)%Z -> (0 <= fc <= Z.of_nat w)%Z ->
  ((Z.of_nat h - fr) mod sr <> 0 \/ (Z.of_nat w - fc) mod sc <> 0)%Z ->
  let rem_r := ((Z.of_nat h - fr) mod sr)%Z in
  let rem_c := ((Z.of_nat w - fc) mod sc)%Z in
  let nr := window_count h fr sr in
  let nc := window_count w fc sc in
  im2col zero G img (fr, fc) pad (sr, sc) false
  = raise (RuntimeError shape_mismatch_msg) /\
  extend_img_for_filtering zero G img rem_r rem_c = ok img /\
  (exists m,
     im2col zero G img (fr, fc) pad (sr, sc) true = ok m /\
     shape m = [b * nr * nc; c * Z.to_nat fr * Z.to_nat fc] /\
     forall ib i j ic p q,
       ib < b -> i < nr -> j < nc -> ic < c ->
       p < Z.to_nat fr -> q < Z.to_nat fc ->
       nth (ravel [b * nr * nc; c * Z.to_nat fr * Z.to_nat fc]
              [(ib * nr + i) * nc + j; (ic * Z.to_nat fr + p) * Z.to_nat fc + q])
           (data m) zero
       = nth (ravel [b; c; h; w]
                [ib; ic; i * Z.to_nat sr + p; j * Z.to_nat sc + q])
             (data img) zero) /\
  (Z.of_nat (nr - 1) * sr + fr + rem_r = Z.of_nat h)%Z /\
  (Z.of_nat (nc - 1) * sc + fc + rem_c = Z.of_nat w)%Z /\
  (forall G', g_pad G' = Some gp -> g_gap_r G' = None ->
     im2col zero G' img (fr, fc) pad (sr, sc) true
     = raise (NameError "gap_r")).
Proof.
  intros Hwf Hs Hg Hp Hgr Hgc Hsr Hsc Hfr Hfc Hgap rem_r rem_c nr nc.
  assert (Hnd : 2 <= ndim img) by (unfold ndim; rewrite Hs; cbn; lia).
  assert (Hr : (0 <= rem_r < sr)%Z) by (apply Z.mod_pos_bound; lia).
  assert (Hc : (0 <= rem_c < sc)%Z) by (apply Z.mod_pos_bound; lia).
  assert (Hcond : ((rem_r >? 0) || (rem_c >? 0))%Z = true).
  { apply orb_true_iff. rewrite !Z.gtb_lt. fold rem_r rem_c in Hgap. lia. }
  assert (Hext : extend_img_for_filtering zero G img rem_r rem_c = ok img)
    by (apply (ForceFacts.extend_img_for_filtering_noop zero G img gp gr gc);
        assumption).
  split; [|split; [exact Hext|split; [|split; [|split]]]].
  - unfold im2col.
    rewrite (reshape_img_4d img b c h w Hs). cbn [bind ok].
    rewrite (pad_img_noop zero G img gp) by assumption.
    cbn [bind ok]. unfold unpack4. rewrite Hs. cbn [bind ok].
    unfold get_remainders_of_filtering. cbn [fst snd].
    rewrite !py_mod_ok by lia. cbn [bind ok]. fold rem_r rem_c.
    rewrite Hcond. reflexivity.
  - destruct (im2col_tail_entries zero img b c h w fr fc sr sc
                Hwf Hs Hsr Hsc Hfr Hfc) as (m & Hm & Hsm & Hem).
    exists m. split; [|split; assumption].
    unfold im2col.
    rewrite (reshape_img_4d img b c h w Hs). cbn [bind ok].
    rewrite (pad_img_noop zero G img gp) by assumption.
    cbn [bind ok]. unfold unpack4 at 1. rewrite Hs. cbn [bind ok].
    unfold get_remainders_of_filtering. cbn [fst snd].
    rewrite !py_mod_ok by lia. cbn [bind ok]. fold rem_r rem_c.
    rewrite Hcond, Hext. cbn [bind ok]. unfold unpack4. rewrite Hs.
    cbn [bind ok]. exact Hm.
  - exact (ForceFacts.windows_stop_before_remainder h fr sr Hsr Hfr).
  - exact (ForceFacts.windows_stop_before_remainder w fc sc Hsc Hfc).
  - intros G' Hg' Hgr'. unfold im2col.
    rewrite (reshape_img_4d img b c h w Hs). cbn [bind ok].
    rewrite (pad_img_noop zero G' img gp) by assumption.
    cbn [bind ok]. unfold unpack4 at 1. rewrite Hs. cbn [bind ok].
    unfold get_remainders_of_filtering. cbn [fst snd].
    rewrite !py_mod_ok by lia. cbn [bind ok]. fold rem_r rem_c.
    rewrite Hcond. unfold extend_img_for_filtering. rewrite Hgr'.
    reflexivity.
Qed.

(** In the namespace of the file (pad = (0, 0), gap_r = gap_c = 0): a 7x7
    image, a 3x3 filter and strides of 3 leave a remainder of 1 on both
    axes.  [force=True] returns the four windows of the unpadded image;
    the last entry of the matrix is pixel (5, 5), and row 6 and column 6
    are in no window. *)
Lemma im2col_force_leaves_image_unpadded_witness :
  let img := mk_ndarray [1; 1; 7; 7] (map Z.of_nat (seq 0 49)) in
  get_remainders_of_filtering 7 7 3 3 (3, 3)%Z = ok (1, 1)%Z /\
  im2col 0%Z module_globals img (3, 3)%Z (PadInt 0, PadInt 0) (3, 3)%Z false
  = raise (RuntimeError shape_mismatch_msg) /\
  extend_img_for_filtering 0%Z module_globals img 1 1 = ok img /\
  exists m,
    im2col 0%Z module_globals img (3, 3)%Z (PadInt 0, PadInt 0) (3, 3)%Z true
    = ok m /\
    shape m = [4; 9] /\
    nth (ravel [4; 9] [3; 8]) (data m) 0%Z = 40%Z.
Proof.
  intros img.
  destruct (im2col_force_leaves_image_unpadded 0%Z module_globals img
              1 1 7 7 3 3 3 3 (PadInt 0, PadInt 0) 0%Z 0%Z
              (PadInt 0, PadInt 0))
    as (Hfalse & Hext & (m & Hm & Hsm & Hem) & _);
    try reflexivity; try lia.
  { left. discriminate. }
  split; [reflexivity|]. split; [exact Hfalse|]. split; [exact Hext|].
  exists m. split; [exact Hm|]. split; [exact Hsm|].
  refine (eq_trans (Hem 0 1 1 0 2 2 _ _ _ _ _ _) _);
    vm_compute; try lia; reflexivity.
Defined.

End ForceFacts.

(** ** More on the layers *)

Module LayerMore.

Import UfuncFacts NnUtils.

Ltac solve_shape :=
  repeat match goal with m := _ |- _ => subst m end;
  unfold amap in *; cbn [shape] in *; congruence.

Section Facts.

Context {A : Type} (F : float_ops A).

Lemma map2_same_shape_wf {T U V} (dt : T) (du : U) (op : T -> U -> V)
      (a : ndarray T) (b : ndarray U) :
  shape a = shape b ->
  exists r, map2 dt du op a b = ok r /\ shape r = shape a /\ wf r.
Proof.
  intros Hs. rewrite map2_same_shape by exact Hs.
  eexists. split; [reflexivity|]. split; [reflexivity|].
  unfold wf. cbn [shape data]. now rewrite tabulate_length.
Qed.

Lemma amap_wf {T U} (h : T -> U) (a : ndarray T) : wf a -> wf (amap h a).
Proof. unfold wf, amap. cbn [shape data]. now rewrite length_map. Qed.

(** Any array broadcasts against a 0-d one. *)
Lemma map2_scalar_r {T U V} (dt : T) (du : U) (op : T -> U -> V)
      (a : ndarray T) (v : U) :
  exists r, map2 dt du op a (scalar v) = ok r /\ shape r = shape a /\ wf r.
Proof.
  unfold map2, scalar. cbn [shape]. rewrite broadcast_shapes_scalar_r.
  eexists. split; [reflexivity|]. split; [reflexivity|].
  unfold wf. cbn [shape data]. now rewrite tabulate_length.
Qed.

(** The five activations that work entry by entry return an output of the
    shape of their input, and their [grad] on an array of that shape
    returns one of that shape again. *)
Lemma elementwise_activate_shape (act : Activation.instance A) (x : ndarray A) :
  act <> Activation.Softmax -> wf x ->
  exists act' y,
    Activation.activate F act x = ok (act', y) /\
    shape y = shape x /\ wf y /\
    Activation.get_type act' = Activation.get_type act /\
    forall f, shape f = shape x ->
      exists g, Activation.grad F act' f = ok g /\ shape g = shape x.
Proof.
  intros Hns Hwf. destruct act as [|m|m|m| |]; try contradiction.
  - (* Sigmoid *)
    cbn [Activation.activate]. eexists. eexists.
    split; [reflexivity|]. split; [reflexivity|].
    split; [now repeat apply amap_wf|]. split; [reflexivity|].
    intros f Hf. cbn [Activation.grad].
    destruct (map2_same_shape_wf (f_zero F) (f_zero F) (f_mul F)
                (amap (f_sub F (f_one F)) f) f eq_refl) as (g & -> & Hg & _).
    exists g. split; [reflexivity|]. now rewrite Hg.
  - (* ReLU *)
    cbn [Activation.activate].
    destruct (map2_same_shape_wf (f_zero F) (f_zero F) (f_mul F) x
                (amap (fun v => Activation.of_bool F (f_gt F v (f_zero F))) x)
                eq_refl) as (y & -> & Hy & Hwy).
    cbn [bind ok]. eexists. eexists.
    split; [reflexivity|]. split; [exact Hy|]. split; [exact Hwy|].
    split; [reflexivity|].
    intros f Hf. cbn [Activation.grad attr]. eexists. split; reflexivity.
  - (* ELU *)
    cbn [Activation.activate].
    set (mask := amap (fun v => f_gt F v (f_zero F)) x).
    destruct (map2_same_shape_wf false (f_zero F)
                (fun b v => f_mul F (Activation.of_bool F b) v) mask x eq_refl)
      as (t1 & -> & H1 & _).
    cbn [bind ok].
    destruct (map2_same_shape_wf false (f_zero F)
                (fun b v => f_mul F (Activation.of_bool F b) v) (amap negb mask)
                (amap (fun v => f_sub F v (f_one F)) (amap (f_exp F) x)) eq_refl)
      as (t2 & -> & H2 & _).
    cbn [bind ok].
    destruct (map2_same_shape_wf (f_zero F) (f_zero F) (f_add F) t1 t2
                ltac:(solve_shape)) as (y & -> & Hy & Hwy).
    cbn [bind ok]. eexists. eexists.
    split; [reflexivity|]. split; [solve_shape|]. split; [exact Hwy|].
    split; [reflexivity|].
    intros f Hf. cbn [Activation.grad attr bind ok].
    destruct (map2_same_shape_wf false (f_zero F)
                (fun b v => f_mul F (Activation.of_bool F b) v) (amap negb mask)
                (amap (fun v => f_add F v (f_one F)) f)
                ltac:(solve_shape)) as (t & -> & Ht & _).
    cbn [bind ok].
    destruct (map2_same_shape_wf false (f_zero F)
                (fun b v => f_add F (Activation.of_bool F b) v) mask t
                ltac:(solve_shape)) as (g & -> & Hg & _).
    exists g. split; [reflexivity|]. exact Hg.
  - (* SRReLU *)
    cbn [Activation.activate].
    set (mask := amap (fun v => f_gt F v (f_zero F)) x).
    destruct (map2_same_shape_wf false (f_zero F)
                (fun b v => f_mul F (Activation.of_bool F b) v) mask x eq_refl)
      as (t & -> & Ht & Hwt).
    cbn [bind ok]. eexists. eexists.
    split; [reflexivity|]. split; [exact Ht|].
    split; [now repeat apply amap_wf|]. split; [reflexivity|].
    intros f Hf. cbn [Activation.grad attr bind ok].
    destruct (map2_same_shape_wf (f_zero F) (f_zero F) (f_div F)
                (amap (fun b => f_mul F (Activation.of_bool F b) (f_half F)) mask)
                (amap (fun v => f_add F v (f_one F)) f)
                ltac:(solve_shape)) as (g & -> & Hg & _).
    exists g. split; [reflexivity|]. exact Hg.
  - (* Tanh *)
    cbn [Activation.activate]. eexists. eexists.
    split; [reflexivity|]. split; [reflexivity|].
    split; [now apply amap_wf|]. split; [reflexivity|].
    intros f Hf. cbn [Activation.grad]. eexists. split; [reflexivity|].
    exact Hf.
Qed.

Lemma broadcast_shapes_column n c :
  broadcast_shapes [n; c] [n; 1] = Some [n; c].
Proof.
  unfold broadcast_shapes. cbn [rev app broadcast_rev]. rewrite Nat.eqb_refl.
  destruct (Nat.eqb_spec c 1) as [-> | N]; [reflexivity|].
  cbn [Nat.eqb]. reflexivity.
Qed.

(** [Softmax.activate] on a non-empty 2-d array: the maximum of the whole
    array is subtracted, and every row is divided by its own sum. *)
Lemma softmax_entries (x : ndarray A) n c :
  wf x -> shape x = [n; c] -> 0 < n * c ->
  let M := fold_left (f_max F) (tl (data x)) (hd (f_zero F) (data x)) in
  let e := fun i j =>
             f_exp F (f_sub F (nth (i * c + j) (data x) (f_zero F)) M) in
  exists y,
    Activation.activate F Activation.Softmax x = ok (Activation.Softmax, y) /\
    shape y = [n; c] /\ wf y /\
    forall i j, i < n -> j < c ->
      nth (i * c + j) (data y) (f_zero F)
      = f_div F (e i j)
          (fold_left (f_add F) (map (fun j' => e i j') (seq 0 c)) (f_zero F)).
Proof.
  intros Hwf Hs Hpos M e.
  assert (Hlen : length (data x) = n * c).
  { rewrite Hwf, Hs. unfold size. cbn [fold_right]. lia. }
  set (var := amap (f_exp F) (amap (fun v0 => f_sub F v0 M) x)).
  assert (Hsv : shape var = [n; c])
    by (subst var; unfold amap; cbn [shape]; exact Hs).
  assert (Hvar : forall k, k < n * c ->
            nth k (data var) (f_zero F)
            = f_exp F (f_sub F (nth k (data x) (f_zero F)) M)).
  { intros k Hk. subst var. rewrite (nth_amap _ _ _ (f_zero F)).
    - rewrite (nth_amap _ _ _ (f_zero F)); [reflexivity|lia].
    - unfold amap. cbn [data]. rewrite length_map. lia. }
  assert (Hamax : Activation.amax F x = ok M).
  { unfold Activation.amax. subst M.
    destruct (data x) as [|v l]; [cbn in Hlen; lia|reflexivity]. }
  cbn [Activation.activate]. rewrite Hamax. cbn [bind ok]. fold var.
  unfold Activation.sum_axis1. rewrite Hsv. cbn [bind ok].
  unfold shape0. rewrite Hsv. cbn [bind ok].
  rewrite Im2colFacts.reshape_ok
    by (cbn [data]; rewrite tabulate_length; unfold size; cbn [fold_right]; lia).
  cbn [bind ok]. unfold map2. rewrite Hsv. cbn [shape].
  rewrite broadcast_shapes_column. cbn [bind ok].
  eexists. split; [reflexivity|]. cbn [shape data].
  split; [reflexivity|]. split.
  { unfold wf. cbn [shape data]. now rewrite tabulate_length. }
  intros i j Hi Hj.
  assert (Hin : in_shape [n; c] [i; j]) by (cbn; tauto).
  replace (i * c + j) with (ravel [n; c] [i; j])
    by (cbn [ravel]; unfold size; cbn [fold_right]; lia).
  rewrite nth_tabulate by (now apply ravel_lt).
  rewrite unravel_ravel by exact Hin.
  assert (B1 : ravel [n; c] (broadcast_index [n; c] [i; j]) = i * c + j).
  { unfold broadcast_index. cbn [length Nat.sub skipn combine map fst snd].
    destruct (Nat.eqb_spec n 1), (Nat.eqb_spec c 1);
      cbn [ravel]; unfold size; cbn [fold_right]; lia. }
  assert (B2 : ravel [n; 1] (broadcast_index [n; 1] [i; j]) = i).
  { unfold broadcast_index. cbn [length Nat.sub skipn combine map fst snd Nat.eqb].
    destruct (Nat.eqb_spec n 1);
      cbn [ravel]; unfold size; cbn [fold_right]; lia. }
  rewrite B1, B2.
  rewrite Hvar by nia.
  rewrite nth_tabulate by (unfold size; cbn [fold_right]; lia).
  cbn [unravel]. unfold size at 1. cbn [fold_right]. rewrite Nat.div_1_r.
  unfold e. f_equal.
  f_equal. apply map_ext_in. intros j' Hj'. apply in_seq in Hj'.
  replace (ravel [n; c] [i; j']) with (i * c + j')
    by (cbn [ravel]; unfold size; cbn [fold_right]; lia).
  apply Hvar. nia.
Qed.

(** Forward output and the product [dy * grad(fire)] of the backward step,
    for each of the six activations the factory builds. *)
Lemma activate_then_grad tag (x : ndarray A) :
  wf x ->
  (tag = Activation.softmax -> exists n c, shape x = [n; c] /\ 0 < n * c) ->
  exists act act' y,
    ActivationFactory.get (ActivationFactory.Member tag) = Some act /\
    Activation.activate F act x = ok (act', y) /\
    shape y = shape x /\
    forall dy, shape dy = shape x ->
      exists g b,
        Activation.grad F act' y = ok g /\
        map2 (f_zero F) (f_zero F) (f_mul F) dy g = ok b /\
        shape b = shape x.
Proof.
  intros Hwf Hsoft.
  assert (Helt : forall act, act <> Activation.Softmax ->
            exists act' y,
              Activation.activate F act x = ok (act', y) /\
              shape y = shape x /\
              forall dy, shape dy = shape x ->
                exists g b,
                  Activation.grad F act' y = ok g /\
                  map2 (f_zero F) (f_zero F) (f_mul F) dy g = ok b /\
                  shape b = shape x).
  { intros act Hns.
    destruct (elementwise_activate_shape act x Hns Hwf)
      as (act' & y & Hact & Hsy & _ & _ & Hg).
    exists act', y. split; [exact Hact|]. split; [exact Hsy|].
    intros dy Hdy. destruct (Hg y Hsy) as (g & Hgr & Hsg).
    destruct (map2_same_shape_wf (f_zero F) (f_zero F) (f_mul F) dy g
                ltac:(congruence)) as (b & Hb & Hsb & _).
    exists g, b. repeat split; congruence. }
  destruct tag; cbn [ActivationFactory.get].
  1-5: eexists; edestruct Helt as (act' & y & H); [|exists act', y;
         split; [reflexivity | exact H]]; discriminate.
  destruct (Hsoft eq_refl) as (n & c & Hs & Hpos).
  destruct (softmax_entries x n c Hwf Hs Hpos) as (y & Hact & Hsy & _).
  exists Activation.Softmax, Activation.Softmax, y.
  split; [reflexivity|]. split; [exact Hact|]. split; [congruence|].
  intros dy Hdy. cbn [Activation.grad].
  destruct (map2_scalar_r (f_zero F) (f_zero F) (f_mul F) dy (f_one F))
    as (b & Hb & Hsb & _).
  exists (scalar (f_one F)), b. repeat split; congruence.
Qed.

End Facts.

(** [X9] An [ActivationLayer] between flat layers keeps the shape through a
    training step: for each of the six activations, [forward] stores a
    [fire] of the shape of the input, and [backward] on a gradient of that
    shape stores a [backfire] of that shape again.  [Softmax] needs a
    non-empty 2-d input. *)
Theorem activation_layer_flat_shapes {A} (F : float_ops A) tag ishape
    (x dy : ndarray A) :
  is_multi_channels_image ishape = false ->
  wf x -> shape dy = shape x ->
  (tag = Activation.softmax -> exists n c, shape x = [n; c] /\ 0 < n * c) ->
  exists self1 self2 f b,
    ActivationLayer.__forward F
      (ActivationLayer.set_parent
         (ActivationLayer.init (ActivationFactory.Member tag)) ishape) x
    = ok self1 /\
    ActivationLayer.fire self1 = Some f /\ shape f = shape x /\
    ActivationLayer.__backward F self1 dy = ok self2 /\
    ActivationLayer.backfire self2 = Some b /\ shape b = shape x /\
    ActivationLayer.fire self2 = Some f.
Proof.
  intros Himg Hwf Hdy Hsoft.
  destruct (activate_then_grad F tag x Hwf Hsoft)
    as (act & act' & y & Hget & Hact & Hsy & Hback).
  destruct (Hback dy Hdy) as (g & b & Hg & Hb & Hsb).
  unfold ActivationLayer.init, ActivationLayer.set_parent.
  rewrite Hget.
  cbn [ActivationLayer.activation ActivationLayer.fire ActivationLayer.backfire].
  unfold ActivationLayer.__forward.
  cbn [ActivationLayer.input_shape ActivationLayer.output_shape
       ActivationLayer.activation ActivationLayer.backfire attr bind ok].
  rewrite Himg. cbn [bind ok]. rewrite Hact. cbn [bind ok].
  eexists. eexists. exists y, b.
  split; [reflexivity|]. cbn [ActivationLayer.fire].
  split; [reflexivity|]. split; [exact Hsy|].
  unfold ActivationLayer.__backward.
  cbn [ActivationLayer.input_shape ActivationLayer.output_shape
       ActivationLayer.activation ActivationLayer.fire
       ActivationLayer.backfire attr bind ok].
  rewrite Himg. cbn [bind ok]. rewrite Hg. cbn [bind ok].
  rewrite Hb. cbn [bind ok].
  split; [reflexivity|]. cbn [ActivationLayer.backfire ActivationLayer.fire].
  repeat split. exact Hsb.
Qed.

(** A tanh layer after a layer of two units, on a batch of two rows. *)
Lemma activation_layer_flat_shapes_witness :
  exists self1 self2 f b,
    ActivationLayer.__forward Z_ops
      (ActivationLayer.set_parent
         (ActivationLayer.init (ActivationFactory.Member Activation.tanh))
         (ShapeInt 2))
      (mk_ndarray [2; 2] [1; 2; 3; 4]%Z) = ok self1 /\
    ActivationLayer.fire self1 = Some f /\ shape f = [2; 2] /\
    ActivationLayer.__backward Z_ops self1 (mk_ndarray [2; 2] [1; 1; 1; 1]%Z)
    = ok self2 /\
    ActivationLayer.backfire self2 = Some b /\ shape b = [2; 2].
Proof.
  destruct (activation_layer_flat_shapes Z_ops Activation.tanh (ShapeInt 2)
              (mk_ndarray [2; 2] [1; 2; 3; 4]%Z)
              (mk_ndarray [2; 2] [1; 1; 1; 1]%Z) eq_refl eq_refl eq_refl)
    as (self1 & self2 & f & b & H1 & H2 & H3 & H4 & H5 & H6 & _);
    [discriminate|].
  exists self1, self2, f, b. repeat split; assumption.
Defined.

(** [X10] [Softmax.activate] on a non-empty 2-d array subtracts the maximum
    of the whole array (not of each row) before [exp], and divides every
    entry by the sum of its own row; the shape is kept.  An empty array
    makes [x.max()] raise a ValueError, and a non-empty 1-d array makes
    [sum(axis=1)] raise one. *)
Theorem softmax_rows_normalised {A} (F : float_ops A) (x : ndarray A) :
  (forall n c, wf x -> shape x = [n; c] -> 0 < n * c ->
     let M := fold_left (f_max F) (tl (data x)) (hd (f_zero F) (data x)) in
     let e := fun i j =>
                f_exp F (f_sub F (nth (i * c + j) (data x) (f_zero F)) M) in
     exists y,
       Activation.activate F Activation.Softmax x = ok (Activation.Softmax, y) /\
       shape y = [n; c] /\
       forall i j, i < n -> j < c ->
         nth (i * c + j) (data y) (f_zero F)
         = f_div F (e i j)
             (fold_left (f_add F) (map (fun j' => e i j') (seq 0 c)) (f_zero F))) /\
  (data x = [] ->
   Activation.activate F Activation.Softmax x
   = raise (ValueError "zero-size array to reduction operation maximum")) /\
  (data x <> [] -> length (shape x) <= 1 ->
   Activation.activate F Activation.Softmax x
   = raise (ValueError "axis 1 is out of bounds")).
Proof.
  split; [|split].
  - intros n c Hwf Hs Hpos M e.
    destruct (softmax_entries F x n c Hwf Hs Hpos) as (y & Hy & Hsy & _ & He).
    exists y. repeat split; assumption.
  - intros Hd. cbn [Activation.activate]. unfold Activation.amax.
    now rewrite Hd.
  - intros Hd Hn. cbn [Activation.activate]. unfold Activation.amax.
    destruct (data x) as [|v l]; [contradiction|]. cbn [bind ok].
    unfold Activation.sum_axis1, amap. cbn [shape].
    destruct (shape x) as [|d0 [|d1 rest]]; cbn [length] in Hn;
      [reflexivity | reflexivity | lia].
Qed.

(** Over the integers, where [exp] is the identity: rows 5, 7 and 1, 4 with
    maximum 7 become -2, 0 and -6, -3, divided by -2 and -9. *)
Lemma softmax_rows_normalised_witness :
  exists y,
    Activation.activate Z_ops Activation.Softmax
      (mk_ndarray [2; 2] [5; 7; 1; 4]%Z) = ok (Activation.Softmax, y) /\
    shape y = [2; 2] /\
    nth (1 * 2 + 0) (data y) 0%Z = (-6 / (0 + -6 + -3))%Z.
Proof.
  destruct (proj1 (softmax_rows_normalised Z_ops
                     (mk_ndarray [2; 2] [5; 7; 1; 4]%Z)) 2 2 eq_refl eq_refl)
    as (y & Hy & Hs & He); [lia|].
  exists y. split; [exact Hy|]. split; [exact Hs|].
  exact (He 1 0 ltac:(lia) ltac:(lia)).
Defined.

(** [X11] [ELU] and [SRReLU], entry by entry.  With g = (x > 0) as 1 or 0:
    ELU's output is g*x + (1-g)*(exp(x) - 1) and its [grad] on an array f
    of the same shape is g + (1-g)*(f + 1); SRReLU's output is
    sqrt(g*x + 1) - 1 and its [grad] is g*0.5 / (f + 1).  The comparison is
    the one made on the input at forward time. *)
Theorem elu_srrelu_entries {A} (F : float_ops A) (x : ndarray A) m0 :
  wf x ->
  let gt := fun k => f_gt F (nth k (data x) (f_zero F)) (f_zero F) in
  let b2f := Activation.of_bool F in
  (exists act' y,
     Activation.activate F (Activation.ELU m0) x = ok (act', y) /\
     shape y = shape x /\
     (forall k, k < length (data x) ->
        nth k (data y) (f_zero F)
        = f_add F (f_mul F (b2f (gt k)) (nth k (data x) (f_zero F)))
            (f_mul F (b2f (negb (gt k)))
               (f_sub F (f_exp F (nth k (data x) (f_zero F))) (f_one F)))) /\
     forall f, shape f = shape x -> wf f ->
       exists g,
         Activation.grad F act' f = ok g /\ shape g = shape x /\
         forall k, k < length (data x) ->
           nth k (data g) (f_zero F)
           = f_add F (b2f (gt k))
               (f_mul F (b2f (negb (gt k)))
                  (f_add F (nth k (data f) (f_zero F)) (f_one F)))) /\
  (exists act' y,
     Activation.activate F (Activation.SRReLU m0) x = ok (act', y) /\
     shape y = shape x /\
     (forall k, k < length (data x) ->
        nth k (data y) (f_zero F)
        = f_sub F
            (f_sqrt F
               (f_add F (f_mul F (b2f (gt k)) (nth k (data x) (f_zero F)))
                  (f_one F)))
            (f_one F)) /\
     forall f, shape f = shape x -> wf f ->
       exists g,
         Activation.grad F act' f = ok g /\ shape g = shape x /\
         forall k, k < length (data x) ->
           nth k (data g) (f_zero F)
           = f_div F (f_mul F (b2f (gt k)) (f_half F))
               (f_add F (nth k (data f) (f_zero F)) (f_one F))).
Proof.
  intros Hwf gt b2f.
  assert (Hmask : forall k, k < length (data x) ->
            nth k (data (amap (fun v => f_gt F v (f_zero F)) x)) false = gt k).
  { intros k Hk. now rewrite (nth_amap _ _ _ (f_zero F)). }
  assert (Hnmask : forall k, k < length (data x) ->
            nth k (data (amap negb (amap (fun v => f_gt F v (f_zero F)) x))) false
            = negb (gt k)).
  { intros k Hk. rewrite (nth_amap _ _ _ false).
    - now rewrite Hmask.
    - unfold amap. cbn [data]. now rewrite length_map. }
  split.
  - cbn [Activation.activate].
    rewrite !map2_same_shape by reflexivity. cbn [bind ok].
    rewrite map2_same_shape by reflexivity. cbn [bind ok shape data].
    eexists. eexists. split; [reflexivity|]. cbn [shape data].
    split; [reflexivity|]. split.
    + intros k Hk. unfold amap at 1. cbn [shape].
      assert (Hk' : k < size (shape x)) by (rewrite <- Hwf; exact Hk).
      rewrite !nth_tabulate by exact Hk'.
      rewrite Hmask, Hnmask by exact Hk.
      rewrite (nth_amap _ _ _ (f_zero F))
        by (unfold amap; cbn [data]; now rewrite length_map).
      rewrite (nth_amap _ _ _ (f_zero F)) by exact Hk.
      reflexivity.
    + intros f Hf Hwff. cbn [Activation.grad attr bind ok].
      rewrite map2_same_shape by (unfold amap; cbn [shape]; congruence).
      cbn [bind ok].
      rewrite map2_same_shape by reflexivity.
      eexists. split; [reflexivity|]. cbn [shape data].
      split; [reflexivity|].
      intros k Hk. unfold amap at 1 2. cbn [shape].
      assert (Hk' : k < size (shape x)) by (rewrite <- Hwf; exact Hk).
      rewrite !nth_tabulate by exact Hk'.
      rewrite Hmask, Hnmask by exact Hk.
      rewrite (nth_amap _ _ _ (f_zero F))
        by (rewrite Hwff, Hf, <- Hwf; exact Hk).
      reflexivity.
  - cbn [Activation.activate].
    rewrite map2_same_shape by reflexivity. cbn [bind ok].
    eexists. eexists. split; [reflexivity|].
    split; [reflexivity|]. split.
    + intros k Hk.
      assert (Hk' : k < size (shape x)) by (rewrite <- Hwf; exact Hk).
      unfold amap. cbn [shape data]. rewrite !map_map.
      rewrite (nth_indep _ (f_zero F)
                 (f_sub F (f_sqrt F (f_add F (f_zero F) (f_one F))) (f_one F)))
        by (rewrite length_map, tabulate_length; exact Hk').
      rewrite (map_nth (fun v => f_sub F (f_sqrt F (f_add F v (f_one F))) (f_one F))).
      rewrite nth_tabulate by exact Hk'.
      rewrite (nth_indep _ false (f_gt F (f_zero F) (f_zero F)))
        by (rewrite length_map; exact Hk).
      rewrite (map_nth (fun v => f_gt F v (f_zero F))).
      reflexivity.
    + intros f Hf Hwff. cbn [Activation.grad attr bind ok].
      rewrite map2_same_shape by (unfold amap; cbn [shape]; congruence).
      eexists. split; [reflexivity|]. cbn [shape data].
      split; [reflexivity|].
      intros k Hk. unfold amap at 1. cbn [shape].
      assert (Hk' : k < size (shape x)) by (rewrite <- Hwf; exact Hk).
      rewrite nth_tabulate by exact Hk'.
      rewrite (nth_amap _ _ _ false)
        by (unfold amap; cbn [data]; now rewrite length_map).
      rewrite Hmask by exact Hk.
      rewrite (nth_amap _ _ _ (f_zero F))
        by (rewrite Hwff, Hf, <- Hwf; exact Hk).
      reflexivity.
Qed.

Lemma elu_srrelu_entries_witness :
  exists act' y,
    Activation.activate Z_ops (Activation.SRReLU None)
      (mk_ndarray [1; 3] [8; -4; 0]%Z) = ok (act', y) /\
    shape y = [1; 3] /\
    nth 0 (data y) 0%Z = (Z.sqrt (1 * 8 + 1) - 1)%Z.
Proof.
  destruct (elu_srrelu_entries Z_ops (mk_ndarray [1; 3] [8; -4; 0]%Z) None
              eq_refl) as (_ & act' & y & Hy & Hs & He & _).
  exists act', y. split; [exact Hy|]. split; [exact Hs|].
  exact (He 0 ltac:(cbn; lia)).
Defined.

(** [X12] [AffineLayer.__forward] on a batch whose rows do not have
    prod(input_shape) entries: the column of ones is put in front all the
    same, and [np.dot] with the weight then raises the ValueError for
    shapes that are not aligned; [fire] is not written. *)
Theorem affine_forward_feature_mismatch {A} (F : float_ops A)
    (self : AffineLayer.t A) ishape cast w1 (x : ndarray A) n k m :
  AffineLayer.input_shape self = Some ishape ->
  AffineLayer.dtype self = Some cast ->
  AffineLayer.w self = Some w1 ->
  is_multi_channels_image ishape = false ->
  shape w1 = [1 + as_nat (np_prod ishape); m] ->
  shape x = [n; k] -> k <> as_nat (np_prod ishape) ->
  AffineLayer.__forward F self x = raise (ValueError "shapes not aligned").
Proof.
  intros Hi Hd Hw Himg Hsw Hsx Hk.
  unfold AffineLayer.__forward. rewrite Hi, Hd, Hw.
  cbn [attr bind ok]. rewrite Himg. cbn [bind ok].
  unfold shape0. rewrite Hsx. cbn [bind ok].
  rewrite (AffineFacts.c_ones_ok (f_zero F) (cast (f_one F)) x n k Hsx).
  cbn [bind ok]. unfold dot. cbn [shape]. rewrite Hsw.
  destruct (Nat.eqb_spec (1 + k) (1 + as_nat (np_prod ishape))); [lia|].
  reflexivity.
Qed.

(** A layer of three inputs fed rows of two entries. *)
Lemma affine_forward_feature_mismatch_witness :
  exists self1,
    AffineLayer.set_parent Z_ops
      (AffineLayer.set_dtype
         (AffineLayer.init (ShapeInt 2) AffineLayer.ones_initializer)
         (fun v => v))
      (ShapeInt 3) = ok self1 /\
    AffineLayer.__forward Z_ops self1 (mk_ndarray [1; 2] [5; 6]%Z)
    = raise (ValueError "shapes not aligned").
Proof.
  eexists. split; [vm_compute; reflexivity|].
  apply (affine_forward_feature_mismatch Z_ops _ (ShapeInt 3) (fun v => v)
           (mk_ndarray [4; 2] [0; 0; 1; 1; 1; 1; 1; 1]%Z) _ 1 2 2);
    try reflexivity.
  cbn. lia.
Defined.

End LayerMore.

(** ** More on the back-propagation engine *)

Module EngineMore.

Import BackPropagation EngineFacts.

Section Quiet.

Context {A net optimizer : Type}.

Implicit Types s : @state A net optimizer.

Lemma count_finalize_app (l l' : list (@event A)) :
  count_finalize (l ++ l') = count_finalize l + count_finalize l'.
Proof.
  induction l as [|e l IH]; [reflexivity|].
  destruct e; cbn [app count_finalize]; now rewrite IH.
Qed.

Lemma quiet_ret {X} (x : X) : quiet (ret x : @M A net optimizer X).
Proof.
  intros s s' y H. apply ret_ok in H. destruct H as [_ ->].
  exists []. now rewrite app_nil_r.
Qed.

Lemma quiet_lift {X} (r : result X) : quiet (lift r : @M A net optimizer X).
Proof.
  intros s s' y H. apply lift_ok in H. destruct H as [_ ->].
  exists []. now rewrite app_nil_r.
Qed.

Lemma quiet_gets {X} (f : @state A net optimizer -> X) : quiet (gets f).
Proof.
  intros s s' y H. apply gets_ok in H. destruct H as [_ ->].
  exists []. now rewrite app_nil_r.
Qed.

Lemma quiet_get_chain : quiet (@get_chain A net optimizer).
Proof.
  intros s s' y H. unfold get_chain, ok in H. injection H as _ <-.
  exists []. now rewrite app_nil_r.
Qed.

Lemma quiet_put_chain (c : net) : quiet (@put_chain A net optimizer c).
Proof.
  intros s s' y H. unfold put_chain, ok in H. injection H as _ <-.
  exists []. cbn. now rewrite app_nil_r.
Qed.

Lemma quiet_put_lc l : quiet (@put_lc A net optimizer l).
Proof.
  intros s s' y H. unfold put_lc, ok in H. injection H as _ <-.
  exists []. cbn. now rewrite app_nil_r.
Qed.

Lemma quiet_emit (e : @event A) :
  forward_inputs [e] = [] -> optimize_keys [e] = [] ->
  count_finalize [e] = 0 ->
  quiet (@emit A net optimizer e).
Proof.
  intros Hf Hk Hc s s' y H. unfold emit, ok in H. injection H as _ <-.
  exists [e]. now cbn.
Qed.

Lemma quiet_bind {X Y} (c : @M A net optimizer X)
    (k : X -> @M A net optimizer Y) :
  quiet c -> (forall x, quiet (k x)) -> quiet (mbind c k).
Proof.
  intros Hc Hk s s' y H. minv H as x t H0 H1.
  destruct (Hc _ _ _ H0) as (e1 & L1 & F1 & K1 & Z1 & B1 & E1 & O1).
  destruct (Hk x _ _ _ H1) as (e2 & L2 & F2 & K2 & Z2 & B2 & E2 & O2).
  exists (e1 ++ e2).
  rewrite L2, L1, <- app_assoc, forward_inputs_app, optimize_keys_app.
  rewrite count_finalize_app, F1, F2, K1, K2, Z1, Z2.
  repeat split; congruence.
Qed.

Lemma quiet_call (f : net -> result net) : quiet (@call A net optimizer f).
Proof.
  unfold call. apply quiet_bind; [apply quiet_get_chain|].
  intros c. apply quiet_bind; [apply quiet_lift|].
  intros c'. apply quiet_put_chain.
Qed.

End Quiet.

Create HintDb quiet.

#[local] Hint Resolve quiet_ret quiet_lift quiet_gets quiet_get_chain
  quiet_put_chain quiet_put_lc quiet_call : quiet.

Ltac quiet_steps :=
  repeat first
    [ apply quiet_bind; [|intros ?]
    | apply quiet_emit; reflexivity
    | solve [auto with quiet]
    | match goal with
      | |- quiet (if ?b then _ else _) => destruct b
      | |- quiet (match ?l with Some _ => _ | None => _ end) => destruct l
      end ].

Section Engine.

Context {A : Type} (F : float_ops A) {net optimizer : Type}.
Context (E : collaborators A net optimizer).

Implicit Types s : @state A net optimizer.

Lemma evaluate_quiet n x_train y_train x_test y_test epoch :
  quiet (__evaluate F E n x_train y_train x_test y_test epoch).
Proof. unfold __evaluate. quiet_steps. Qed.

(** *** The dictionary of optimizers *)

Lemma dict_set_fresh (d : list (nat * optimizer)) key v :
  (forall k v', In (k, v') d -> k <> key) ->
  dict_set d key v = d ++ [(key, v)].
Proof.
  induction d as [|[k v'] d IH]; intros H; [reflexivity|].
  cbn [dict_set app].
  destruct (Nat.eqb_spec k key) as [->|_].
  - now contradiction (H key v' (in_eq _ _)).
  - f_equal. apply IH. intros k' v'' Hin. apply (H k' v''). now right.
Qed.

Lemma dict_get_const (keys : list nat) (v : optimizer) key :
  dict_get (map (fun k => (k, v)) keys) key
  = if existsb (Nat.eqb key) keys then ok v else raise (KeyError key).
Proof.
  induction keys as [|k keys IH]; [reflexivity|].
  cbn [map dict_get existsb]. rewrite (Nat.eqb_sym key k).
  destruct (Nat.eqb_spec k key); [reflexivity|]. exact IH.
Qed.

Lemma initialize_loop m :
  forall a s,
    (forall k v, In (k, v) (optimizers s) -> k <= a) ->
    exists s',
      for_each (seq a m)
        (fun i =>
           if layer_has_weight E i then
             mbind (gets optimizer_template) (fun o =>
             mbind (gets optimizers) (fun d =>
             put_optimizers (dict_set d (i + 1) o)))
           else ret tt) s = ok (tt, s') /\
      optimizers s'
      = optimizers s
        ++ map (fun k => (k, optimizer_template s))
             (map (fun i => i + 1) (filter (layer_has_weight E) (seq a m))) /\
      log s' = log s /\ chain s' = chain s /\ batch_size s' = batch_size s /\
      epochs s' = epochs s /\ lc s' = lc s /\ dtype s' = dtype s /\
      optimizer_template s' = optimizer_template s.
Proof.
  induction m as [|m IH]; intros a s Hk.
  - exists s. cbn [seq for_each filter map]. rewrite app_nil_r.
    now repeat split.
  - cbn [seq for_each filter]. unfold mbind at 1.
    destruct (layer_has_weight E a) eqn:Hw.
    + unfold mbind at 1 2, gets, put_optimizers, ok.
      match goal with
      | |- exists s', for_each _ _ ?t = _ /\ _ => destruct (IH (S a) t) as (s' & Hs' & Ho & Hrest)
      end.
      { cbn [optimizers]. rewrite dict_set_fresh.
        - intros k v Hin. apply in_app_or in Hin. destruct Hin as [Hin|[Hin|[]]].
          + specialize (Hk k v Hin). lia.
          + injection Hin as <- _. lia.
        - intros k v' Hin. specialize (Hk k v' Hin). lia. }
      exists s'. split; [exact Hs'|]. split.
      * rewrite Ho. cbn [optimizers optimizer_template map].
        rewrite dict_set_fresh
          by (intros k v' Hin; specialize (Hk k v' Hin); lia).
        now rewrite <- app_assoc.
      * cbn in Hrest. exact Hrest.
    + unfold ret, ok.
      destruct (IH (S a) s) as (s' & Hs' & Ho & Hrest).
      { intros k v Hin. specialize (Hk k v Hin). lia. }
      exists s'. split; [exact Hs'|]. split; [exact Ho | exact Hrest].
Qed.

Lemma initialize_optimizers_loop_keeps n s :
  exists s',
    __initialize_optimizers E n s = ok (tt, s') /\
    log s' = log s /\ batch_size s' = batch_size s /\ epochs s' = epochs s.
Proof.
  unfold __initialize_optimizers, mbind at 1, put_optimizers, ok.
  match goal with
  | |- exists s', for_each _ _ ?t = _ /\ _ =>
      destruct (initialize_loop n 0 t) as (s' & Hs' & _ & Hl & _ & Hb & He & _)
  end.
  { intros k v []. }
  exists s'. split; [exact Hs'|]. cbn in Hl, Hb, He. now repeat split.
Qed.

(** *** Running the optimizers without their dictionary entry *)

Lemma optimize_loop_missing i0 s m :
  forall a,
    a <= i0 < a + m ->
    layer_has_weight E i0 = true ->
    (forall j, a <= j < i0 -> layer_has_weight E j = false) ->
    dict_get (optimizers s) (i0 + 1) = raise (KeyError (i0 + 1)) ->
    for_each (seq a m)
      (fun i =>
         if layer_has_weight E i then
           mbind (gets optimizers) (fun d =>
           mbind (lift (dict_get d (i + 1))) (fun o =>
           mbind get_chain (fun c =>
           mbind (lift (layer_w E i c)) (fun w =>
           mbind (lift (layer_dw E i c)) (fun dw =>
           mbind (emit (EOptimize (i + 1) w dw)) (fun _ =>
           mbind (lift (optimize E o w dw)) (fun ow =>
           mbind (put_chain (layer_set_w E i (snd ow) c)) (fun _ =>
           mbind (gets optimizers) (fun d =>
           put_optimizers (dict_set d (i + 1) (fst ow)))))))))))
         else ret tt) s
    = raise (KeyError (i0 + 1)).
Proof.
  induction m as [|m IH]; intros a Ha Hw Hno Hd; [lia|].
  cbn [seq for_each]. unfold mbind at 1.
  destruct (Nat.eq_dec a i0) as [-> | Hne].
  - rewrite Hw. unfold mbind at 1 2, gets, lift, ok. rewrite Hd. reflexivity.
  - rewrite (Hno a) by lia. unfold ret, ok.
    apply IH; try assumption; [lia|]. intros j Hj. apply Hno. lia.
Qed.

(** *** What a whole [fit] leaves in the log *)

Lemma for_each_keeps_batch_size {X} (l : list X)
    (body : X -> @M A net optimizer unit) :
  (forall x s s' u, body x s = ok (u, s') -> batch_size s' = batch_size s) ->
  forall s s' u, for_each l body s = ok (u, s') -> batch_size s' = batch_size s.
Proof.
  intros Hb. induction l as [|x l IH]; intros s s' u H.
  - cbn [for_each] in H. apply ret_ok in H. now destruct H as [_ ->].
  - cbn [for_each] in H. minv H as v t H0 H1.
    rewrite (IH _ _ _ H1). exact (Hb _ _ _ _ H0).
Qed.

Lemma train_one_epoch_keeps_batch_size n x y s s' u :
  __train_one_epoch F E n x y s = ok (u, s') -> batch_size s' = batch_size s.
Proof.
  unfold __train_one_epoch. intros H.
  minv H as d t H0 H. apply lift_ok in H0. destruct H0 as [_ ->].
  minv H as bs t H0 H. apply gets_ok in H0. destruct H0 as [-> ->].
  minv H as r t H0 H. apply lift_ok in H0. destruct H0 as [_ ->].
  minv H as v t H0 H. apply emit_ok in H. destruct H as (_ & _ & _ & B & _).
  rewrite B. revert H0. apply for_each_keeps_batch_size.
  intros i t0 t1 v0 Hi.
  minv Hi as xb t2 H1 Hi. apply lift_ok in H1. destruct H1 as [_ ->].
  minv Hi as yb t2 H1 Hi. apply lift_ok in H1. destruct H1 as [_ ->].
  minv Hi as v1 t2 H1 Hi. apply emit_ok in Hi.
  destruct Hi as (_ & _ & _ & B2 & _).
  apply train_one_batch_inv in H1.
  destruct H1 as (c1 & pred & dy & c2 & evs & _ & _ & _ & _ & _ & _ & _
                  & _ & _ & B1).
  congruence.
Qed.

Lemma finalize_training_log n x s s' u :
  __finalize_training E n x s = ok (u, s') ->
  log s' = log s ++ [EFinalize 0 x] /\ lc s' = lc s.
Proof.
  unfold __finalize_training. intros H.
  minv H as i0 t H0 H. apply lift_ok in H0. destruct H0 as [H0 ->].
  apply first_layer_ok in H0. destruct H0 as [_ ->].
  minv H as v t H0 H. apply emit_ok in H0.
  destruct H0 as (L & _ & _ & _ & Lc & _).
  unfold call, get_chain, put_chain, mbind, lift, ok in H.
  destruct (layer_finalize_training E 0 x (chain t)) as [e|c]; [discriminate|].
  injection H as _ <-. cbn [log lc]. now rewrite L, Lc.
Qed.

Lemma evaluate_keeps n x_train y_train x_test y_test epoch s s' u :
  __evaluate F E n x_train y_train x_test y_test epoch s = ok (u, s') ->
  exists evs,
    log s' = log s ++ evs /\ forward_inputs evs = [] /\
    optimize_keys evs = [] /\ count_finalize evs = 0 /\
    batch_size s' = batch_size s.
Proof.
  intros H. destruct (evaluate_quiet n _ _ _ _ _ _ _ _ H)
    as (evs & L & Fw & K & C & B & _).
  now exists evs.
Qed.

(** The training step of the specification finalizes nothing. *)
Lemma batch_update_no_finalize n xb yb c d c' d' evs :
  batch_update F E n xb yb c d = ok (c', d', evs) -> count_finalize evs = 0.
Proof.
  unfold batch_update. intros H.
  destruct (first_layer n) as [e | root]; cbn [bind] in H; [discriminate H|].
  destruct (layer_forward E root xb c) as [e | c1];
    cbn [bind] in H; [discriminate H|].
  destruct (last_layer n) as [e | terminal]; cbn [bind] in H; [discriminate H|].
  destruct (layer_fire E terminal c1) as [e | p];
    cbn [bind] in H; [discriminate H|].
  destruct (map2 (f_zero F) (f_zero F) (f_sub F) p yb) as [e | g];
    cbn [bind] in H; [discriminate H|].
  destruct (layer_backward E terminal g c1) as [e | c2];
    cbn [bind] in H; [discriminate H|].
  destruct (optimizer_updates E (weight_layers E n) c2 d)
    as [e | [[c3 d3] evs3]] eqn:Hou; cbn [bind fst snd] in H; [discriminate H|].
  unfold ok in H. injection H as <- <- <-.
  cbn [count_finalize].
  exact (proj2 (proj2 (proj2 (optimizer_updates_log E _ _ _ _ _ _ Hou)))).
Qed.

Lemma epoch_updates_no_finalize n dn sizes x y :
  forall start c d c' d' evs,
    epoch_updates F E n dn start sizes x y c d = ok (c', d', evs) ->
    count_finalize evs = 0.
Proof.
  induction sizes as [|k sizes IH]; intros start c d c' d' evs H;
    cbn [epoch_updates] in H.
  - unfold ok in H. injection H as <- <- <-. reflexivity.
  - destruct (slice_rows x start (start + k)) as [e | xb];
      cbn [bind] in H; [discriminate H|].
    destruct (slice_rows y start (start + k)) as [e | yb];
      cbn [bind] in H; [discriminate H|].
    destruct (batch_update F E n xb yb c d) as [e | [[c1 d1] e1]] eqn:Hb;
      cbn [bind fst snd] in H; [discriminate H|].
    destruct (epoch_updates F E n dn (start + k) sizes x y c1 d1)
      as [e | [[c2 d2] e2]] eqn:Hr; cbn [bind fst snd] in H; [discriminate H|].
    unfold ok in H. injection H as <- <- <-.
    rewrite count_finalize_app. cbn [count_finalize].
    now rewrite (batch_update_no_finalize _ _ _ _ _ _ _ _ Hb), (IH _ _ _ _ _ _ Hr).
Qed.

Lemma settle_ok s (r : result (@training A net optimizer)) u s' :
  settle s r = ok (u, s') ->
  exists c d evs, r = ok (c, d, evs) /\ s' = trained s c d evs.
Proof.
  destruct r as [e | [[c d] evs]]; cbn [settle]; [discriminate|].
  unfold ok. intros H. injection H as _ <-. now exists c, d, evs.
Qed.

(** The epoch loop of [fit] without shuffling. *)
Lemma epoch_loop_log n x y x_test y_test d rest es :
  shape x = d :: rest ->
  forall s s' r,
    (0 < batch_size s)%Z ->
    epoch_loop F E n es x y x_test y_test false s = ok (r, s') ->
    let sizes := batch_sizes d d (Z.to_nat (batch_size s)) in
    exists evs,
      log s' = log s ++ evs /\
      forward_inputs evs
      = concat (map (fun _ => consecutive_batches x 0 sizes) es) /\
      optimize_keys evs
      = concat (map (fun _ => concat (map (fun _ => weight_keys E n) sizes)) es) /\
      count_finalize evs = 0 /\
      r = (x, y).
Proof.
  intros Hx. induction es as [|ep es IH]; intros s s' r Hbs H sizes.
  - cbn [epoch_loop] in H. apply ret_ok in H. destruct H as [-> ->].
    exists []. rewrite app_nil_r. now cbn.
  - cbn [epoch_loop] in H.
    minv H as xy t H0 H. apply ret_ok in H0. destruct H0 as [-> ->].
    cbn [fst snd] in H.
    minv H as v t1 H0 H.
    pose proof (train_one_epoch_keeps_batch_size _ _ _ _ _ _ H0) as B1.
    destruct (train_one_epoch_inv F E n x y d rest s t1 v Hbs Hx H0)
      as (e1 & L1 & F1 & K1).
    assert (Z1 : count_finalize e1 = 0).
    { rewrite (train_one_epoch_refines F E n x y d rest s Hbs Hx) in H0.
      apply settle_ok in H0. destruct H0 as (c & d0 & evs & Hr & ->).
      cbn [trained log] in L1. apply app_inv_head in L1. subst e1.
      exact (epoch_updates_no_finalize _ _ _ _ _ _ _ _ _ _ _ Hr). }
    minv H as v2 t2 H1 H.
    destruct (evaluate_keeps _ _ _ _ _ _ _ _ _ H1)
      as (e2 & L2 & F2 & K2 & Z2 & B2).
    destruct (IH t2 s' r ltac:(lia) H) as (e3 & L3 & F3 & K3 & Z3 & Hr).
    exists (e1 ++ e2 ++ e3).
    rewrite L3, L2, L1, <- !app_assoc.
    rewrite !forward_inputs_app, !optimize_keys_app, !count_finalize_app.
    rewrite F1, F2, F3, K1, K2, K3, Z1, Z2, Z3.
    cbn [map concat app]. fold sizes.
    replace (batch_size t2) with (batch_size s) by congruence.
    now repeat split.
Qed.

Lemma mbind_run {X Y} (c : @M A net optimizer X)
    (k : X -> @M A net optimizer Y) s x s1 :
  c s = ok (x, s1) -> mbind c k s = k x s1.
Proof. unfold mbind. now intros ->. Qed.

(** The epoch loop of [fit] without shuffling returns exactly when every
    epoch trains and is evaluated. *)
Lemma epoch_loop_trained n x y x_test y_test d rest es :
  shape x = d :: rest ->
  forall s s' r,
    (0 < batch_size s)%Z ->
    epoch_loop F E n es x y x_test y_test false s = ok (r, s') <->
    epochs_trained F E n d es x y x_test y_test s s' /\ r = (x, y).
Proof.
  intros Hx. induction es as [|ep es IH]; intros s s' r Hbs;
    cbn [epoch_loop epochs_trained].
  - unfold ret, ok. split.
    + intros H. injection H as <- <-. now split.
    + intros [-> ->]. reflexivity.
  - rewrite (mbind_run _ _ s (x, y) s eq_refl). cbn [fst snd]. split.
    + intros H. minv H as v t1 H0 H.
      pose proof (train_one_epoch_keeps_batch_size _ _ _ _ _ _ H0) as B1.
      rewrite (train_one_epoch_refines F E n x y d rest s Hbs Hx) in H0.
      minv H as v2 t2 H1 H.
      destruct (evaluate_keeps _ _ _ _ _ _ _ _ _ H1) as (e2 & _ & _ & _ & _ & B2).
      apply (IH t2 s' r ltac:(lia)) in H. destruct H as [H ->].
      destruct v, v2. split; [|reflexivity]. now exists t1, t2.
    + intros [(u & v & H0 & H1 & H) ->].
      rewrite <- (train_one_epoch_refines F E n x y d rest s Hbs Hx) in H0.
      pose proof (train_one_epoch_keeps_batch_size _ _ _ _ _ _ H0) as B1.
      destruct (evaluate_keeps _ _ _ _ _ _ _ _ _ H1) as (e2 & _ & _ & _ & _ & B2).
      rewrite (mbind_run _ _ _ _ _ H0), (mbind_run _ _ _ _ _ H1).
      apply (IH v s' (x, y) ltac:(lia)). now split.
Qed.

Lemma call_state (f : net -> result net) s u s' :
  call f s = ok (u, s') ->
  exists c,
    f (chain s) = ok c /\
    s' = mk_state (epochs s) (batch_size s) (optimizer_template s)
           (optimizers s) (lc s) (dtype s) c (log s).
Proof.
  unfold call, get_chain, put_chain, mbind, lift, ok.
  destruct (f (chain s)) as [e | c]; [discriminate|].
  intros H. injection H as _ <-. now exists c.
Qed.

(** [__initialize_optimizers] leaves the engine with a fresh dictionary. *)
Lemma initialize_optimizers_state n s :
  __initialize_optimizers E n s
  = ok (tt, mk_state (epochs s) (batch_size s) (optimizer_template s)
              (map (fun k => (k, optimizer_template s)) (weight_keys E n))
              (lc s) (dtype s) (chain s) (log s)).
Proof.
  unfold __initialize_optimizers, mbind at 1, put_optimizers, ok.
  cbv beta iota.
  match goal with
  | |- for_each _ _ ?t = _ =>
      destruct (initialize_loop n 0 t)
        as (s' & Hs' & Ho & Hl & Hc & Hb & He & Hlc & Hd & Ht)
  end.
  { intros k v []. }
  transitivity (ok (tt, s')); [exact Hs'|].
  cbn in Ho, Hl, Hc, Hb, He, Hlc, Hd, Ht.
  destruct s' as [e b t o l dt c lg]. cbn in *. subst.
  reflexivity.
Qed.

(** *** Accuracy *)

Lemma filter_tabulate n (g : nat -> bool) :
  length (filter (fun c => c) (tabulate n g)) = length (filter g (seq 0 n)).
Proof.
  unfold tabulate. induction (seq 0 n) as [|k l IH]; [reflexivity|].
  cbn [map filter]. destruct (g k); cbn [length]; now rewrite IH.
Qed.

Lemma argmax_axis1_ok (a : ndarray A) n m :
  shape a = [n; m] -> 0 < m ->
  argmax_axis1 F a
  = ok (mk_ndarray [n]
          (tabulate n (fun i => argmax_row F (firstn m (skipn (i * m) (data a)))))).
Proof.
  intros Hs Hm. unfold argmax_axis1. rewrite Hs.
  destruct (Nat.eqb_spec m 0); [lia|reflexivity].
Qed.

Lemma get_accuracy_ok cast (y p : ndarray A) n m m' :
  shape y = [n; m] -> shape p = [n; m'] -> 0 < m -> 0 < m' ->
  __get_accuracy F cast y p
  = ok (f_div F
          (cast (f_of_nat F
                   (length
                      (filter
                         (fun i =>
                            argmax_row F (firstn m (skipn (i * m) (data y)))
                            =? argmax_row F (firstn m' (skipn (i * m') (data p))))
                         (seq 0 n)))))
          (f_of_nat F n)).
Proof.
  intros Hy Hp Hm Hm'. unfold __get_accuracy.
  rewrite (argmax_axis1_ok y n m Hy Hm), (argmax_axis1_ok p n m' Hp Hm').
  cbn [bind ok].
  rewrite UfuncFacts.map2_same_shape by reflexivity.
  cbn [bind ok shape data]. unfold shape0. cbn [shape bind ok].
  unfold size. cbn [fold_right]. rewrite Nat.mul_1_r.
  rewrite filter_tabulate. do 5 f_equal.
  apply filter_ext_in. intros i Hi. apply in_seq in Hi.
  now rewrite !nth_tabulate by lia.
Qed.

Lemma argmax_row_step (l : list A) :
  forall k best bv,
    best < k ->
    fst (fold_left
           (fun acc jv =>
              let '(b, v) := acc in
              if f_gt F (snd jv) v then (fst jv, snd jv) else (b, v))
           (combine (seq k (length l)) l) (best, bv))
    < k + length l.
Proof.
  induction l as [|v l IH]; intros k best bv Hb; cbn [length seq combine fold_left].
  - cbn [fst]. lia.
  - cbn [fst snd]. destruct (f_gt F v bv).
    + specialize (IH (S k) k v ltac:(lia)). lia.
    + specialize (IH (S k) best bv ltac:(lia)). lia.
Qed.

Lemma argmax_row_lt (row : list A) : row <> [] -> argmax_row F row < length row.
Proof.
  destruct row as [|v l]; [contradiction|]. intros _.
  unfold argmax_row. cbn [length].
  pose proof (argmax_row_step l 1 0 v ltac:(lia)). lia.
Qed.

End Engine.

(** [X13] [__initialize_optimizers] never fails and replaces the dictionary
    by one entry per layer that has a weight, keyed by the position of the
    layer counted from 1, in layer order, each holding a copy of the
    optimizer given to the engine; entries of an earlier [fit] are dropped.
    Looking up the key of a layer with a weight finds that copy; any other
    key is missing. *)
Theorem initialize_optimizers_keys {A net optimizer}
    (E : collaborators A net optimizer) n (s : @state A net optimizer) :
  exists s',
    __initialize_optimizers E n s = ok (tt, s') /\
    optimizers s'
    = map (fun k => (k, optimizer_template s)) (weight_keys E n) /\
    log s' = log s /\ chain s' = chain s /\
    (forall i, i < n -> layer_has_weight E i = true ->
       dict_get (optimizers s') (i + 1) = ok (optimizer_template s)) /\
    (forall key, ~ In key (weight_keys E n) ->
       dict_get (optimizers s') key = raise (KeyError key)).
Proof.
  unfold __initialize_optimizers, mbind at 1, put_optimizers, ok.
  match goal with
  | |- exists s', for_each _ _ ?t = _ /\ _ =>
      destruct (initialize_loop E n 0 t) as (s' & Hs' & Ho & Hl & Hc & _)
  end.
  { intros k v []. }
  cbn in Ho, Hl, Hc.
  exists s'. split; [exact Hs'|]. fold (weight_keys E n) in Ho.
  split; [exact Ho|]. split; [exact Hl|]. split; [exact Hc|].
  rewrite Ho. split.
  - intros i Hi Hw. rewrite dict_get_const.
    replace (existsb (Nat.eqb (i + 1)) (weight_keys E n)) with true; [reflexivity|].
    symmetry. apply existsb_exists. exists (i + 1).
    split; [|apply Nat.eqb_refl].
    unfold weight_keys. apply in_map_iff. exists i. split; [reflexivity|].
    apply filter_In. split; [apply in_seq; lia | exact Hw].
  - intros key Hnin. rewrite dict_get_const.
    destruct (existsb (Nat.eqb key) (weight_keys E n)) eqn:Ex; [|reflexivity].
    apply existsb_exists in Ex. destruct Ex as (k & Hin & Heq).
    apply Nat.eqb_eq in Heq. subst k. contradiction.
Qed.

(** [X14] [__optimize_network] looks its optimizers up by key: when the
    first layer that has a weight has no entry in the dictionary (as
    before any [__initialize_optimizers]), the call raises KeyError with
    that key, and no weight has been touched. *)
Theorem optimize_network_missing_optimizer {A net optimizer}
    (E : collaborators A net optimizer) n i0 (s : @state A net optimizer) :
  i0 < n ->
  layer_has_weight E i0 = true ->
  (forall j, j < i0 -> layer_has_weight E j = false) ->
  dict_get (optimizers s) (i0 + 1) = raise (KeyError (i0 + 1)) ->
  __optimize_network E n s = raise (KeyError (i0 + 1)).
Proof.
  intros Hi Hw Hno Hd. unfold __optimize_network.
  apply optimize_loop_missing; try assumption; [lia|].
  intros j Hj. apply Hno. lia.
Qed.

(** The one-layer chain, trained on a batch before the dictionary is
    filled. *)
Lemma optimize_network_missing_optimizer_witness :
  __optimize_network (toy_chain false) 1 (toy_state 1 2 false)
  = raise (KeyError 1) /\
  __train_one_batch Z_ops (toy_chain false) 1
    (mk_ndarray [1; 1] [3%Z]) (mk_ndarray [1; 1] [3%Z]) (toy_state 1 2 false)
  = raise (KeyError 1).
Proof.
  split; [|vm_compute; reflexivity].
  apply (optimize_network_missing_optimizer (toy_chain false) 1 0);
    try reflexivity; [lia|]. intros j Hj. lia.
Defined.

(** [X15] The batch loop of [__train_one_epoch] at its edges.  A
    [batch_size] of 0 makes [range] raise a ValueError.  A negative
    [batch_size], or training data without rows, gives an empty range: no
    batch is trained, nothing is raised, and only the final progress line
    is written.  Data without any axis has no [shape[0]]: IndexError. *)
Theorem train_one_epoch_degenerate {A} (F : float_ops A) {net optimizer}
    (E : collaborators A net optimizer) n (x y : ndarray A)
    (s : @state A net optimizer) :
  (shape x = [] ->
   __train_one_epoch F E n x y s = raise (IndexError "tuple index out of range")) /\
  (shape x <> [] -> batch_size s = 0%Z ->
   __train_one_epoch F E n x y s
   = raise (ValueError "range() arg 3 must not be zero")) /\
  (forall d rest, shape x = d :: rest ->
   (batch_size s < 0)%Z \/ (d = 0 /\ batch_size s <> 0%Z) ->
   __train_one_epoch F E n x y s
   = ok (tt, mk_state (epochs s) (batch_size s) (optimizer_template s)
               (optimizers s) (lc s) (dtype s) (chain s)
               (log s ++ [EProgressDone]))).
Proof.
  split; [|split].
  - intros Hs. unfold __train_one_epoch, mbind, lift, shape0.
    now rewrite Hs.
  - intros Hs Hb. unfold __train_one_epoch, mbind, lift, shape0, gets, py_range.
    destruct (shape x) as [|d rest]; [contradiction|].
    cbn [ok]. rewrite Hb. reflexivity.
  - intros d rest Hs Hb.
    unfold __train_one_epoch, mbind at 1 2 3, lift, shape0, gets, py_range.
    rewrite Hs. cbn [ok].
    destruct (Z.eqb_spec (batch_size s) 0) as [Z0|NZ]; [lia|].
    destruct (Z.ltb_spec (batch_size s) 0) as [Neg|Pos].
    + cbn [ok]. reflexivity.
    + destruct Hb as [Hb | [-> _]]; [lia|].
      rewrite step_count_zero by lia. reflexivity.
Qed.

Lemma train_one_epoch_degenerate_witness :
  log (exec (__train_one_epoch Z_ops (toy_chain false) 1
               (mk_ndarray [2; 1] [3; 4]%Z) (mk_ndarray [2; 1] [3; 4]%Z))
            (toy_state 1 (-1) false))
  = [EProgressDone].
Proof.
  unfold exec.
  rewrite (proj2 (proj2 (train_one_epoch_degenerate Z_ops (toy_chain false) 1
                           (mk_ndarray [2; 1] [3; 4]%Z)
                           (mk_ndarray [2; 1] [3; 4]%Z)
                           (toy_state 1 (-1) false)))
             2 [1] eq_refl (or_introl eq_refl)).
  reflexivity.
Defined.

(** [X16] [fit] without shuffling and with a positive [batch_size].  It
    returns exactly when, starting from a fresh dictionary of optimizers
    (one copy of the engine's optimizer per layer with a weight), every
    epoch 0, 1, ..., epochs - 1 in turn trains on the consecutive chunks of
    the same training data ([epoch_updates]) and is evaluated under its
    number, and [finalize_training] of the first layer, called with the
    training data on the chain as the last epoch left it, returns; the
    engine ends with the chain that call yields and [fit] returns the
    learning curve.  In the log of a successful [fit] the forward passes
    are those of the chunks, epoch after epoch, the optimizer of every
    layer with a weight is asked once per chunk, and [finalize_training]
    is called exactly once, as the last call.  With [epochs] at 0 or below
    no epoch runs and only the finalization is made. *)
Theorem fit_trains_every_epoch {A} (F : float_ops A) {net optimizer}
    (E : collaborators A net optimizer) n (x y x_test y_test : ndarray A)
    d rest (s : @state A net optimizer) :
  shape x = d :: rest ->
  (0 < batch_size s)%Z ->
  let sizes := batch_sizes d d (Z.to_nat (batch_size s)) in
  let epochs_run := seq 0 (Z.to_nat (epochs s)) in
  let fresh := mk_state (epochs s) (batch_size s) (optimizer_template s)
                 (map (fun k => (k, optimizer_template s)) (weight_keys E n))
                 (lc s) (dtype s) (chain s) (log s) in
  (forall r s',
     fit F E n x y x_test y_test false s = ok (r, s') <->
     exists t cf,
       epochs_trained F E n d epochs_run x y x_test y_test fresh t
       /\ n <> 0
       /\ layer_finalize_training E 0 x (chain t) = ok cf
       /\ s' = mk_state (epochs t) (batch_size t) (optimizer_template t)
                 (optimizers t) (lc t) (dtype t) cf (log t ++ [EFinalize 0 x])
       /\ r = lc t)
  /\ (forall r s',
        fit F E n x y x_test y_test false s = ok (r, s') ->
        exists evs,
          log s' = log s ++ evs ++ [EFinalize 0 x]
          /\ count_finalize evs = 0
          /\ forward_inputs evs
             = concat (map (fun _ => consecutive_batches x 0 sizes) epochs_run)
          /\ optimize_keys evs
             = concat (map (fun _ => concat (map (fun _ => weight_keys E n) sizes))
                           epochs_run)
          /\ r = lc s')
  /\ ((epochs s <= 0)%Z ->
      forall r s',
        fit F E n x y x_test y_test false s = ok (r, s') ->
        log s' = log s ++ [EFinalize 0 x]).
Proof.
  intros Hx Hbs sizes epochs_run fresh.
  assert (Hfit : forall r s',
            fit F E n x y x_test y_test false s = ok (r, s') <->
            exists t,
              epoch_loop F E n epochs_run x y x_test y_test false fresh
              = ok ((x, y), t)
              /\ mbind (__finalize_training E n x) (fun _ => gets lc) t
                 = ok (r, s')).
  { intros r s'. unfold fit.
    rewrite (mbind_run _ _ _ _ _ (initialize_optimizers_state E n s)).
    fold fresh.
    rewrite (mbind_run _ _ fresh (epochs s) fresh eq_refl). split.
    - intros H. minv H as xy t H0 H.
      pose proof H0 as H0'.
      apply (epoch_loop_trained F E n x y x_test y_test d rest _ Hx
               fresh t xy Hbs) in H0'.
      destruct H0' as [_ ->]. now exists t.
    - intros (t & H0 & H). now rewrite (mbind_run _ _ _ _ _ H0). }
  split; [|split].
  - intros r s'. rewrite Hfit. split.
    + intros (t & H0 & H).
      apply (epoch_loop_trained F E n x y x_test y_test d rest _ Hx
               fresh t (x, y) Hbs) in H0.
      destruct H0 as [H0 _].
      minv H as v t1 H1 H. apply gets_ok in H. destruct H as [-> ->].
      unfold __finalize_training in H1.
      minv H1 as i0 t2 H2 H1. apply lift_ok in H2. destruct H2 as [H2 ->].
      apply first_layer_ok in H2. destruct H2 as [Hn ->].
      minv H1 as v2 t3 H3 H1. unfold emit, ok in H3. injection H3 as _ <-.
      apply call_state in H1. destruct H1 as (cf & Hfin & ->).
      cbn [chain] in Hfin.
      exists t, cf. cbn [lc]. now repeat split.
    + intros (t & cf & H0 & Hn & Hfin & -> & ->).
      exists t. split.
      * apply (epoch_loop_trained F E n x y x_test y_test d rest _ Hx
                 fresh t (x, y) Hbs). now split.
      * unfold __finalize_training, first_layer.
        destruct (Nat.eqb_spec n 0) as [|_]; [contradiction|].
        unfold call. unfold mbind, emit, get_chain, put_chain, lift, gets, ok.
        state_fields. rewrite Hfin. reflexivity.
  - intros r s' H. apply Hfit in H. destruct H as (t & H0 & H).
    destruct (epoch_loop_log F E n x y x_test y_test d rest _ Hx fresh t (x, y)
                Hbs H0) as (evs & L1 & F1 & K1 & Z1 & _).
    minv H as v1 t2 H1 H. apply gets_ok in H. destruct H as [-> ->].
    apply finalize_training_log in H1. destruct H1 as [L2 Lc].
    exists evs. rewrite L2, L1, <- app_assoc.
    split; [reflexivity|]. split; [exact Z1|].
    split; [exact F1|]. split; [exact K1|reflexivity].
  - intros He r s' H. apply Hfit in H. destruct H as (t & H0 & H).
    unfold epochs_run in H0.
    replace (Z.to_nat (epochs s)) with 0 in H0 by lia.
    cbn [seq epoch_loop] in H0. apply ret_ok in H0. destruct H0 as [_ ->].
    minv H as v1 t2 H1 H. apply gets_ok in H. destruct H as [-> ->].
    apply finalize_training_log in H1. now destruct H1 as [-> _].
Qed.

(** Two epochs over four rows, all 1 with targets 0, in batches of three,
    on the one-weight chain with weight 1: the weight goes 1, -2, 0 in the
    first epoch and stays 0 in the second. *)
Lemma fit_trains_every_epoch_witness :
  let x := mk_ndarray [4; 1] (repeat 1%Z 4) in
  let y := mk_ndarray [4; 1] (repeat 0%Z 4) in
  let empty := mk_ndarray [0] [] in
  exists s' evs,
    fit Z_ops scale_chain 1 x y empty empty false (scale_state 2 3 1)
    = ok (None, s')
    /\ sn_w (chain s') = 0%Z
    /\ optimizers s' = [(1, 4)]
    /\ log s' = evs ++ [EFinalize 0 x]
    /\ count_finalize evs = 0
    /\ map shape (forward_inputs evs) = [[3; 1]; [1; 1]; [3; 1]; [1; 1]]
    /\ optimize_keys evs = [1; 1; 1; 1].
Proof.
  intros x y empty.
  destruct (fit Z_ops scale_chain 1 x y empty empty false (scale_state 2 3 1))
    as [e | [r s']] eqn:Hrun; [vm_compute in Hrun; discriminate Hrun|].
  destruct (fit_trains_every_epoch Z_ops scale_chain 1 x y empty empty
              4 [1] (scale_state 2 3 1) eq_refl eq_refl)
    as (_ & Hlog & _).
  destruct (Hlog r s' Hrun) as (evs & L & C & Fw & K & Hr).
  vm_compute in Hrun. injection Hrun as <- <-.
  eexists. exists evs. split; [reflexivity|].
  split; [reflexivity|]. split; [reflexivity|].
  split; [exact L|]. split; [exact C|]. split.
  - rewrite Fw. vm_compute. reflexivity.
  - rewrite K. vm_compute. reflexivity.
Defined.

(** [X17] [__get_accuracy] on a target and a prediction of n rows each
    (with at least one column): the result is dtype(hits) / n, where hits
    is the number of rows in which the first largest entry of the target
    and of the prediction are at the same column; each of these columns
    is a valid index of its row.  The accuracy does not change when target
    and prediction are swapped.  A 1-d target makes [np.argmax(axis=1)]
    raise a ValueError. *)
Theorem get_accuracy_counts_agreeing_rows {A} (F : float_ops A) cast
    (y p : ndarray A) n m m' :
  (shape y = [n; m] -> shape p = [n; m'] -> 0 < m -> 0 < m' ->
   let col := fun (a : ndarray A) w i =>
                argmax_row F (firstn w (skipn (i * w) (data a))) in
   __get_accuracy F cast y p
   = ok (f_div F
           (cast (f_of_nat F
                    (length (filter (fun i => col y m i =? col p m' i) (seq 0 n)))))
           (f_of_nat F n)) /\
   __get_accuracy F cast p y = __get_accuracy F cast y p /\
   (wf y -> forall i, i < n -> col y m i < m)) /\
  (length (shape y) = 1 ->
   __get_accuracy F cast y p = raise (ValueError "axis 1 is out of bounds")).
Proof.
  split.
  - intros Hy Hp Hm Hm' col. split; [|split].
    + exact (get_accuracy_ok F cast y p n m m' Hy Hp Hm Hm').
    + rewrite (get_accuracy_ok F cast y p n m m' Hy Hp Hm Hm').
      rewrite (get_accuracy_ok F cast p y n m' m Hp Hy Hm' Hm).
      do 5 f_equal. apply filter_ext. intros i. apply Nat.eqb_sym.
    + intros Hwf i Hi. unfold col.
      assert (Hlen : length (firstn m (skipn (i * m) (data y))) = m).
      { rewrite length_firstn, length_skipn, Hwf, Hy.
        unfold size. cbn [fold_right]. nia. }
      assert (Hne : firstn m (skipn (i * m) (data y)) <> [])
        by (intros E0; rewrite E0 in Hlen; cbn in Hlen; lia).
      pose proof (argmax_row_lt F _ Hne) as Hlt.
      now rewrite Hlen in Hlt.
  - intros H1. unfold __get_accuracy, argmax_axis1.
    destruct (shape y) as [|a [|b l]]; try discriminate. reflexivity.
Qed.

(** Three rows, the prediction right on two of them. *)
Lemma get_accuracy_counts_agreeing_rows_witness :
  __get_accuracy Z_ops (fun v => (v * 100)%Z)
    (mk_ndarray [3; 2] [0; 1; 1; 0; 0; 1]%Z)
    (mk_ndarray [3; 2] [2; 9; 8; 3; 7; 1]%Z)
  = ok (200 / 3)%Z.
Proof.
  rewrite (proj1 (proj1 (get_accuracy_counts_agreeing_rows Z_ops
                           (fun v => (v * 100)%Z)
                           (mk_ndarray [3; 2] [0; 1; 1; 0; 0; 1]%Z)
                           (mk_ndarray [3; 2] [2; 9; 8; 3; 7; 1]%Z) 3 2 2)
                        eq_refl eq_refl ltac:(lia) ltac:(lia))).
  reflexivity.
Defined.

(** [X18] [__evaluate] with [SquaredError]: no accuracy is computed.  The
    training data are predicted and their loss taken; the test data are
    predicted, on the chain as the first prediction left it, only when
    they are not empty.  With a learning curve, one row is added: the
    training loss, the test loss or None, and None for both accuracies;
    without one, nothing is recorded. *)
Theorem evaluate_squared_error_row {A} (F : float_ops A) {net optimizer}
    (E : collaborators A net optimizer) n
    (x_train y_train x_test y_test : ndarray A) epoch
    (s : @state A net optimizer) p c1 l :
  is_squared_error E = true ->
  n <> 0 ->
  layer_predict E 0 x_train (chain s) = ok (p, c1) ->
  loss_get E p y_train = ok l ->
  (size (shape x_test) = 0 ->
   exists s',
     __evaluate F E n x_train y_train x_test y_test epoch s = ok (tt, s') /\
     chain s' = c1 /\
     lc s' = option_map (fun rows => rows ++ [mk_lc_entry l None None None])
               (lc s)) /\
  (size (shape x_test) <> 0 ->
   forall pt c2 lt,
     layer_predict E 0 x_test c1 = ok (pt, c2) ->
     loss_get E pt y_test = ok lt ->
     exists s',
       __evaluate F E n x_train y_train x_test y_test epoch s = ok (tt, s') /\
       chain s' = c2 /\
       lc s' = option_map
                 (fun rows => rows ++ [mk_lc_entry l (Some lt) None None])
                 (lc s)).
Proof.
  intros Hsq Hn Hp Hl. split.
  - intros Hsz.
    unfold __evaluate, mbind, lift, first_layer, emit, get_chain, put_chain,
      put_lc, gets, ret, ok, raise in *.
    destruct (Nat.eqb_spec n 0) as [|_]; [contradiction|].
    cbn. rewrite Hp. cbn. rewrite Hl, Hsz, Hsq. cbn.
    destruct (lc s); cbn; eexists; repeat split.
  - intros Hsz pt c2 lt Hpt Hlt.
    unfold __evaluate, mbind, lift, first_layer, emit, get_chain, put_chain,
      put_lc, gets, ret, ok, raise in *.
    destruct (Nat.eqb_spec n 0) as [|_]; [contradiction|].
    cbn. rewrite Hp. cbn. rewrite Hl.
    destruct (Nat.eqb_spec (size (shape x_test)) 0) as [|_]; [contradiction|].
    cbn. rewrite Hpt. cbn. rewrite Hlt, Hsq. cbn.
    destruct (lc s); cbn; eexists; repeat split.
Qed.

Lemma evaluate_squared_error_row_witness :
  let x := mk_ndarray [2; 2] [5; 7; 1; 4]%Z in
  let empty := mk_ndarray [0] [] in
  exists s',
    __evaluate Z_ops (toy_chain true) 1 x x empty empty 0 (toy_state 1 2 true)
    = ok (tt, s') /\
    lc s' = Some [mk_lc_entry 0%Z None None None].
Proof.
  intros x empty.
  destruct (evaluate_squared_error_row Z_ops (toy_chain true) 1 x x empty empty
              0 (toy_state 1 2 true) x None 0%Z eq_refl ltac:(discriminate)
              eq_refl eq_refl) as (H & _).
  destruct (H eq_refl) as (s' & Hs' & _ & Hlc).
  exists s'. split; [exact Hs' | exact Hlc].
Defined.

End EngineMore.
